(** * MOS-6502 emulator: a shallow embedding of the CPU core, the memory
    devices, the opcode table and the assembler's instruction emitter,
    with the properties checked against them.

    Conventions of the embedding.
    - [byte] (uint8_t), [word] (uint16_t) and [int] values are integers in
      [Z]; every store into a [byte] or [word] variable writes the
      truncation out with [to_byte] or [to_word].
    - [fast_byte] (uint_fast8_t) is taken to be 8 bits wide, as it is with
      the MSVC and glibc headers.
    - [union address] overlays [value] with [{record; page}]; the host is
      little-endian, so [record] is the low byte and [page] the high byte.
    - The scoped enums [Instruction] and [AddressMode] live in modules of
      the same name, as both have members called [INX] and [INY].
    - Methods of a class are functions in a module named after the class.
      Methods of [CPU] are computations in a state monad over the CPU
      object; the bus and the memory are part of that state.
    - Diagnostics written to std::cout and std::cerr are not modelled. *)

From Stdlib Require Import ZArith Lia Bool List.
From stdpp Require Import base option list gmap.
From stdpp Require Import strings.

Local Open Scope Z_scope.

(** ** types.h *)

(** [static_cast<byte>] and [static_cast<word>] of an integer. *)
Definition to_byte (z : Z) : Z := z mod 256.
Definition to_word (z : Z) : Z := z mod 65536.

(** Conversion of an integer to [bool], as in [if (x)] or in passing an
    [int] to a [bool] parameter. *)
Definition nonzero (z : Z) : bool := negb (z =? 0).

Module address.
(** [union address { word value; struct { byte record; byte page; }; }].
    An address is kept as its [value]. *)
Definition t := Z.

(** [address(int val) : value(val)] *)
Definition of_int (val : Z) : t := to_word val.

(** [address(byte page, byte record)] *)
Definition make (page record : Z) : t :=
  Z.lor (Z.shiftl (to_byte page) 8) (to_byte record).

Definition value (a : t) : Z := a.
Definition record (a : t) : Z := Z.land a 0xFF.
Definition page (a : t) : Z := Z.land (Z.shiftr a 8) 0xFF.
End address.

(** ** utils.h *)

Definition KB : Z := 0x400.
Definition MAKE_KB (n : Z) : Z := n * KB.

Definition MAKE_WORD (low high : Z) : Z := Z.lor (Z.shiftl high 8) low.
Definition GET_HIGH_BYTE (val : Z) : Z := Z.land (Z.shiftr val 8) 0xFF.
Definition GET_LOW_BYTE (val : Z) : Z := Z.land val 0xFF.
Definition IS_NEGATIVE (val : Z) : Z := Z.land val 0x80.

Definition ADDRESS_STACK : Z := 0x0100.
Definition ADDRESS_NMI_VECTOR : Z := 0xFFFA.
Definition ADDRESS_RESET_VECTOR : Z := 0xFFFC.
Definition ADDRESS_IRQ_VECTOR : Z := 0xFFFE.

(** ** instructions.h *)

Module AddressMode.
Inductive t : Set :=
| ILL | ABS | ABX | ABY | ACC | IMM | IMP | IND | INX | INY | REL
| ZPG | ZPX | ZPY.

Definition eqb (a b : t) : bool :=
  match a, b with
  | ILL, ILL | ABS, ABS | ABX, ABX | ABY, ABY | ACC, ACC | IMM, IMM
  | IMP, IMP | IND, IND | INX, INX | INY, INY | REL, REL | ZPG, ZPG
  | ZPX, ZPX | ZPY, ZPY => true
  | _, _ => false
  end.
End AddressMode.

Module Instruction.
Inductive t : Set :=
| ILL
| ADC | AND | ASL | BCC | BCS | BEQ | BIT | BMI | BNE | BPL | BRK | BVC
| BVS | CLC | CLD | CLI | CLV | CMP | CPX | CPY | DEC | DEX | DEY | EOR
| INC | INX | INY | JMP | JSR | LDA | LDX | LDY | LSR | NOP | ORA | PHA
| PHP | PLA | PLP | ROL | ROR | RTI | RTS | SBC | SEC | SED | SEI | STA
| STX | STY | TAX | TAY | TSX | TXA | TXS | TYA.

(** The enumerator's value, [static_cast<byte>(inst)]. *)
Definition to_Z (i : t) : Z :=
  match i with
  | ILL => 0
  | ADC => 1 | AND => 2 | ASL => 3 | BCC => 4 | BCS => 5 | BEQ => 6
  | BIT => 7 | BMI => 8 | BNE => 9 | BPL => 10 | BRK => 11 | BVC => 12
  | BVS => 13 | CLC => 14 | CLD => 15 | CLI => 16 | CLV => 17 | CMP => 18
  | CPX => 19 | CPY => 20 | DEC => 21 | DEX => 22 | DEY => 23 | EOR => 24
  | INC => 25 | INX => 26 | INY => 27 | JMP => 28 | JSR => 29 | LDA => 30
  | LDX => 31 | LDY => 32 | LSR => 33 | NOP => 34 | ORA => 35 | PHA => 36
  | PHP => 37 | PLA => 38 | PLP => 39 | ROL => 40 | ROR => 41 | RTI => 42
  | RTS => 43 | SBC => 44 | SEC => 45 | SED => 46 | SEI => 47 | STA => 48
  | STX => 49 | STY => 50 | TAX => 51 | TAY => 52 | TSX => 53 | TXA => 54
  | TXS => 55 | TYA => 56
  end.

Definition eqb (a b : t) : bool := to_Z a =? to_Z b.
End Instruction.

Definition INSTR_MNMUEMONIC_SIZE : Z := 57.

Record InstructionDetail : Set := row {
  opCode : Z;
  instruction : Instruction.t;
  addressing : AddressMode.t;
  bytesUsed : Z;
  minCycles : Z;
  variableCycles : bool
}.

(** [constexpr fast_byte MAX_INSTRUCTIONS = 255;] *)
Definition MAX_INSTRUCTIONS : Z := 255.

(** ** instructions.cpp: the master instruction table.  The initializer of
    [std::array<InstructionDetail, MAX_INSTRUCTIONS> InstructionDetails],
    row for row. *)
Definition InstructionDetails : list InstructionDetail := [
  row 0x00 Instruction.BRK AddressMode.IMP 1 7 false;
  row 0x01 Instruction.ORA AddressMode.INX 2 6 false;
  row 0x02 Instruction.ILL AddressMode.ILL 1 2 false;
  row 0x03 Instruction.ILL AddressMode.ILL 1 2 false;
  row 0x04 Instruction.ILL AddressMode.ILL 1 2 false;
  row 0x05 Instruction.ORA AddressMode.ZPG 2 3 false;
  row 0x06 Instruction.ASL AddressMode.ZPG 2 5 false;
  row 0x07 Instruction.ILL AddressMode.ILL 1 2 false;
  row 0x08 Instruction.PHP AddressMode.IMP 1 3 false;
  row 0x09 Instruction.ORA AddressMode.IMM 2 2 false;
  row 0x0A Instruction.ASL AddressMode.ACC 1 2 false;
  row 0x0B Instruction.ILL AddressMode.ILL 1 2 false;
  row 0x0C Instruction.ILL AddressMode.ILL 1 2 false;
  row 0x0D Instruction.ORA AddressMode.ABS 3 4 false;
  row 0x0E Instruction.ASL AddressMode.ABS 3 6 false;
  row 0x0F Instruction.ILL AddressMode.ILL 1 2 false;
  row 0x10 Instruction.BPL AddressMode.REL 2 2 true;
  row 0x11 Instruction.ORA AddressMode.INY 2 5 true;
  row 0x12 Instruction.ILL AddressMode.ILL 1 2 false;
  row 0x13 Instruction.ILL AddressMode.ILL 1 2 false;
  row 0x14 Instruction.ILL AddressMode.ILL 1 2 false;
  row 0x15 Instruction.ORA AddressMode.ZPX 2 4 false;
  row 0x16 Instruction.ASL AddressMode.ZPX 2 6 false;
  row 0x17 Instruction.ILL AddressMode.ILL 1 2 false;
  row 0x18 Instruction.CLC AddressMode.IMP 1 2 false;
  row 0x19 Instruction.ORA AddressMode.ABY 3 4 true;
  row 0x1A Instruction.ILL AddressMode.ILL 1 2 false;
  row 0x1B Instruction.ILL AddressMode.ILL 1 2 false;
  row 0x1C Instruction.ILL AddressMode.ILL 1 2 false;
  row 0x1D Instruction.ORA AddressMode.ABX 3 4 true;
  row 0x1E Instruction.ASL AddressMode.ABX 3 7 false;
  row 0x1F Instruction.ILL AddressMode.ILL 1 2 false;
  row 0x20 Instruction.JSR AddressMode.ABS 3 6 false;
  row 0x21 Instruction.AND AddressMode.INX 2 6 false;
  row 0x22 Instruction.ILL AddressMode.ILL 1 2 false;
  row 0x23 Instruction.ILL AddressMode.ILL 1 2 false;
  row 0x24 Instruction.BIT AddressMode.ZPG 2 3 false;
  row 0x25 Instruction.AND AddressMode.ZPG 2 3 false;
  row 0x26 Instruction.ROL AddressMode.ZPG 2 5 false;
  row 0x27 Instruction.ILL AddressMode.ILL 1 2 false;
  row 0x28 Instruction.PLP AddressMode.IMP 1 4 false;
  row 0x29 Instruction.AND AddressMode.IMM 2 2 false;
  row 0x2A Instruction.ROL AddressMode.ACC 1 2 false;
  row 0x2B Instruction.ILL AddressMode.ILL 1 2 false;
  row 0x2C Instruction.BIT AddressMode.ABS 3 4 false;
  row 0x2D Instruction.AND AddressMode.ABS 3 4 false;
  row 0x2E Instruction.ROL AddressMode.ABS 3 6 false;
  row 0x2F Instruction.ILL AddressMode.ILL 1 2 false;
  row 0x30 Instruction.BMI AddressMode.REL 2 2 true;
  row 0x31 Instruction.AND AddressMode.INY 2 5 true;
  row 0x32 Instruction.ILL AddressMode.ILL 1 2 false;
  row 0x33 Instruction.ILL AddressMode.ILL 1 2 false;
  row 0x34 Instruction.ILL AddressMode.ILL 1 2 false;
  row 0x35 Instruction.AND AddressMode.ZPX 2 4 false;
  row 0x36 Instruction.ROL AddressMode.ZPX 2 6 false;
  row 0x37 Instruction.ILL AddressMode.ILL 1 2 false;
  row 0x38 Instruction.SEC AddressMode.IMP 1 2 false;
  row 0x39 Instruction.AND AddressMode.ABY 3 4 true;
  row 0x3A Instruction.ILL AddressMode.ILL 1 2 false;
  row 0x3B Instruction.ILL AddressMode.ILL 1 2 false;
  row 0x3C Instruction.ILL AddressMode.ILL 1 2 false;
  row 0x3D Instruction.AND AddressMode.ABX 3 4 true;
  row 0x3E Instruction.ROL AddressMode.ABX 3 7 false;
  row 0x3F Instruction.ILL AddressMode.ILL 1 2 false;
  row 0x40 Instruction.RTI AddressMode.IMP 1 6 false;
  row 0x41 Instruction.EOR AddressMode.INX 2 6 false;
  row 0x42 Instruction.ILL AddressMode.ILL 1 2 false;
  row 0x43 Instruction.ILL AddressMode.ILL 1 2 false;
  row 0x44 Instruction.ILL AddressMode.ILL 1 2 false;
  row 0x45 Instruction.EOR AddressMode.ZPG 2 3 false;
  row 0x46 Instruction.LSR AddressMode.ZPG 2 5 false;
  row 0x47 Instruction.ILL AddressMode.ILL 1 2 false;
  row 0x48 Instruction.PHA AddressMode.IMP 1 3 false;
  row 0x49 Instruction.EOR AddressMode.IMM 2 2 false;
  row 0x4A Instruction.LSR AddressMode.ACC 1 2 false;
  row 0x4B Instruction.ILL AddressMode.ILL 1 2 false;
  row 0x4C Instruction.JMP AddressMode.ABS 3 3 false;
  row 0x4D Instruction.EOR AddressMode.ABS 3 4 false;
  row 0x4E Instruction.LSR AddressMode.ABS 3 6 false;
  row 0x4F Instruction.ILL AddressMode.ILL 1 2 false;
  row 0x50 Instruction.BVC AddressMode.REL 2 2 true;
  row 0x51 Instruction.EOR AddressMode.INY 2 5 true;
  row 0x52 Instruction.ILL AddressMode.ILL 1 2 false;
  row 0x53 Instruction.ILL AddressMode.ILL 1 2 false;
  row 0x54 Instruction.ILL AddressMode.ILL 1 2 false;
  row 0x55 Instruction.EOR AddressMode.ZPX 2 4 false;
  row 0x56 Instruction.LSR AddressMode.ZPX 2 6 false;
  row 0x57 Instruction.ILL AddressMode.ILL 1 2 false;
  row 0x58 Instruction.CLI AddressMode.IMP 1 2 false;
  row 0x59 Instruction.EOR AddressMode.ABY 3 4 true;
  row 0x5A Instruction.ILL AddressMode.ILL 1 2 false;
  row 0x5B Instruction.ILL AddressMode.ILL 1 2 false;
  row 0x5C Instruction.ILL AddressMode.ILL 1 2 false;
  row 0x5D Instruction.EOR AddressMode.ABX 3 4 true;
  row 0x5E Instruction.LSR AddressMode.ABX 3 7 false;
  row 0x5F Instruction.ILL AddressMode.ILL 1 2 false;
  row 0x60 Instruction.RTS AddressMode.IMP 1 6 false;
  row 0x61 Instruction.ADC AddressMode.INX 2 6 false;
  row 0x62 Instruction.ILL AddressMode.ILL 1 2 false;
  row 0x63 Instruction.ILL AddressMode.ILL 1 2 false;
  row 0x64 Instruction.ILL AddressMode.ILL 1 2 false;
  row 0x65 Instruction.ADC AddressMode.ZPG 2 3 false;
  row 0x66 Instruction.ROR AddressMode.ZPG 2 5 false;
  row 0x67 Instruction.ILL AddressMode.ILL 1 2 false;
  row 0x68 Instruction.PLA AddressMode.IMP 1 4 false;
  row 0x69 Instruction.ADC AddressMode.IMM 2 2 false;
  row 0x6A Instruction.ROR AddressMode.ACC 1 2 false;
  row 0x6B Instruction.ILL AddressMode.ILL 1 2 false;
  row 0x6C Instruction.JMP AddressMode.IND 3 5 false;
  row 0x6D Instruction.ADC AddressMode.ABS 3 4 false;
  row 0x6E Instruction.ROR AddressMode.ABS 3 6 false;
  row 0x6F Instruction.ILL AddressMode.ILL 1 2 false;
  row 0x70 Instruction.BVC AddressMode.REL 2 2 true;
  row 0x71 Instruction.ADC AddressMode.INY 2 5 true;
  row 0x72 Instruction.ILL AddressMode.ILL 1 2 false;
  row 0x73 Instruction.ILL AddressMode.ILL 1 2 false;
  row 0x74 Instruction.ILL AddressMode.ILL 1 2 false;
  row 0x75 Instruction.ADC AddressMode.ZPX 2 4 false;
  row 0x76 Instruction.ROR AddressMode.ZPX 2 6 false;
  row 0x77 Instruction.ILL AddressMode.ILL 1 2 false;
  row 0x78 Instruction.SEI AddressMode.IMP 1 2 false;
  row 0x79 Instruction.ADC AddressMode.ABY 3 4 true;
  row 0x7A Instruction.ILL AddressMode.ILL 1 2 false;
  row 0x7B Instruction.ILL AddressMode.ILL 1 2 false;
  row 0x7C Instruction.ILL AddressMode.ILL 1 2 false;
  row 0x7D Instruction.ADC AddressMode.ABX 3 4 true;
  row 0x7E Instruction.ROR AddressMode.ABX 3 7 false;
  row 0x7F Instruction.ILL AddressMode.ILL 1 2 false;
  row 0x80 Instruction.ILL AddressMode.ILL 1 2 false;
  row 0x81 Instruction.STA AddressMode.INX 2 6 false;
  row 0x82 Instruction.ILL AddressMode.ILL 1 2 false;
  row 0x83 Instruction.ILL AddressMode.ILL 1 2 false;
  row 0x84 Instruction.STY AddressMode.ZPG 2 3 false;
  row 0x85 Instruction.STA AddressMode.ZPG 2 3 false;
  row 0x86 Instruction.STX AddressMode.ZPG 2 3 false;
  row 0x87 Instruction.ILL AddressMode.ILL 1 2 false;
  row 0x88 Instruction.DEY AddressMode.IMP 1 2 false;
  row 0x89 Instruction.ILL AddressMode.ILL 1 2 false;
  row 0x8A Instruction.TXA AddressMode.IMP 1 2 false;
  row 0x8B Instruction.ILL AddressMode.ILL 1 2 false;
  row 0x8C Instruction.STY AddressMode.ABS 3 4 false;
  row 0x8D Instruction.STA AddressMode.ABS 3 4 false;
  row 0x8E Instruction.STX AddressMode.ABS 3 4 false;
  row 0x8F Instruction.ILL AddressMode.ILL 1 2 false;
  row 0x90 Instruction.BCC AddressMode.REL 2 2 true;
  row 0x91 Instruction.STA AddressMode.INY 2 6 false;
  row 0x92 Instruction.ILL AddressMode.ILL 1 2 false;
  row 0x93 Instruction.ILL AddressMode.ILL 1 2 false;
  row 0x94 Instruction.STY AddressMode.ZPX 2 4 false;
  row 0x95 Instruction.STA AddressMode.ZPX 2 4 false;
  row 0x96 Instruction.STX AddressMode.ZPY 2 4 false;
  row 0x97 Instruction.ILL AddressMode.ILL 1 2 false;
  row 0x98 Instruction.TYA AddressMode.IMP 1 2 false;
  row 0x99 Instruction.STA AddressMode.ABY 3 5 false;
  row 0x9A Instruction.TXS AddressMode.IMP 1 2 false;
  row 0x9B Instruction.ILL AddressMode.ILL 1 2 false;
  row 0x9C Instruction.ILL AddressMode.ILL 1 2 false;
  row 0x9D Instruction.STA AddressMode.ABX 3 5 false;
  row 0x9E Instruction.ILL AddressMode.ILL 1 2 false;
  row 0x9F Instruction.ILL AddressMode.ILL 1 2 false;
  row 0xA0 Instruction.LDY AddressMode.IMM 2 2 false;
  row 0xA1 Instruction.LDA AddressMode.INX 2 6 false;
  row 0xA2 Instruction.LDX AddressMode.IMM 2 2 false;
  row 0xA3 Instruction.ILL AddressMode.ILL 1 2 false;
  row 0xA4 Instruction.LDY AddressMode.ZPG 2 3 false;
  row 0xA5 Instruction.LDA AddressMode.ZPG 2 3 false;
  row 0xA6 Instruction.LDX AddressMode.ZPG 2 3 false;
  row 0xA7 Instruction.ILL AddressMode.ILL 1 2 false;
  row 0xA8 Instruction.TAY AddressMode.IMP 1 2 false;
  row 0xA9 Instruction.LDA AddressMode.IMM 2 2 false;
  row 0xAA Instruction.TAX AddressMode.IMP 1 2 false;
  row 0xAB Instruction.ILL AddressMode.ILL 1 2 false;
  row 0xAC Instruction.LDY AddressMode.ABS 3 4 false;
  row 0xAD Instruction.LDA AddressMode.ABS 3 4 false;
  row 0xAE Instruction.LDX AddressMode.ABS 3 4 false;
  row 0xAF Instruction.ILL AddressMode.ILL 1 2 false;
  row 0xB0 Instruction.BCS AddressMode.REL 2 2 true;
  row 0xB1 Instruction.LDA AddressMode.INY 2 5 true;
  row 0xB2 Instruction.ILL AddressMode.ILL 1 2 false;
  row 0xB3 Instruction.ILL AddressMode.ILL 1 2 false;
  row 0xB4 Instruction.LDY AddressMode.ZPX 2 4 false;
  row 0xB5 Instruction.LDA AddressMode.ZPX 2 4 false;
  row 0xB6 Instruction.LDX AddressMode.ZPY 2 4 false;
  row 0xB7 Instruction.ILL AddressMode.ILL 1 2 false;
  row 0xB8 Instruction.CLV AddressMode.IMP 1 2 false;
  row 0xB9 Instruction.LDA AddressMode.ABY 3 4 true;
  row 0xBA Instruction.TSX AddressMode.IMP 1 2 false;
  row 0xBB Instruction.ILL AddressMode.ILL 1 2 false;
  row 0xBC Instruction.LDY AddressMode.ABX 3 4 true;
  row 0xBD Instruction.LDA AddressMode.ABX 3 4 true;
  row 0xBE Instruction.LDX AddressMode.ABY 3 4 true;
  row 0xBF Instruction.ILL AddressMode.ILL 1 2 false;
  row 0xC0 Instruction.CPY AddressMode.IMM 2 2 false;
  row 0xC1 Instruction.CMP AddressMode.INX 2 6 false;
  row 0xC2 Instruction.ILL AddressMode.ILL 1 2 false;
  row 0xC3 Instruction.ILL AddressMode.ILL 1 2 false;
  row 0xC4 Instruction.CPY AddressMode.ZPG 2 3 false;
  row 0xC5 Instruction.CMP AddressMode.ZPG 2 3 false;
  row 0xC6 Instruction.DEC AddressMode.ZPG 2 5 false;
  row 0xC7 Instruction.ILL AddressMode.ILL 1 2 false;
  row 0xC8 Instruction.INY AddressMode.IMP 1 2 false;
  row 0xC9 Instruction.CMP AddressMode.IMM 2 2 false;
  row 0xCA Instruction.DEX AddressMode.IMP 1 2 false;
  row 0xCB Instruction.ILL AddressMode.ILL 1 2 false;
  row 0xCC Instruction.CPY AddressMode.ABS 3 4 false;
  row 0xCD Instruction.CMP AddressMode.ABS 3 4 false;
  row 0xCE Instruction.DEC AddressMode.ABS 3 6 false;
  row 0xCF Instruction.ILL AddressMode.ILL 1 2 false;
  row 0xD0 Instruction.BNE AddressMode.REL 2 2 true;
  row 0xD1 Instruction.CMP AddressMode.INY 2 5 true;
  row 0xD2 Instruction.ILL AddressMode.ILL 1 2 false;
  row 0xD3 Instruction.ILL AddressMode.ILL 1 2 false;
  row 0xD4 Instruction.ILL AddressMode.ILL 1 2 false;
  row 0xD5 Instruction.CMP AddressMode.ZPX 2 4 false;
  row 0xD6 Instruction.DEC AddressMode.ZPX 2 6 false;
  row 0xD7 Instruction.ILL AddressMode.ILL 1 2 false;
  row 0xD8 Instruction.CLD AddressMode.IMP 1 2 false;
  row 0xD9 Instruction.CMP AddressMode.ABY 3 4 true;
  row 0xDA Instruction.ILL AddressMode.ILL 1 2 false;
  row 0xDB Instruction.ILL AddressMode.ILL 1 2 false;
  row 0xDC Instruction.ILL AddressMode.ILL 1 2 false;
  row 0xDD Instruction.CMP AddressMode.ABX 3 4 true;
  row 0xDE Instruction.DEC AddressMode.ABX 3 7 false;
  row 0xDF Instruction.ILL AddressMode.ILL 1 2 false;
  row 0xE0 Instruction.CPX AddressMode.IMM 2 2 false;
  row 0xE1 Instruction.SBC AddressMode.INX 2 6 false;
  row 0xE2 Instruction.ILL AddressMode.ILL 1 2 false;
  row 0xE3 Instruction.ILL AddressMode.ILL 1 2 false;
  row 0xE4 Instruction.CPX AddressMode.ZPG 2 3 false;
  row 0xE5 Instruction.SBC AddressMode.ZPG 2 3 false;
  row 0xE6 Instruction.INC AddressMode.ZPG 2 5 false;
  row 0xE7 Instruction.ILL AddressMode.ILL 1 2 false;
  row 0xE8 Instruction.INX AddressMode.IMP 1 2 false;
  row 0xE9 Instruction.SBC AddressMode.IMM 2 2 false;
  row 0xEA Instruction.NOP AddressMode.IMP 1 2 false;
  row 0xEB Instruction.ILL AddressMode.ILL 1 2 false;
  row 0xEC Instruction.CPX AddressMode.ABS 3 4 false;
  row 0xED Instruction.SBC AddressMode.ABS 3 4 false;
  row 0xEE Instruction.INC AddressMode.ABS 3 6 false;
  row 0xEF Instruction.ILL AddressMode.ILL 1 2 false;
  row 0xF0 Instruction.BEQ AddressMode.REL 2 2 true;
  row 0xF1 Instruction.SBC AddressMode.INY 2 5 true;
  row 0xF2 Instruction.ILL AddressMode.ILL 1 2 false;
  row 0xF3 Instruction.ILL AddressMode.ILL 1 2 false;
  row 0xF4 Instruction.ILL AddressMode.ILL 1 2 false;
  row 0xF5 Instruction.SBC AddressMode.ZPX 2 4 false;
  row 0xF6 Instruction.INC AddressMode.ZPX 2 6 false;
  row 0xF7 Instruction.ILL AddressMode.ILL 1 2 false;
  row 0xF8 Instruction.SED AddressMode.IMP 1 2 false;
  row 0xF9 Instruction.SBC AddressMode.ABY 3 4 true;
  row 0xFA Instruction.ILL AddressMode.ILL 1 2 false;
  row 0xFB Instruction.ILL AddressMode.ILL 1 2 false;
  row 0xFC Instruction.ILL AddressMode.ILL 1 2 false;
  row 0xFD Instruction.SBC AddressMode.ABX 3 4 true;
  row 0xFE Instruction.INC AddressMode.ABX 3 7 false
].

(** The row of opcode 0x02, the first ILL slot. *)
Definition first_ILL_slot : InstructionDetail :=
  row 0x02 Instruction.ILL AddressMode.ILL 1 2 false.

(** [FindInstructionDetail]: the first row with the given instruction and
    addressing mode, or [InstructionDetails[2]] (the first ILL slot) when
    there is none. *)
Definition FindInstructionDetail (inst : Instruction.t) (addr : AddressMode.t)
  : InstructionDetail :=
  match
    find (fun itr => Instruction.eqb (instruction itr) inst
                     && AddressMode.eqb (addressing itr) addr)
         InstructionDetails
  with
  | Some itr => itr
  | None => nth 2 InstructionDetails first_ILL_slot
  end.

(** ** instructions.cpp: the mnemonic table and its look-ups *)

(** [const std::string InstructionMnmuemonics[INSTR_MNMUEMONIC_SIZE]] *)
Definition InstructionMnmuemonics : list String.string := [
  "ILL"; "ADC"; "AND"; "ASL"; "BCC"; "BCS"; "BEQ"; "BIT"; "BMI";
  "BNE"; "BPL"; "BRK"; "BVC"; "BVS"; "CLC"; "CLD"; "CLI"; "CLV";
  "CMP"; "CPX"; "CPY"; "DEC"; "DEX"; "DEY"; "EOR"; "INC"; "INX";
  "INY"; "JMP"; "JSR"; "LDA"; "LDX"; "LDY"; "LSR"; "NOP"; "ORA";
  "PHA"; "PHP"; "PLA"; "PLP"; "ROL"; "ROR"; "RTI"; "RTS"; "SBC";
  "SEC"; "SED"; "SEI"; "STA"; "STX"; "STY"; "TAX"; "TAY"; "TSX";
  "TXA"; "TXS"; "TYA"
]%string.

(** [static_cast<Instruction>(i)] for the values of the enumerators. *)
Definition Instruction_of_int (i : Z) : Instruction.t :=
  match i with
  | 1 => Instruction.ADC | 2 => Instruction.AND | 3 => Instruction.ASL |
  4 => Instruction.BCC | 5 => Instruction.BCS | 6 => Instruction.BEQ | 7
  => Instruction.BIT | 8 => Instruction.BMI | 9 => Instruction.BNE | 10
  => Instruction.BPL | 11 => Instruction.BRK | 12 => Instruction.BVC |
  13 => Instruction.BVS | 14 => Instruction.CLC | 15 => Instruction.CLD
  | 16 => Instruction.CLI | 17 => Instruction.CLV | 18 =>
  Instruction.CMP | 19 => Instruction.CPX | 20 => Instruction.CPY | 21
  => Instruction.DEC | 22 => Instruction.DEX | 23 => Instruction.DEY |
  24 => Instruction.EOR | 25 => Instruction.INC | 26 => Instruction.INX
  | 27 => Instruction.INY | 28 => Instruction.JMP | 29 =>
  Instruction.JSR | 30 => Instruction.LDA | 31 => Instruction.LDX | 32
  => Instruction.LDY | 33 => Instruction.LSR | 34 => Instruction.NOP |
  35 => Instruction.ORA | 36 => Instruction.PHA | 37 => Instruction.PHP
  | 38 => Instruction.PLA | 39 => Instruction.PLP | 40 =>
  Instruction.ROL | 41 => Instruction.ROR | 42 => Instruction.RTI | 43
  => Instruction.RTS | 44 => Instruction.SBC | 45 => Instruction.SEC |
  46 => Instruction.SED | 47 => Instruction.SEI | 48 => Instruction.STA
  | 49 => Instruction.STX | 50 => Instruction.STY | 51 =>
  Instruction.TAX | 52 => Instruction.TAY | 53 => Instruction.TSX | 54
  => Instruction.TXA | 55 => Instruction.TXS | 56 => Instruction.TYA
  | _ => Instruction.ILL
  end.

(** [InstructionMnmuemonics[(int)inst]] *)
Definition GetInstructionMnmuemonic (inst : Instruction.t) : String.string :=
  nth (Z.to_nat (Instruction.to_Z inst)) InstructionMnmuemonics
    String.EmptyString.

(** The loop [for (int i = 1; i < INSTR_MNMUEMONIC_SIZE; i++)] of both
    look-ups, over the entries from index [i] on: the index of the first
    entry equal to [str]. *)
Fixpoint find_mnmuemonic (str : String.string) (i : Z)
  (entries : list String.string) : option Z :=
  match entries with
  | [] => None
  | entry :: entries' =>
      if String.eqb str entry then Some i
      else find_mnmuemonic str (i + 1) entries'
  end.

Definition HasInstructionMnmuemonic (str : String.string) : bool :=
  if negb (Nat.eqb (String.length str) 3) || String.eqb str "ILL"%string
  then false
  else
    match find_mnmuemonic str 1 (tail InstructionMnmuemonics) with
    | Some _ => true
    | None => false
    end.

Definition MnmuemonicToInstruction (str : String.string) : Instruction.t :=
  if negb (Nat.eqb (String.length str) 3) || String.eqb str "ILL"%string
  then Instruction.ILL
  else
    match find_mnmuemonic str 1 (tail InstructionMnmuemonics) with
    | Some i => Instruction_of_int i
    | None => Instruction.ILL
    end.

(** Row [i] of a table whose first row is for opcode [k] carries opcode
    [k + i]. *)
Fixpoint keyed_from (k : Z) (table : list InstructionDetail) : bool :=
  match table with
  | [] => true
  | detail :: rest => (opCode detail =? k) && keyed_from (k + 1) rest
  end.

(** ** memory.h, memory.cpp *)

Module Memory.
(** [m_Data] is a [std::vector<byte>] that the constructor resizes to
    [m_Size], which fills it with zeros, and that is never resized again.
    It is kept as a finite map from index to byte in which an index that
    was never written is absent and reads as 0. *)
Record t := mk {
  m_Size : Z;
  m_Data : gmap Z Z
}.

(** [Memory(const size_t sizeBytes = MAKE_KB(64))] *)
Definition new (sizeBytes : Z) : t := mk sizeBytes ∅.

(** [Memory::Make(const size_t size = MAKE_KB(64))] *)
Definition Make (size : Z) : t := new size.

(** [m_Data[i]] *)
Definition cell (m : t) (i : Z) : Z := default 0 (m_Data m !! i).

Definition ReadByte (m : t) (addr : address.t) : Z :=
  if address.value addr <? m_Size m then cell m (address.value addr)
  else 0.

(** [ReadByte(addr.value + 1)] converts the [int] sum back to an
    [address] through [address(int)]. *)
Definition ReadWord (m : t) (addr : address.t) : Z :=
  let low := ReadByte m addr in
  let high := ReadByte m (address.of_int (address.value addr + 1)) in
  to_word (MAKE_WORD low high).

Definition WriteByte (m : t) (addr : address.t) (data : Z) : t :=
  if address.value addr <? m_Size m
  then mk (m_Size m) (<[address.value addr := to_byte data]> (m_Data m))
  else m.

(** The second bound is computed in [size_t], so it does not wrap. *)
Definition WriteWord (m : t) (addr : address.t) (data : Z) : t :=
  let data := to_word data in
  let m1 :=
    if address.value addr <? m_Size m
    then mk (m_Size m)
            (<[address.value addr := to_byte (GET_LOW_BYTE data)]> (m_Data m))
    else m in
  if address.value addr + 1 <? m_Size m1
  then mk (m_Size m1)
          (<[address.value addr + 1 := to_byte (GET_HIGH_BYTE data)]>
             (m_Data m1))
  else m1.

(** [memcpy] of the first [maxlen] bytes to [m_Data[offset.value]] on.
    When [offset.value] exceeds [m_Size] the unsigned subtraction wraps
    and the copy runs past the vector; that case has no defined result
    and the model leaves the memory as it is. *)
Definition WriteBytes (m : t) (offset : address.t) (bytes : list Z) : t :=
  if address.value offset <=? m_Size m then
    let maxlen :=
      Z.min (Z.of_nat (length bytes)) (m_Size m - address.value offset) in
    mk (m_Size m)
       (fold_left
          (fun data ib =>
             <[address.value offset + Z.of_nat (fst ib) := to_byte (snd ib)]>
               data)
          (imap (fun i b => (i, b)) (take (Z.to_nat maxlen) bytes))
          (m_Data m))
  else m.

(** Every cell holds a [byte] and lies inside the vector. *)
Definition wf (m : t) : Prop :=
  map_Forall (fun i v => 0 <= i < m_Size m /\ 0 <= v < 256) (m_Data m).
End Memory.

(** ** io_device.h, bus.h, bus.cpp *)

(** An [ioptr] that is not null points to a [Memory] or to a [Bus]; a
    [Bus] holds its own [ioptr m_Memory], which may be null.  [CPU] derives
    from [IODevice] too, but a CPU is never mounted as a device and is not
    a case here. *)
#[local] Set Warnings "-register-all".
Inductive IODevice : Type :=
| IOMemory (mem : Memory.t)
| IOBus (m_Memory : option IODevice).
#[local] Set Warnings "register-all".

Module IODevice.
(** Virtual dispatch.  The [IOBus] cases are the bodies of the [Bus]
    methods: forward to [m_Memory] when it is attached, otherwise read 0
    or drop the write. *)
Fixpoint ReadByte (d : IODevice) (addr : address.t) : Z :=
  match d with
  | IOMemory mem => Memory.ReadByte mem addr
  | IOBus (Some m) => ReadByte m addr
  | IOBus None => 0
  end.

Fixpoint ReadWord (d : IODevice) (addr : address.t) : Z :=
  match d with
  | IOMemory mem => Memory.ReadWord mem addr
  | IOBus (Some m) => ReadWord m addr
  | IOBus None => 0
  end.

Fixpoint WriteByte (d : IODevice) (addr : address.t) (data : Z) : IODevice :=
  match d with
  | IOMemory mem => IOMemory (Memory.WriteByte mem addr data)
  | IOBus (Some m) => IOBus (Some (WriteByte m addr data))
  | IOBus None => IOBus None
  end.

Fixpoint WriteWord (d : IODevice) (addr : address.t) (data : Z) : IODevice :=
  match d with
  | IOMemory mem => IOMemory (Memory.WriteWord mem addr data)
  | IOBus (Some m) => IOBus (Some (WriteWord m addr data))
  | IOBus None => IOBus None
  end.

Fixpoint WriteBytes (d : IODevice) (offset : address.t) (bytes : list Z)
  : IODevice :=
  match d with
  | IOMemory mem => IOMemory (Memory.WriteBytes mem offset bytes)
  | IOBus (Some m) => IOBus (Some (WriteBytes m offset bytes))
  | IOBus None => IOBus None
  end.
End IODevice.

Module Bus.
(** [Bus::Make(mem)] *)
Definition Make (mem : option IODevice) : IODevice := IOBus mem.
End Bus.

(** ** cpu.h, cpu.cpp *)

Module CPU.

(** [enum class StatusFlag : byte], each member a single bit of the
    processor status. *)
Inductive StatusFlag : Set :=
| CARRY | ZERO | INTERRUPT | DECIMAL | BREAK | UNUSED | INT_OVERFLOW
| NEGATIVE.

Definition flag_bit (f : StatusFlag) : Z :=
  match f with
  | CARRY => 0 | ZERO => 1 | INTERRUPT => 2 | DECIMAL => 3 | BREAK => 4
  | UNUSED => 5 | INT_OVERFLOW => 6 | NEGATIVE => 7
  end.

(** [static_cast<byte>(f)], that is [1 << n]. *)
Definition flag_value (f : StatusFlag) : Z := Z.shiftl 1 (flag_bit f).

(** The data members of [class CPU]; [m_ProcStatus] is the [value] of
    the [Status] union. *)
Record t := mk {
  m_PC : Z;
  m_SP : Z;
  m_Acc : Z;
  m_X : Z;
  m_Y : Z;
  m_ProcStatus : Z;
  m_Bus : option IODevice;
  m_CyclesRem : Z;
  m_CyclesExecuted : Z;
  m_WasSupplied : bool;
  m_SuppliedValue : Z
}.

(** [CPU::CPU(ioptr bus)] with the default member initializers. *)
Definition new (bus : option IODevice) : t :=
  mk 0 0 0 0 0 0 bus 0 0 false 0.

(** *** The state monad of the member functions *)

Definition M (A : Type) : Type := t -> A * t.

Definition ret {A} (x : A) : M A := fun s => (x, s).

Definition bind {A B} (m : M A) (k : A -> M B) : M B :=
  fun s => let r := m s in k (fst r) (snd r).

Definition get {A} (field : t -> A) : M A := fun s => (field s, s).

Definition exec {A} (m : M A) (s : t) : t := snd (m s).
Definition eval {A} (m : M A) (s : t) : A := fst (m s).

Declare Scope cpu_scope.
Delimit Scope cpu_scope with cpu.
Notation "x <- m ;; k" := (bind m (fun x => k))
  (at level 100, m at next level, k at level 200, right associativity)
  : cpu_scope.
Notation "m ;; k" := (bind m (fun _ => k))
  (at level 100, k at level 200, right associativity) : cpu_scope.
Local Open Scope cpu_scope.

(** Assignments to the members. *)
Definition set_PC (v : Z) : M unit := fun s =>
  (tt, mk v (m_SP s) (m_Acc s) (m_X s) (m_Y s) (m_ProcStatus s) (m_Bus s)
          (m_CyclesRem s) (m_CyclesExecuted s) (m_WasSupplied s)
          (m_SuppliedValue s)).
Definition set_SP (v : Z) : M unit := fun s =>
  (tt, mk (m_PC s) v (m_Acc s) (m_X s) (m_Y s) (m_ProcStatus s) (m_Bus s)
          (m_CyclesRem s) (m_CyclesExecuted s) (m_WasSupplied s)
          (m_SuppliedValue s)).
Definition set_Acc (v : Z) : M unit := fun s =>
  (tt, mk (m_PC s) (m_SP s) v (m_X s) (m_Y s) (m_ProcStatus s) (m_Bus s)
          (m_CyclesRem s) (m_CyclesExecuted s) (m_WasSupplied s)
          (m_SuppliedValue s)).
Definition set_X (v : Z) : M unit := fun s =>
  (tt, mk (m_PC s) (m_SP s) (m_Acc s) v (m_Y s) (m_ProcStatus s) (m_Bus s)
          (m_CyclesRem s) (m_CyclesExecuted s) (m_WasSupplied s)
          (m_SuppliedValue s)).
Definition set_Y (v : Z) : M unit := fun s =>
  (tt, mk (m_PC s) (m_SP s) (m_Acc s) (m_X s) v (m_ProcStatus s) (m_Bus s)
          (m_CyclesRem s) (m_CyclesExecuted s) (m_WasSupplied s)
          (m_SuppliedValue s)).
Definition set_ProcStatus (v : Z) : M unit := fun s =>
  (tt, mk (m_PC s) (m_SP s) (m_Acc s) (m_X s) (m_Y s) v (m_Bus s)
          (m_CyclesRem s) (m_CyclesExecuted s) (m_WasSupplied s)
          (m_SuppliedValue s)).
Definition set_Bus (v : option IODevice) : M unit := fun s =>
  (tt, mk (m_PC s) (m_SP s) (m_Acc s) (m_X s) (m_Y s) (m_ProcStatus s) v
          (m_CyclesRem s) (m_CyclesExecuted s) (m_WasSupplied s)
          (m_SuppliedValue s)).
Definition set_CyclesRem (v : Z) : M unit := fun s =>
  (tt, mk (m_PC s) (m_SP s) (m_Acc s) (m_X s) (m_Y s) (m_ProcStatus s)
          (m_Bus s) v (m_CyclesExecuted s) (m_WasSupplied s)
          (m_SuppliedValue s)).
Definition set_CyclesExecuted (v : Z) : M unit := fun s =>
  (tt, mk (m_PC s) (m_SP s) (m_Acc s) (m_X s) (m_Y s) (m_ProcStatus s)
          (m_Bus s) (m_CyclesRem s) v (m_WasSupplied s)
          (m_SuppliedValue s)).

(** [m_PC++] *)
Definition PC_increment : M unit :=
  pc <- get m_PC ;; set_PC (to_word (pc + 1)).

(** *** Status flags (cpu.h) *)

Definition GetStatusFlag (f : StatusFlag) : M Z := fun s =>
  (if nonzero (Z.land (m_ProcStatus s) (flag_value f)) then 1 else 0, s).

Definition HasStatusFlag (f : StatusFlag) : M bool := fun s =>
  (nonzero (Z.land (m_ProcStatus s) (flag_value f)), s).

Definition SetStatusFlag (f : StatusFlag) (v : bool) : M unit :=
  p <- get m_ProcStatus ;;
  if v then set_ProcStatus (to_byte (Z.lor p (flag_value f)))
  else set_ProcStatus (to_byte (Z.land p (Z.lnot (flag_value f)))).

Definition ClearSupplied : M unit := fun s =>
  (tt, mk (m_PC s) (m_SP s) (m_Acc s) (m_X s) (m_Y s) (m_ProcStatus s)
          (m_Bus s) (m_CyclesRem s) (m_CyclesExecuted s) false 0).

Definition SetSupplied (value : Z) : M unit := fun s =>
  (tt, mk (m_PC s) (m_SP s) (m_Acc s) (m_X s) (m_Y s) (m_ProcStatus s)
          (m_Bus s) (m_CyclesRem s) (m_CyclesExecuted s) true
          (to_byte value)).

(** *** Bus access (cpu.cpp) *)

Definition ReadByte (addr : address.t) : M Z := fun s =>
  (match m_Bus s with
   | Some bus => IODevice.ReadByte bus addr
   | None => 0
   end, s).

Definition ReadWord (addr : address.t) : M Z := fun s =>
  (match m_Bus s with
   | Some bus => IODevice.ReadWord bus addr
   | None => 0
   end, s).

Definition WriteByte (addr : address.t) (data : Z) : M unit :=
  bus <- get m_Bus ;;
  match bus with
  | Some b => set_Bus (Some (IODevice.WriteByte b addr data))
  | None => ret tt
  end.

Definition FetchData (addr : address.t) : M Z :=
  supplied <- get m_WasSupplied ;;
  if supplied then get m_SuppliedValue else ReadByte addr.

Definition PushToStack (data : Z) : M unit :=
  sp <- get m_SP ;;
  let pointer := address.of_int (ADDRESS_STACK + sp) in
  set_SP (to_byte (sp - 1)) ;;
  WriteByte pointer data.

Definition PullFromStack : M Z :=
  sp <- get m_SP ;;
  set_SP (to_byte (sp + 1)) ;;
  sp <- get m_SP ;;
  let pointer := address.of_int (ADDRESS_STACK + sp) in
  ReadByte pointer.

(** *** Addressing modes (cpu_addressing.cpp)

    Each [Addr_*] returns the effective address together with the value
    it assigns to its [outCycles] reference parameter. *)

Definition Addr_ABS : M (address.t * Z) :=
  pc <- get m_PC ;;
  low <- ReadByte (address.of_int pc) ;;
  PC_increment ;;
  pc <- get m_PC ;;
  high <- ReadByte (address.of_int pc) ;;
  PC_increment ;;
  let addr := address.of_int (MAKE_WORD low high) in
  ret (addr, 3).

Definition Addr_ABX : M (address.t * Z) :=
  pc <- get m_PC ;;
  low <- ReadByte (address.of_int pc) ;;
  PC_increment ;;
  pc <- get m_PC ;;
  high <- ReadByte (address.of_int pc) ;;
  PC_increment ;;
  x <- get m_X ;;
  let addr := address.of_int (MAKE_WORD low high + x) in
  if negb (address.page addr =? high) then ret (addr, 4)
  else ret (addr, 3).

Definition Addr_ABY : M (address.t * Z) :=
  pc <- get m_PC ;;
  low <- ReadByte (address.of_int pc) ;;
  PC_increment ;;
  pc <- get m_PC ;;
  high <- ReadByte (address.of_int pc) ;;
  PC_increment ;;
  y <- get m_Y ;;
  let addr := address.of_int (MAKE_WORD low high + y) in
  if negb (address.page addr =? high) then ret (addr, 4)
  else ret (addr, 3).

Definition Addr_ACC : M (address.t * Z) :=
  acc <- get m_Acc ;;
  SetSupplied acc ;;
  pc <- get m_PC ;;
  ret (address.of_int pc, 1).

Definition Addr_IMM : M (address.t * Z) :=
  pc <- get m_PC ;;
  PC_increment ;;
  let addr := address.of_int pc in
  ret (addr, 1).

Definition Addr_IMP : M (address.t * Z) :=
  acc <- get m_Acc ;;
  SetSupplied acc ;;
  ret (address.of_int 0, 1).

Definition Addr_IND : M (address.t * Z) :=
  pc <- get m_PC ;;
  low <- ReadByte (address.of_int pc) ;;
  PC_increment ;;
  pc <- get m_PC ;;
  high <- ReadByte (address.of_int pc) ;;
  PC_increment ;;
  let pointer := address.of_int (MAKE_WORD low high) in
  low <- ReadByte pointer ;;
  high <- (if address.record pointer =? 0xFF
           then ReadByte (address.of_int (Z.land (address.value pointer) 0xFF00))
           else ReadByte (address.of_int (address.value pointer + 1))) ;;
  ret (address.of_int (MAKE_WORD low high), 4).

Definition Addr_INX : M (address.t * Z) :=
  pc <- get m_PC ;;
  b <- ReadByte (address.of_int pc) ;;
  let table := to_word b in
  PC_increment ;;
  x <- get m_X ;;
  let xword := to_word x in
  low <- ReadByte (address.of_int (Z.land (table + xword) 0x00FF)) ;;
  high <- ReadByte (address.of_int (Z.land (table + xword + 1) 0xFF00)) ;;
  ret (address.of_int (MAKE_WORD low high), 5).

Definition Addr_INY : M (address.t * Z) :=
  pc <- get m_PC ;;
  b <- ReadByte (address.of_int pc) ;;
  let table := to_word b in
  PC_increment ;;
  low <- ReadByte (address.of_int (Z.land table 0x00FF)) ;;
  high <- ReadByte (address.of_int (Z.land (table + 1) 0x00FF)) ;;
  y <- get m_Y ;;
  let addr := address.of_int (MAKE_WORD low high + y) in
  if negb (address.page addr =? high) then ret (addr, 5)
  else ret (addr, 4).

(** [rel] is a [byte], so [rel |= 0xFF00] stores the low byte of
    [rel | 0xFF00] back into it. *)
Definition Addr_REL : M (address.t * Z) :=
  pc <- get m_PC ;;
  rel <- ReadByte (address.of_int pc) ;;
  PC_increment ;;
  let rel := if nonzero (Z.land rel 0x80)
             then to_byte (Z.lor rel 0xFF00) else rel in
  ret (address.of_int rel, 1).

Definition Addr_ZPG : M (address.t * Z) :=
  pc <- get m_PC ;;
  b <- ReadByte (address.of_int pc) ;;
  let addr := address.of_int b in
  PC_increment ;;
  ret (addr, 2).

Definition Addr_ZPX : M (address.t * Z) :=
  pc <- get m_PC ;;
  low <- ReadByte (address.of_int pc) ;;
  PC_increment ;;
  x <- get m_X ;;
  let addr := address.of_int (Z.land (low + x) 0x00FF) in
  ret (addr, 3).

Definition Addr_ZPY : M (address.t * Z) :=
  pc <- get m_PC ;;
  low <- ReadByte (address.of_int pc) ;;
  PC_increment ;;
  y <- get m_Y ;;
  let addr := address.of_int (Z.land (low + y) 0x00FF) in
  ret (addr, 3).

(** [outCycles] is the value the caller's variable holds on entry; the
    ILL case leaves it as it is and returns address 0. *)
Definition ExecuteAddressing (addrMode : AddressMode.t) (outCycles : Z)
  : M (address.t * Z) :=
  ClearSupplied ;;
  match addrMode with
  | AddressMode.ILL => ret (address.of_int 0, outCycles)
  | AddressMode.ABS => Addr_ABS
  | AddressMode.ABX => Addr_ABX
  | AddressMode.ABY => Addr_ABY
  | AddressMode.ACC => Addr_ACC
  | AddressMode.IMM => Addr_IMM
  | AddressMode.IMP => Addr_IMP
  | AddressMode.IND => Addr_IND
  | AddressMode.INX => Addr_INX
  | AddressMode.INY => Addr_INY
  | AddressMode.REL => Addr_REL
  | AddressMode.ZPG => Addr_ZPG
  | AddressMode.ZPX => Addr_ZPX
  | AddressMode.ZPY => Addr_ZPY
  end.

(** *** Instructions (cpu_instructions.cpp)

    Every handler returns its cycle count.  Arithmetic on [int]
    temporaries is exact: none of the values involved leaves the range
    of a 32-bit [int].  [/] on [int] truncates towards zero ([Z.quot]). *)

Definition Branch (addr : address.t) : M Z :=
  pc <- get m_PC ;;
  let nextPC := address.of_int (pc + address.value addr) in
  let cycles :=
    if negb (address.page nextPC =? Z.land pc 0xFF00) then 3 else 2 in
  set_PC (address.value nextPC) ;;
  ret cycles.

Definition Ins_ADC (addr : address.t) : M Z :=
  decimal <- HasStatusFlag DECIMAL ;;
  result <-
    (if decimal then
       acc <- get m_Acc ;;
       let acc_i := Z.land acc 0xF + Z.land (Z.shiftr acc 4) 0xF * 10 in
       val <- FetchData addr ;;
       let val_i := Z.land val 0xF + Z.land (Z.shiftr val 4) 0xF * 10 in
       c <- GetStatusFlag CARRY ;;
       let temp := acc_i + val_i + c in
       let hundreds := Z.quot temp 100 in
       let tens := Z.quot (temp - hundreds * 100) 10 in
       let ones := temp - hundreds * 100 - tens * 10 in
       let result := to_word (Z.lor (Z.shiftl tens 4) ones) in
       SetStatusFlag CARRY (0x99 <? result) ;;
       ret result
     else
       c <- GetStatusFlag CARRY ;;
       let carry := to_word c in
       a <- get m_Acc ;;
       let acc := to_word a in
       v <- FetchData addr ;;
       let val := to_word v in
       let result := to_word (acc + val + carry) in
       SetStatusFlag CARRY (0xFF <? result) ;;
       SetStatusFlag INT_OVERFLOW
         (nonzero (Z.land (Z.land (Z.lnot (Z.lxor acc val))
                                  (Z.lxor acc result)) 0x0080)) ;;
       ret result) ;;
  SetStatusFlag ZERO (GET_LOW_BYTE result =? 0) ;;
  SetStatusFlag NEGATIVE (nonzero (IS_NEGATIVE result)) ;;
  set_Acc (to_byte (GET_LOW_BYTE result)) ;;
  ret 1.

Definition Ins_AND (addr : address.t) : M Z :=
  value <- FetchData addr ;;
  acc <- get m_Acc ;;
  set_Acc (to_byte (Z.land acc value)) ;;
  acc <- get m_Acc ;;
  SetStatusFlag ZERO (acc =? 0) ;;
  SetStatusFlag NEGATIVE (nonzero (IS_NEGATIVE acc)) ;;
  ret 1.

Definition Ins_ASL (addr : address.t) : M Z :=
  value <- FetchData addr ;;
  let result := to_word (Z.shiftl (to_word value) 1) in
  SetStatusFlag CARRY (0xFF <? result) ;;
  SetStatusFlag ZERO (GET_LOW_BYTE result =? 0) ;;
  SetStatusFlag NEGATIVE (nonzero (IS_NEGATIVE result)) ;;
  set_Acc (to_byte (Z.land result 0x00FF)) ;;
  ret 1.

Definition Ins_BCC (addr : address.t) : M Z :=
  f <- HasStatusFlag CARRY ;;
  if Bool.eqb f false then Branch addr else ret 1.

Definition Ins_BCS (addr : address.t) : M Z :=
  f <- HasStatusFlag CARRY ;;
  if Bool.eqb f true then Branch addr else ret 1.

Definition Ins_BEQ (addr : address.t) : M Z :=
  f <- HasStatusFlag ZERO ;;
  if Bool.eqb f true then Branch addr else ret 1.

Definition Ins_BIT (addr : address.t) : M Z :=
  value <- FetchData addr ;;
  acc <- get m_Acc ;;
  let result := to_byte (Z.land acc value) in
  SetStatusFlag ZERO (result =? 0) ;;
  SetStatusFlag INT_OVERFLOW (nonzero (Z.land value 0x40)) ;;
  SetStatusFlag NEGATIVE (nonzero (IS_NEGATIVE value)) ;;
  ret 1.

Definition Ins_BMI (addr : address.t) : M Z :=
  f <- HasStatusFlag NEGATIVE ;;
  if Bool.eqb f true then Branch addr else ret 1.

Definition Ins_BNE (addr : address.t) : M Z :=
  f <- HasStatusFlag ZERO ;;
  if Bool.eqb f false then Branch addr else ret 1.

Definition Ins_BPL (addr : address.t) : M Z :=
  f <- HasStatusFlag NEGATIVE ;;
  if Bool.eqb f false then Branch addr else ret 1.

Definition Ins_BRK (addr : address.t) : M Z :=
  PC_increment ;;
  pc <- get m_PC ;;
  PushToStack (GET_HIGH_BYTE pc) ;;
  pc <- get m_PC ;;
  PushToStack (GET_LOW_BYTE pc) ;;
  p <- get m_ProcStatus ;;
  PushToStack p ;;
  low <- ReadByte (address.of_int 0xFFFE) ;;
  high <- ReadByte (address.of_int 0xFFFF) ;;
  set_PC (to_word (MAKE_WORD low high)) ;;
  SetStatusFlag BREAK true ;;
  ret 6.

Definition Ins_BVC (addr : address.t) : M Z :=
  f <- HasStatusFlag INT_OVERFLOW ;;
  if Bool.eqb f false then Branch addr else ret 1.

Definition Ins_BVS (addr : address.t) : M Z :=
  f <- HasStatusFlag INT_OVERFLOW ;;
  if Bool.eqb f true then Branch addr else ret 1.

Definition Ins_CLC (addr : address.t) : M Z :=
  SetStatusFlag CARRY false ;;
  ret 1.

Definition Ins_CLD (addr : address.t) : M Z :=
  SetStatusFlag DECIMAL false ;;
  ret 1.

Definition Ins_CLI (addr : address.t) : M Z :=
  SetStatusFlag INTERRUPT false ;;
  ret 1.

Definition Ins_CLV (addr : address.t) : M Z :=
  SetStatusFlag INT_OVERFLOW false ;;
  ret 1.

Definition Ins_CMP (addr : address.t) : M Z :=
  value <- FetchData addr ;;
  r <- get m_Acc ;;
  let result := to_byte (r - value) in
  SetStatusFlag CARRY (value <=? r) ;;
  SetStatusFlag ZERO (result =? 0) ;;
  SetStatusFlag NEGATIVE (nonzero (IS_NEGATIVE result)) ;;
  ret 1.

Definition Ins_CPX (addr : address.t) : M Z :=
  value <- FetchData addr ;;
  r <- get m_X ;;
  let result := to_byte (r - value) in
  SetStatusFlag CARRY (value <=? r) ;;
  SetStatusFlag ZERO (result =? 0) ;;
  SetStatusFlag NEGATIVE (nonzero (IS_NEGATIVE result)) ;;
  ret 1.

Definition Ins_CPY (addr : address.t) : M Z :=
  value <- FetchData addr ;;
  r <- get m_Y ;;
  let result := to_byte (r - value) in
  SetStatusFlag CARRY (value <=? r) ;;
  SetStatusFlag ZERO (result =? 0) ;;
  SetStatusFlag NEGATIVE (nonzero (IS_NEGATIVE result)) ;;
  ret 1.

Definition Ins_DEC (addr : address.t) : M Z :=
  value <- FetchData addr ;;
  let value := to_byte (value - 1) in
  WriteByte addr value ;;
  SetStatusFlag ZERO (value =? 0) ;;
  SetStatusFlag NEGATIVE (nonzero (IS_NEGATIVE value)) ;;
  ret 3.

Definition Ins_DEX (addr : address.t) : M Z :=
  r <- get m_X ;;
  set_X (to_byte (r - 1)) ;;
  r <- get m_X ;;
  SetStatusFlag ZERO (r =? 0) ;;
  SetStatusFlag NEGATIVE (nonzero (IS_NEGATIVE r)) ;;
  ret 1.

Definition Ins_DEY (addr : address.t) : M Z :=
  r <- get m_Y ;;
  set_Y (to_byte (r - 1)) ;;
  r <- get m_Y ;;
  SetStatusFlag ZERO (r =? 0) ;;
  SetStatusFlag NEGATIVE (nonzero (IS_NEGATIVE r)) ;;
  ret 1.

Definition Ins_EOR (addr : address.t) : M Z :=
  value <- FetchData addr ;;
  acc <- get m_Acc ;;
  set_Acc (to_byte (Z.lxor acc value)) ;;
  acc <- get m_Acc ;;
  SetStatusFlag ZERO (acc =? 0) ;;
  SetStatusFlag NEGATIVE (nonzero (IS_NEGATIVE acc)) ;;
  ret 1.

Definition Ins_INC (addr : address.t) : M Z :=
  value <- FetchData addr ;;
  let value := to_byte (value + 1) in
  WriteByte addr value ;;
  SetStatusFlag ZERO (value =? 0) ;;
  SetStatusFlag NEGATIVE (nonzero (IS_NEGATIVE value)) ;;
  ret 3.

Definition Ins_INX (addr : address.t) : M Z :=
  r <- get m_X ;;
  set_X (to_byte (r + 1)) ;;
  r <- get m_X ;;
  SetStatusFlag ZERO (r =? 0) ;;
  SetStatusFlag NEGATIVE (nonzero (IS_NEGATIVE r)) ;;
  ret 1.

Definition Ins_INY (addr : address.t) : M Z :=
  r <- get m_Y ;;
  set_Y (to_byte (r + 1)) ;;
  r <- get m_Y ;;
  SetStatusFlag ZERO (r =? 0) ;;
  SetStatusFlag NEGATIVE (nonzero (IS_NEGATIVE r)) ;;
  ret 1.

Definition Ins_JMP (addr : address.t) : M Z :=
  set_PC (address.value addr) ;;
  ret 1.

Definition Ins_JSR (addr : address.t) : M Z :=
  pc <- get m_PC ;;
  set_PC (to_word (pc - 1)) ;;
  pc <- get m_PC ;;
  PushToStack (GET_HIGH_BYTE pc) ;;
  pc <- get m_PC ;;
  PushToStack (GET_LOW_BYTE pc) ;;
  set_PC (address.value addr) ;;
  ret 3.

Definition Ins_LDA (addr : address.t) : M Z :=
  value <- FetchData addr ;;
  set_Acc (to_byte value) ;;
  r <- get m_Acc ;;
  SetStatusFlag ZERO (r =? 0) ;;
  SetStatusFlag NEGATIVE (nonzero (IS_NEGATIVE r)) ;;
  ret 1.

Definition Ins_LDX (addr : address.t) : M Z :=
  value <- FetchData addr ;;
  set_X (to_byte value) ;;
  r <- get m_X ;;
  SetStatusFlag ZERO (r =? 0) ;;
  SetStatusFlag NEGATIVE (nonzero (IS_NEGATIVE r)) ;;
  ret 1.

Definition Ins_LDY (addr : address.t) : M Z :=
  value <- FetchData addr ;;
  set_Y (to_byte value) ;;
  r <- get m_Y ;;
  SetStatusFlag ZERO (r =? 0) ;;
  SetStatusFlag NEGATIVE (nonzero (IS_NEGATIVE r)) ;;
  ret 1.

Definition Ins_LSR (addr : address.t) : M Z :=
  value <- FetchData addr ;;
  let result := to_byte (Z.shiftr value 1) in
  SetStatusFlag CARRY (nonzero (Z.land value 0x01)) ;;
  SetStatusFlag ZERO (result =? 0) ;;
  SetStatusFlag NEGATIVE (nonzero (IS_NEGATIVE result)) ;;
  set_Acc result ;;
  ret 1.

Definition Ins_NOP (addr : address.t) : M Z :=
  ret 1.

Definition Ins_ORA (addr : address.t) : M Z :=
  value <- FetchData addr ;;
  acc <- get m_Acc ;;
  set_Acc (to_byte (Z.lor acc value)) ;;
  acc <- get m_Acc ;;
  SetStatusFlag ZERO (acc =? 0) ;;
  SetStatusFlag NEGATIVE (nonzero (IS_NEGATIVE acc)) ;;
  ret 1.

Definition Ins_PHA (addr : address.t) : M Z :=
  acc <- get m_Acc ;;
  PushToStack acc ;;
  ret 2.

Definition Ins_PHP (addr : address.t) : M Z :=
  p <- get m_ProcStatus ;;
  PushToStack p ;;
  ret 2.

Definition Ins_PLA (addr : address.t) : M Z :=
  v <- PullFromStack ;;
  set_Acc (to_byte v) ;;
  acc <- get m_Acc ;;
  SetStatusFlag ZERO (acc =? 0) ;;
  SetStatusFlag NEGATIVE (nonzero (IS_NEGATIVE acc)) ;;
  ret 3.

Definition Ins_PLP (addr : address.t) : M Z :=
  v <- PullFromStack ;;
  set_ProcStatus (to_byte v) ;;
  SetStatusFlag UNUSED true ;;
  ret 3.

Definition Ins_ROL (addr : address.t) : M Z :=
  value <- FetchData addr ;;
  c <- GetStatusFlag CARRY ;;
  let result := to_byte (Z.lor (Z.shiftl value 1) c) in
  SetStatusFlag CARRY (nonzero (Z.land value 0x80)) ;;
  SetStatusFlag ZERO (result =? 0) ;;
  SetStatusFlag NEGATIVE (nonzero (IS_NEGATIVE result)) ;;
  supplied <- get m_WasSupplied ;;
  if supplied then set_Acc result ;; ret 1
  else WriteByte addr result ;; ret 2.

Definition Ins_ROR (addr : address.t) : M Z :=
  value <- FetchData addr ;;
  c <- GetStatusFlag CARRY ;;
  let result := to_byte (Z.lor (Z.shiftr value 1) (Z.shiftl c 8)) in
  SetStatusFlag CARRY (nonzero (Z.land value 0x01)) ;;
  SetStatusFlag ZERO (result =? 0) ;;
  SetStatusFlag NEGATIVE (nonzero (IS_NEGATIVE result)) ;;
  supplied <- get m_WasSupplied ;;
  if supplied then set_Acc result ;; ret 1
  else WriteByte addr result ;; ret 2.

Definition Ins_RTI (addr : address.t) : M Z :=
  v <- PullFromStack ;;
  set_ProcStatus (to_byte v) ;;
  SetStatusFlag UNUSED true ;;
  low <- PullFromStack ;;
  high <- PullFromStack ;;
  set_PC (to_word (MAKE_WORD low high)) ;;
  ret 5.

Definition Ins_RTS (addr : address.t) : M Z :=
  low <- PullFromStack ;;
  high <- PullFromStack ;;
  set_PC (to_word (MAKE_WORD low high + 1)) ;;
  ret 5.

Definition Ins_SBC (addr : address.t) : M Z :=
  decimal <- HasStatusFlag DECIMAL ;;
  result <-
    (if decimal then
       acc <- get m_Acc ;;
       let acc_i := Z.land acc 0xF + Z.land (Z.shiftr acc 4) 0xF * 10 in
       val <- FetchData addr ;;
       let val_i := Z.land val 0xF + Z.land (Z.shiftr val 4) 0xF * 10 in
       c <- HasStatusFlag CARRY ;;
       let temp := acc_i - val_i - (if c then 0 else 1) in
       let temp := if temp <? 0 then temp + 2 else temp in
       let hundreds := Z.abs (Z.quot temp 100) in
       let tens := Z.quot (Z.abs temp - hundreds * 100) 10 in
       let ones := Z.abs temp - hundreds * 100 - tens * 10 in
       let tens := if temp <? 0 then 9 - tens else tens in
       let ones := if temp <? 0 then 9 - ones else ones in
       let result := to_word (Z.lor (Z.shiftl tens 4) ones) in
       SetStatusFlag CARRY (0 <? temp) ;;
       ret result
     else
       c <- GetStatusFlag CARRY ;;
       let carry := to_word c in
       a <- get m_Acc ;;
       let acc := to_word a in
       v <- FetchData addr ;;
       let val := to_word v in
       let result := to_word (acc + Z.lxor val 0xFF + carry) in
       let result :=
         if negb (nonzero (Z.land result 0xFF00)) then to_word (result + 1)
         else result in
       SetStatusFlag CARRY (result <? 0xFF) ;;
       SetStatusFlag INT_OVERFLOW
         (nonzero (Z.land (Z.land (Z.lnot (Z.lxor acc val))
                                  (Z.lxor acc result)) 0x0080)) ;;
       ret result) ;;
  SetStatusFlag ZERO (GET_LOW_BYTE result =? 0) ;;
  SetStatusFlag NEGATIVE (nonzero (IS_NEGATIVE result)) ;;
  set_Acc (to_byte (GET_LOW_BYTE result)) ;;
  ret 1.

Definition Ins_SEC (addr : address.t) : M Z :=
  SetStatusFlag CARRY true ;;
  ret 1.

Definition Ins_SED (addr : address.t) : M Z :=
  SetStatusFlag DECIMAL true ;;
  ret 1.

Definition Ins_SEI (addr : address.t) : M Z :=
  SetStatusFlag INTERRUPT true ;;
  ret 1.

Definition Ins_STA (addr : address.t) : M Z :=
  r <- get m_Acc ;;
  WriteByte addr r ;;
  ret 1.

Definition Ins_STX (addr : address.t) : M Z :=
  r <- get m_X ;;
  WriteByte addr r ;;
  ret 1.

Definition Ins_STY (addr : address.t) : M Z :=
  r <- get m_Y ;;
  WriteByte addr r ;;
  ret 1.

Definition Ins_TAX (addr : address.t) : M Z :=
  v <- get m_Acc ;;
  set_X (to_byte v) ;;
  r <- get m_X ;;
  SetStatusFlag ZERO (r =? 0) ;;
  SetStatusFlag NEGATIVE (nonzero (IS_NEGATIVE r)) ;;
  ret 1.

Definition Ins_TAY (addr : address.t) : M Z :=
  v <- get m_Acc ;;
  set_Y (to_byte v) ;;
  r <- get m_Y ;;
  SetStatusFlag ZERO (r =? 0) ;;
  SetStatusFlag NEGATIVE (nonzero (IS_NEGATIVE r)) ;;
  ret 1.

Definition Ins_TSX (addr : address.t) : M Z :=
  v <- get m_SP ;;
  set_X (to_byte v) ;;
  r <- get m_X ;;
  SetStatusFlag ZERO (r =? 0) ;;
  SetStatusFlag NEGATIVE (nonzero (IS_NEGATIVE r)) ;;
  ret 1.

Definition Ins_TXA (addr : address.t) : M Z :=
  v <- get m_X ;;
  set_Acc (to_byte v) ;;
  r <- get m_Acc ;;
  SetStatusFlag ZERO (r =? 0) ;;
  SetStatusFlag NEGATIVE (nonzero (IS_NEGATIVE r)) ;;
  ret 1.

Definition Ins_TXS (addr : address.t) : M Z :=
  v <- get m_X ;;
  set_SP (to_byte v) ;;
  ret 1.

Definition Ins_TYA (addr : address.t) : M Z :=
  v <- get m_Y ;;
  set_Acc (to_byte v) ;;
  r <- get m_Acc ;;
  SetStatusFlag ZERO (r =? 0) ;;
  SetStatusFlag NEGATIVE (nonzero (IS_NEGATIVE r)) ;;
  ret 1.

(** The ILL case only logs; control then reaches [return 0]. *)
Definition ExecuteInstruction (instr : Instruction.t) (addr : address.t)
  : M Z :=
  match instr with
  | Instruction.ILL => ret 0
  | Instruction.ADC => Ins_ADC addr
  | Instruction.AND => Ins_AND addr
  | Instruction.ASL => Ins_ASL addr
  | Instruction.BCC => Ins_BCC addr
  | Instruction.BCS => Ins_BCS addr
  | Instruction.BEQ => Ins_BEQ addr
  | Instruction.BIT => Ins_BIT addr
  | Instruction.BMI => Ins_BMI addr
  | Instruction.BNE => Ins_BNE addr
  | Instruction.BPL => Ins_BPL addr
  | Instruction.BRK => Ins_BRK addr
  | Instruction.BVC => Ins_BVC addr
  | Instruction.BVS => Ins_BVS addr
  | Instruction.CLC => Ins_CLC addr
  | Instruction.CLD => Ins_CLD addr
  | Instruction.CLI => Ins_CLI addr
  | Instruction.CLV => Ins_CLV addr
  | Instruction.CMP => Ins_CMP addr
  | Instruction.CPX => Ins_CPX addr
  | Instruction.CPY => Ins_CPY addr
  | Instruction.DEC => Ins_DEC addr
  | Instruction.DEX => Ins_DEX addr
  | Instruction.DEY => Ins_DEY addr
  | Instruction.EOR => Ins_EOR addr
  | Instruction.INC => Ins_INC addr
  | Instruction.INX => Ins_INX addr
  | Instruction.INY => Ins_INY addr
  | Instruction.JMP => Ins_JMP addr
  | Instruction.JSR => Ins_JSR addr
  | Instruction.LDA => Ins_LDA addr
  | Instruction.LDX => Ins_LDX addr
  | Instruction.LDY => Ins_LDY addr
  | Instruction.LSR => Ins_LSR addr
  | Instruction.NOP => Ins_NOP addr
  | Instruction.ORA => Ins_ORA addr
  | Instruction.PHA => Ins_PHA addr
  | Instruction.PHP => Ins_PHP addr
  | Instruction.PLA => Ins_PLA addr
  | Instruction.PLP => Ins_PLP addr
  | Instruction.ROL => Ins_ROL addr
  | Instruction.ROR => Ins_ROR addr
  | Instruction.RTI => Ins_RTI addr
  | Instruction.RTS => Ins_RTS addr
  | Instruction.SBC => Ins_SBC addr
  | Instruction.SEC => Ins_SEC addr
  | Instruction.SED => Ins_SED addr
  | Instruction.SEI => Ins_SEI addr
  | Instruction.STA => Ins_STA addr
  | Instruction.STX => Ins_STX addr
  | Instruction.STY => Ins_STY addr
  | Instruction.TAX => Ins_TAX addr
  | Instruction.TAY => Ins_TAY addr
  | Instruction.TSX => Ins_TSX addr
  | Instruction.TXA => Ins_TXA addr
  | Instruction.TXS => Ins_TXS addr
  | Instruction.TYA => Ins_TYA addr
  end.

(** *** Reset, interrupts and the clock (cpu.cpp) *)

Definition Reset : M unit :=
  set_Acc 0 ;; set_X 0 ;; set_Y 0 ;;
  w <- ReadWord (address.of_int ADDRESS_RESET_VECTOR) ;;
  set_PC (to_word w) ;;
  set_SP 0xFD ;;
  set_ProcStatus (to_byte (Z.lor 0 (flag_value UNUSED))).

Definition IRQ : M unit :=
  masked <- HasStatusFlag INTERRUPT ;;
  if Bool.eqb masked true then ret tt
  else
    pc <- get m_PC ;;
    PushToStack (GET_HIGH_BYTE pc) ;;
    pc <- get m_PC ;;
    PushToStack (GET_LOW_BYTE pc) ;;
    SetStatusFlag BREAK false ;;
    SetStatusFlag INTERRUPT true ;;
    SetStatusFlag UNUSED true ;;
    p <- get m_ProcStatus ;;
    PushToStack p ;;
    w <- ReadWord (address.of_int ADDRESS_IRQ_VECTOR) ;;
    set_PC (to_word w) ;;
    rem <- get m_CyclesRem ;;
    set_CyclesRem (to_byte (rem + 7)).

Definition NMI : M unit :=
  pc <- get m_PC ;;
  PushToStack (GET_HIGH_BYTE pc) ;;
  pc <- get m_PC ;;
  PushToStack (GET_LOW_BYTE pc) ;;
  SetStatusFlag BREAK false ;;
  SetStatusFlag INTERRUPT true ;;
  SetStatusFlag UNUSED true ;;
  p <- get m_ProcStatus ;;
  PushToStack p ;;
  w <- ReadWord (address.of_int ADDRESS_NMI_VECTOR) ;;
  set_PC (to_word w) ;;
  rem <- get m_CyclesRem ;;
  set_CyclesRem (to_byte (rem + 8)).

Section Clock.
(** [InstructionDetails[opcode]] is an unchecked [std::array] access
    and the table has rows 0x00 to 0xFE only, so opcode 0xFF reads past
    its end.  What that read yields is not determined by the program;
    it is a parameter of [Tick].  An enumerator outside its enum takes
    the [default:] branch of both dispatchers, which acts as the ILL
    branch does, so ILL stands for it here. *)
Variable past_the_end : InstructionDetail.

Definition InstructionDetails_at (opcode : Z) : InstructionDetail :=
  match InstructionDetails !! Z.to_nat opcode with
  | Some detail => detail
  | None => past_the_end
  end.

Definition Tick : M bool :=
  ce <- get m_CyclesExecuted ;;
  set_CyclesExecuted ((ce + 1) mod 2 ^ 32) ;;
  rem <- get m_CyclesRem ;;
  if 0 <? rem then
    set_CyclesRem (to_byte (rem - 1)) ;;
    rem <- get m_CyclesRem ;;
    ret (0 <? rem)
  else
    pc <- get m_PC ;;
    opcode <- ReadByte (address.of_int pc) ;;
    PC_increment ;;
    let detail := InstructionDetails_at opcode in
    let countAddressing := 0 in
    a <- ExecuteAddressing (addressing detail) countAddressing ;;
    let addr := fst a in
    let countAddressing := snd a in
    countInstruction <- ExecuteInstruction (instruction detail) addr ;;
    rem <- get m_CyclesRem ;;
    set_CyclesRem (to_byte (rem + (countAddressing + countInstruction))) ;;
    SetStatusFlag UNUSED true ;;
    rem <- get m_CyclesRem ;;
    ret (0 <? rem).

(** The shell's [E] command, [while (cpu.Tick()) {}], cut off after
    [fuel] ticks. *)
Fixpoint Execute (fuel : nat) (s : t) : t :=
  match fuel with
  | O => s
  | S fuel' =>
      let r := Tick s in
      if fst r then Execute fuel' (snd r) else snd r
  end.

(** The CPU states that a sequence of [Tick], [IRQ] and [NMI] calls
    (and further resets) can produce after a [Reset]. *)
Inductive reachable : t -> Prop :=
| reachable_Reset (s : t) : reachable (exec Reset s)
| reachable_Tick (s : t) : reachable s -> reachable (exec Tick s)
| reachable_IRQ (s : t) : reachable s -> reachable (exec IRQ s)
| reachable_NMI (s : t) : reachable s -> reachable (exec NMI s).
End Clock.

End CPU.

(** ** program.cpp: the string helpers *)

(** Whether the character [c] occurs in [ws]. *)
Fixpoint occurs (c : Ascii.ascii) (ws : string) : bool :=
  match ws with
  | EmptyString => false
  | String c' ws' => Ascii.eqb c c' || occurs c ws'
  end.

(** [str.find_first_not_of(ws)]; [None] is [std::string::npos]. *)
Fixpoint find_first_not_of (str ws : string) : option nat :=
  match str with
  | EmptyString => None
  | String c str' =>
      if occurs c ws then S <$> find_first_not_of str' ws else Some 0%nat
  end.

(** [str.find_last_not_of(ws)] *)
Fixpoint find_last_not_of (str ws : string) : option nat :=
  match str with
  | EmptyString => None
  | String c str' =>
      match find_last_not_of str' ws with
      | Some i => Some (S i)
      | None => if occurs c ws then None else Some 0%nat
      end
  end.

(** [str.substr(pos, len)] for a position inside the string; the count is
    cut off at the end of the string. *)
Definition substr (str : string) (pos len : nat) : string :=
  String.substring pos len str.

(** [str.substr(pos)] *)
Definition substr_from (str : string) (pos : nat) : string :=
  String.substring pos (String.length str - pos) str.

(** The default argument [ws = " \t"]. *)
Definition default_ws : string :=
  String (Ascii.ascii_of_nat 32) (String (Ascii.ascii_of_nat 9) EmptyString).

Definition TrimStart (str ws : string) : string :=
  match find_first_not_of str ws with
  | Some loc => substr_from str loc
  | None => str
  end.

Definition TrimEnd (str ws : string) : string :=
  match find_last_not_of str ws with
  | Some loc => substr str 0 loc
  | None => str
  end.

(** When [start] is not [npos] the string has a character outside [ws],
    so [find_last_not_of] finds one too; the last branch is not reached. *)
Definition TrimSpace (str ws : string) : string :=
  match find_first_not_of str ws with
  | None => EmptyString
  | Some start =>
      match find_last_not_of str ws with
      | Some last => substr str start (last - start + 1)
      | None => substr_from str start
      end
  end.

(** ** program.h, program.cpp: the assembler *)

Module Program.

(** [struct Line]; the [raw] and [comment] strings, which the assembler
    always leaves empty, are omitted. *)
Record Line : Set := mkLine {
  lineNumber : Z;
  pcOffset : Z;
  opCode : Z;
  instruction : Instruction.t;
  addressing : AddressMode.t;
  value : Z
}.

(** The members of [Program] that [parseInstruction] writes, with the
    [setStartingPC] local of [CompileString]. *)
Record t := mk {
  m_StartingPCOffset : Z;
  m_SourceCode : list Line;
  m_ByteCode : list Z;
  setStartingPC : bool
}.

(** [Program() = default] at the start of [CompileString]. *)
Definition new : t := mk 0x0200 [] [] false.

(** The local [startingPCOffset] of [CompileString]: initialised to 0x0200
    and assigned nowhere ([parseInstruction] assigns the member
    [m_StartingPCOffset], not this variable). *)
Definition startingPCOffset : Z := 0x0200.

(** The condition of the "Branching optimization" block. *)
Definition is_branch (instruction : Instruction.t) : bool :=
  match instruction with
  | Instruction.BCC | Instruction.BCS | Instruction.BEQ | Instruction.BMI
  | Instruction.BNE | Instruction.BPL | Instruction.BVC | Instruction.BVS =>
      true
  | _ => false
  end.

(** The "Branching optimization" block of the [parseInstruction] lambda.
    [addressing] and [value] are what the operand text was classified as
    just above it, [instrPC] is the location of the instruction. *)
Definition branchOptimization (instruction : Instruction.t) (instrPC : Z)
  (addressing : AddressMode.t) (value : Z) : AddressMode.t * Z :=
  if is_branch instruction then
    let diff := startingPCOffset - instrPC in
    if (-126 <=? diff) && (diff <=? 129) then
      let rel :=
        to_byte (if diff <? 0 then Z.land (256 + diff) 0xFF
                 else Z.land diff 0x7F) in
      (AddressMode.REL, to_word (rel - 2))
    else (addressing, value)
  else (addressing, value).

(** The [parseInstruction] lambda.  Its parameter [str], the operand text,
    is represented by what the first half of the lambda classifies it as:
    [addressing] and [value].  [pcOffset] is the location counter on entry,
    which the lambda keeps as [instrPC]; the advance of the location
    counter past the operand is left to the caller. *)
Definition parseInstruction (lineNumber : Z) (instruction : Instruction.t)
  (pcOffset : Z) (addressing : AddressMode.t) (value : Z) (prog : t) : t :=
  let prog :=
    if negb (setStartingPC prog)
    then mk pcOffset (m_SourceCode prog) (m_ByteCode prog)
            (setStartingPC prog)
    else prog in
  let instrPC := pcOffset in
  let optimized := branchOptimization instruction instrPC addressing value in
  let addressing := fst optimized in
  let value := snd optimized in
  let '(row d_opCode d_instruction d_addressing _ _ _) :=
    FindInstructionDetail instruction addressing in
  if negb (Instruction.eqb d_instruction Instruction.ILL) then
    let line :=
      mkLine lineNumber instrPC d_opCode d_instruction d_addressing value in
    let operand :=
      if negb (AddressMode.eqb d_addressing AddressMode.IMP)
         && negb (AddressMode.eqb d_addressing AddressMode.ACC)
      then
        to_byte (GET_LOW_BYTE value)
        :: (if negb (GET_HIGH_BYTE value =? 0)
            then [to_byte (GET_HIGH_BYTE value)] else [])
      else [] in
    mk (m_StartingPCOffset prog)
       (m_SourceCode prog ++ [line])
       (m_ByteCode prog ++ to_byte d_opCode :: operand)
       true
  else prog.

End Program.

(** ** main.cpp: the set-up of the machine before the command loop. *)

(** A 64 KiB memory with the byte code at its starting offset and the
    reset vector pointing to it, a bus over that memory, a CPU on the bus,
    and a reset. *)
Definition boot (startingPCOffset : Z) (byteCode : list Z) : CPU.t :=
  let memory := Memory.Make (MAKE_KB 64) in
  let memory :=
    Memory.WriteBytes memory (address.of_int startingPCOffset) byteCode in
  let memory :=
    Memory.WriteWord memory (address.of_int ADDRESS_RESET_VECTOR)
      startingPCOffset in
  let bus := Bus.Make (Some (IOMemory memory)) in
  CPU.exec CPU.Reset (CPU.new (Some bus)).

(** [n] commands [E] in a row: [n] instructions run to completion. *)
Fixpoint run (past_the_end : InstructionDetail) (n : nat) (s : CPU.t)
  : CPU.t :=
  match n with
  | O => s
  | S n' => run past_the_end n' (CPU.Execute past_the_end 256 s)
  end.

(** The memory behind the CPU's bus, for reading results back. *)
Definition peek (s : CPU.t) (addr : Z) : Z :=
  CPU.eval (CPU.ReadByte (address.of_int addr)) s.

(** ** Predicates used in the statements below *)

(** Bit U, bit 5 of the processor status, is 1. *)
Definition U_set (s : CPU.t) : Prop :=
  Z.testbit (CPU.m_ProcStatus s) 5 = true.

(** Binary subtraction as the specification words it: the 16-bit sum
    [A + (~M) + C], with [~M] the complement of the operand byte, gives its
    low byte to [A] and its bit 8 to the C flag. *)
Definition SBC_binary_claim (s : CPU.t) (addr : address.t) : Prop :=
  let A := CPU.m_Acc s in
  let M := CPU.eval (CPU.FetchData addr) s in
  let C := CPU.eval (CPU.GetStatusFlag CPU.CARRY) s in
  let sum := A + Z.lxor M 0xFF + C in
  let s' := CPU.exec (CPU.Ins_SBC addr) s in
  CPU.m_Acc s' = Z.land sum 0xFF
  /\ CPU.eval (CPU.GetStatusFlag CPU.CARRY) s' = Z.b2z (Z.testbit sum 8).

(** The memory at the end of a chain of buses, if there is one. *)
Fixpoint backing (d : IODevice) : option Memory.t :=
  match d with
  | IOMemory mem => Some mem
  | IOBus (Some m) => backing m
  | IOBus None => None
  end.

(** The size of that memory, 0 when there is none. *)
Definition device_size (d : IODevice) : Z :=
  match backing d with Some mem => Memory.m_Size mem | None => 0 end.

(** The size of the memory the CPU reaches through its bus: 0 when the
    bus pointer is null or the chain ends in an unattached bus. *)
Definition bus_size (s : CPU.t) : Z :=
  match CPU.m_Bus s with Some d => device_size d | None => 0 end.

(** The status byte [SetStatusFlag f v] stores. *)
Definition status_with (p : Z) (f : CPU.StatusFlag) (v : bool) : Z :=
  if v then to_byte (Z.lor p (CPU.flag_value f))
  else to_byte (Z.land p (Z.lnot (CPU.flag_value f))).

(** * Properties *)

(** A handler is unfolded by computation once the state is a record and
    the source of its operand ([m_WasSupplied]) is known. *)
Ltac by_operand_cases s :=
  let ws := fresh "ws" in
  destruct s as [? ? ? ? ? ? ? ? ? ws ?]; destruct ws; reflexivity.

(** ** Bytes, words and the macros of utils.h *)

Lemma to_byte_range (z : Z) : 0 <= to_byte z < 256.
Proof. unfold to_byte. apply Z.mod_pos_bound. lia. Qed.

Lemma to_byte_small (z : Z) : 0 <= z < 256 -> to_byte z = z.
Proof. intros H. unfold to_byte. apply Z.mod_small. exact H. Qed.

Lemma to_word_small (z : Z) : 0 <= z < 65536 -> to_word z = z.
Proof. intros H. unfold to_word. apply Z.mod_small. exact H. Qed.

Lemma land_0xFF (z : Z) : Z.land z 0xFF = z mod 256.
Proof. change 0xFF with (Z.ones 8). rewrite Z.land_ones by lia. reflexivity. Qed.

Lemma shiftr_8 (z : Z) : Z.shiftr z 8 = z / 256.
Proof. rewrite Z.shiftr_div_pow2 by lia. reflexivity. Qed.

Lemma GET_LOW_BYTE_MAKE_WORD (low high : Z) :
  0 <= low < 256 -> GET_LOW_BYTE (MAKE_WORD low high) = low.
Proof.
  intros Hl. unfold GET_LOW_BYTE, MAKE_WORD.
  rewrite Z.land_lor_distr_l, !land_0xFF.
  rewrite Z.shiftl_mul_pow2 by lia.
  rewrite Z.mod_mul by lia.
  rewrite Z.lor_0_l. apply Z.mod_small. exact Hl.
Qed.

Lemma GET_HIGH_BYTE_MAKE_WORD (low high : Z) :
  0 <= low < 256 -> 0 <= high < 256 ->
  GET_HIGH_BYTE (MAKE_WORD low high) = high.
Proof.
  intros Hl Hh. unfold GET_HIGH_BYTE, MAKE_WORD.
  rewrite Z.shiftr_lor, Z.shiftr_shiftl_l by lia.
  rewrite Z.sub_diag, Z.shiftl_0_r, shiftr_8.
  rewrite Z.div_small by exact Hl.
  rewrite Z.lor_0_r, land_0xFF. apply Z.mod_small. exact Hh.
Qed.

(** On bytes, [MAKE_WORD low high] is the little-endian word. *)
Lemma MAKE_WORD_bytes (low high : Z) :
  0 <= low < 256 -> 0 <= high < 256 ->
  MAKE_WORD low high = low + 256 * high.
Proof.
  intros Hl Hh.
  assert (Hlo : MAKE_WORD low high mod 256 = low).
  { rewrite <- land_0xFF. apply GET_LOW_BYTE_MAKE_WORD. exact Hl. }
  assert (Hhi : MAKE_WORD low high / 256 = high).
  { unfold MAKE_WORD. rewrite <- shiftr_8.
    rewrite Z.shiftr_lor, Z.shiftr_shiftl_l by lia.
    rewrite Z.sub_diag, Z.shiftl_0_r, shiftr_8.
    rewrite Z.div_small by exact Hl. apply Z.lor_0_r. }
  rewrite (Z.div_mod (MAKE_WORD low high) 256) by lia.
  rewrite Hlo, Hhi. lia.
Qed.

(** ** The opcode table *)

Lemma keyed_from_lookup (table : list InstructionDetail) :
  forall (k : Z) (i : nat) (detail : InstructionDetail),
    keyed_from k table = true ->
    table !! i = Some detail ->
    opCode detail = k + Z.of_nat i.
Proof.
  induction table as [|d rest IH]; intros k i detail Hk Hi.
  - discriminate Hi.
  - simpl in Hk. apply andb_prop in Hk as [Hd Hrest].
    destruct i as [|i].
    + simpl in Hi. injection Hi as <-. apply Z.eqb_eq in Hd. lia.
    + simpl in Hi. rewrite (IH (k + 1) i detail Hrest Hi). lia.
Qed.

(** The rows that exist are keyed by their opcode. *)
Lemma InstructionDetails_keyed (i : nat) (detail : InstructionDetail) :
  InstructionDetails !! i = Some detail -> opCode detail = Z.of_nat i.
Proof.
  intros H.
  rewrite (keyed_from_lookup InstructionDetails 0 i detail); [lia| |exact H].
  vm_compute. reflexivity.
Qed.

(** C1.  The table is keyed by the opcode byte, but it has 255 rows, for
    the opcodes 0x00 to 0xFE ([MAX_INSTRUCTIONS] is 255): opcode 0xFF has
    no row, and [Tick] reads past the end of the table when it fetches
    that byte. *)
Theorem InstructionDetails_has_no_row_0xFF :
  length InstructionDetails = 255%nat
  /\ Z.of_nat (length InstructionDetails) = MAX_INSTRUCTIONS
  /\ keyed_from 0 InstructionDetails = true
  /\ InstructionDetails !! Z.to_nat 0xFE
     = Some (row 0xFE Instruction.INC AddressMode.ABX 3 7 false)
  /\ InstructionDetails !! Z.to_nat 0xFF = None.
Proof. repeat split; vm_compute; reflexivity. Qed.

(** ** Memory *)

Example ReadByte_through_bus :
  IODevice.ReadByte
    (IODevice.WriteByte
       (Bus.Make (Some (IOMemory (Memory.Make (MAKE_KB 64))))) 0x0200 0x1A9)
    0x0200 = 0xA9.
Proof. reflexivity. Qed.

Lemma cell_range (m : Memory.t) (i : Z) :
  Memory.wf m -> 0 <= Memory.cell m i < 256.
Proof.
  intros Hwf. unfold Memory.cell.
  destruct (Memory.m_Data m !! i) as [v|] eqn:E; simpl; [|lia].
  apply (Hwf i v E).
Qed.

Lemma wf_new (size : Z) : Memory.wf (Memory.new size).
Proof. unfold Memory.wf, Memory.new. simpl. apply map_Forall_empty. Qed.

Lemma wf_WriteByte (m : Memory.t) (addr data : Z) :
  0 <= addr -> Memory.wf m -> Memory.wf (Memory.WriteByte m addr data).
Proof.
  intros Ha Hwf. unfold Memory.WriteByte, address.value.
  destruct (addr <? Memory.m_Size m) eqn:E; [|exact Hwf].
  apply Z.ltb_lt in E. unfold Memory.wf. simpl.
  apply map_Forall_insert_2; [|exact Hwf].
  split; [lia|apply to_byte_range].
Qed.

(** C10.  In a well-formed 64 KiB memory the word read at 0xFFFF has the
    byte at 0xFFFF as its low byte and the byte at 0x0000 as its high
    byte: the successor address wraps to 0 and is read in range. *)
Theorem ReadWord_0xFFFF_wraps (m : Memory.t) :
  Memory.m_Size m = MAKE_KB 64 ->
  Memory.wf m ->
  Memory.ReadWord m (address.of_int 0xFFFF)
  = Memory.cell m 0xFFFF + 256 * Memory.cell m 0x0000
  /\ GET_LOW_BYTE (Memory.ReadWord m (address.of_int 0xFFFF))
     = Memory.ReadByte m (address.of_int 0xFFFF)
  /\ GET_HIGH_BYTE (Memory.ReadWord m (address.of_int 0xFFFF))
     = Memory.ReadByte m (address.of_int 0x0000).
Proof.
  intros Hsize Hwf.
  pose proof (cell_range m 0xFFFF Hwf) as Hlo.
  pose proof (cell_range m 0x0000 Hwf) as Hhi.
  assert (Hrd : Memory.ReadByte m (address.of_int 0xFFFF) = Memory.cell m 0xFFFF).
  { unfold Memory.ReadByte. rewrite Hsize. reflexivity. }
  assert (Hrd0 : Memory.ReadByte m (address.of_int 0x0000) = Memory.cell m 0x0000).
  { unfold Memory.ReadByte. rewrite Hsize. reflexivity. }
  assert (Hw : Memory.ReadWord m (address.of_int 0xFFFF)
               = MAKE_WORD (Memory.cell m 0xFFFF) (Memory.cell m 0x0000)).
  { unfold Memory.ReadWord.
    change (address.of_int (address.value (address.of_int 0xFFFF) + 1))
      with (address.of_int 0x0000).
    rewrite Hrd, Hrd0. apply to_word_small.
    rewrite MAKE_WORD_bytes by assumption. lia. }
  rewrite Hw, Hrd, Hrd0. repeat split.
  - apply MAKE_WORD_bytes; assumption.
  - apply GET_LOW_BYTE_MAKE_WORD; assumption.
  - apply GET_HIGH_BYTE_MAKE_WORD; assumption.
Qed.

Lemma ReadWord_0xFFFF_wraps_witness :
  let m :=
    Memory.WriteByte
      (Memory.WriteByte (Memory.Make (MAKE_KB 64)) 0xFFFF 0x34) 0x0000 0x12 in
  Memory.m_Size m = MAKE_KB 64
  /\ Memory.wf m
  /\ Memory.ReadWord m (address.of_int 0xFFFF) = 0x34 + 256 * 0x12.
Proof.
  intros m.
  assert (Hwf : Memory.wf m).
  { apply wf_WriteByte; [lia|]. apply wf_WriteByte; [lia|]. apply wf_new. }
  split; [reflexivity|]. split; [exact Hwf|].
  exact (proj1 (ReadWord_0xFFFF_wraps m eq_refl Hwf)).
Defined.

(** ** The state monad and the status flags *)

Section Flags.
Import CPU.
Local Open Scope cpu_scope.

Lemma exec_bind {A B} (m : M A) (k : A -> M B) (s : t) :
  exec (bind m k) s = exec (k (eval m s)) (exec m s).
Proof. reflexivity. Qed.

Lemma eval_bind {A B} (m : M A) (k : A -> M B) (s : t) :
  eval (bind m k) s = eval (k (eval m s)) (exec m s).
Proof. reflexivity. Qed.

Lemma exec_ret {A} (x : A) (s : t) : exec (ret x) s = s.
Proof. reflexivity. Qed.

Lemma exec_get {A} (field : t -> A) (s : t) : exec (get field) s = s.
Proof. reflexivity. Qed.

Lemma eval_ret {A} (x : A) (s : t) : eval (ret x) s = x.
Proof. reflexivity. Qed.

Lemma eval_get {A} (field : t -> A) (s : t) : eval (get field) s = field s.
Proof. reflexivity. Qed.

Lemma exec_HasStatusFlag (f : StatusFlag) (s : t) :
  exec (HasStatusFlag f) s = s.
Proof. reflexivity. Qed.

Lemma exec_GetStatusFlag (f : StatusFlag) (s : t) :
  exec (GetStatusFlag f) s = s.
Proof. reflexivity. Qed.

Lemma exec_FetchData (addr : address.t) (s : t) : exec (FetchData addr) s = s.
Proof.
  unfold exec, FetchData, bind, get. simpl.
  destruct (m_WasSupplied s); reflexivity.
Qed.

(** [p & (1 << n)] is non-zero exactly when bit [n] of [p] is set. *)
Lemma nonzero_land_flag (p : Z) (f : StatusFlag) :
  nonzero (Z.land p (flag_value f)) = Z.testbit p (flag_bit f).
Proof.
  assert (Hk : 0 <= flag_bit f) by (destruct f; simpl; lia).
  unfold flag_value, nonzero. rewrite Z.shiftl_1_l.
  destruct (Z.testbit p (flag_bit f)) eqn:E.
  - apply negb_true_iff, Z.eqb_neq. intros H0.
    assert (Hb : Z.testbit (Z.land p (2 ^ flag_bit f)) (flag_bit f) = true).
    { rewrite Z.land_spec, E, Z.pow2_bits_true by exact Hk. reflexivity. }
    rewrite H0, Z.bits_0 in Hb. discriminate Hb.
  - apply negb_false_iff, Z.eqb_eq. apply Z.bits_inj'. intros n Hn.
    rewrite Z.land_spec, Z.bits_0, Z.pow2_bits_eqb by exact Hk.
    destruct (Z.eqb_spec (flag_bit f) n) as [<-|_].
    + rewrite E. reflexivity.
    + apply andb_false_r.
Qed.

Lemma HasStatusFlag_testbit (f : StatusFlag) (s : t) :
  eval (HasStatusFlag f) s = Z.testbit (m_ProcStatus s) (flag_bit f).
Proof. apply nonzero_land_flag. Qed.

Lemma GetStatusFlag_testbit (f : StatusFlag) (s : t) :
  eval (GetStatusFlag f) s = Z.b2z (Z.testbit (m_ProcStatus s) (flag_bit f)).
Proof.
  unfold eval, GetStatusFlag. simpl. rewrite nonzero_land_flag.
  destruct (Z.testbit _ _); reflexivity.
Qed.

(** [SetStatusFlag f v] gives bit [f] the value [v] and keeps the other
    seven bits. *)
Lemma testbit_SetStatusFlag (f : StatusFlag) (v : bool) (s : t) (n : Z) :
  0 <= n < 8 ->
  Z.testbit (m_ProcStatus (exec (SetStatusFlag f v) s)) n
  = if n =? flag_bit f then v else Z.testbit (m_ProcStatus s) n.
Proof.
  intros Hn.
  assert (Hk : 0 <= flag_bit f) by (destruct f; simpl; lia).
  assert (Hf : Z.testbit (flag_value f) n = (n =? flag_bit f)).
  { unfold flag_value. rewrite Z.shiftl_1_l, Z.pow2_bits_eqb by exact Hk.
    apply Z.eqb_sym. }
  destruct v; unfold exec, SetStatusFlag, bind, get, set_ProcStatus; simpl;
    unfold to_byte; change 256 with (2 ^ 8);
    rewrite Z.mod_pow2_bits_low by lia.
  - rewrite Z.lor_spec, Hf. destruct (n =? flag_bit f).
    + apply orb_true_r.
    + apply orb_false_r.
  - rewrite Z.land_spec, Z.lnot_spec, Hf by lia. destruct (n =? flag_bit f).
    + apply andb_false_r.
    + apply andb_true_r.
Qed.

Lemma SetStatusFlag_frame (f : StatusFlag) (v : bool) (s : t) :
  let s' := exec (SetStatusFlag f v) s in
  m_PC s' = m_PC s /\ m_SP s' = m_SP s /\ m_Acc s' = m_Acc s
  /\ m_X s' = m_X s /\ m_Y s' = m_Y s /\ m_Bus s' = m_Bus s
  /\ m_CyclesRem s' = m_CyclesRem s
  /\ m_WasSupplied s' = m_WasSupplied s
  /\ m_SuppliedValue s' = m_SuppliedValue s.
Proof. destruct v; repeat split. Qed.

Lemma m_ProcStatus_WriteByte (addr : address.t) (data : Z) (s : t) :
  m_ProcStatus (exec (WriteByte addr data) s) = m_ProcStatus s.
Proof.
  unfold exec, WriteByte, bind, get. simpl. destruct (m_Bus s); reflexivity.
Qed.

Lemma m_ProcStatus_PushToStack (data : Z) (s : t) :
  m_ProcStatus (exec (PushToStack data) s) = m_ProcStatus s.
Proof.
  unfold PushToStack. rewrite !exec_bind. rewrite m_ProcStatus_WriteByte.
  reflexivity.
Qed.

End Flags.

(** ** The unused bit of the processor status *)

Section Unused.
Import CPU.
Local Open Scope cpu_scope.
Variable past_the_end : InstructionDetail.

Lemma U_set_SetStatusFlag_UNUSED (s : t) :
  U_set (exec (SetStatusFlag UNUSED true) s).
Proof. unfold U_set. rewrite testbit_SetStatusFlag by lia. reflexivity. Qed.

Lemma U_set_Reset (s : t) : U_set (exec Reset s).
Proof. reflexivity. Qed.

Lemma U_set_Tick (s : t) : U_set s -> U_set (exec (Tick past_the_end) s).
Proof.
  intros HU. unfold Tick.
  rewrite !exec_bind.
  destruct (0 <? _).
  - exact HU.
  - rewrite !exec_bind, exec_ret, exec_get.
    apply U_set_SetStatusFlag_UNUSED.
Qed.

Lemma U_set_interrupt_entry (vector cycles : Z) (s : t) :
  U_set
    (exec
       (pc <- get m_PC ;;
        PushToStack (GET_HIGH_BYTE pc) ;;
        pc <- get m_PC ;;
        PushToStack (GET_LOW_BYTE pc) ;;
        SetStatusFlag BREAK false ;;
        SetStatusFlag INTERRUPT true ;;
        SetStatusFlag UNUSED true ;;
        p <- get m_ProcStatus ;;
        PushToStack p ;;
        w <- ReadWord (address.of_int vector) ;;
        set_PC (to_word w) ;;
        rem <- get m_CyclesRem ;;
        set_CyclesRem (to_byte (rem + cycles))) s).
Proof.
  rewrite !exec_bind.
  match goal with
  | |- U_set (exec (set_CyclesRem _) (exec (get _) (exec (set_PC _)
         (exec (ReadWord _) (exec (PushToStack ?d) (exec (get _) ?s')))))) =>
      change (Z.testbit (m_ProcStatus (exec (PushToStack d) s')) 5 = true);
      rewrite m_ProcStatus_PushToStack
  end.
  apply U_set_SetStatusFlag_UNUSED.
Qed.

Lemma U_set_NMI (s : t) : U_set (exec NMI s).
Proof. apply U_set_interrupt_entry. Qed.

Lemma U_set_IRQ (s : t) : U_set s -> U_set (exec IRQ s).
Proof.
  intros HU. unfold IRQ. rewrite exec_bind.
  destruct (Bool.eqb _ true).
  - exact HU.
  - apply U_set_interrupt_entry.
Qed.

(** C9.  Bit U (bit 5) of the processor status is 1 in every state that
    [Tick], [IRQ] and [NMI] calls produce after a [Reset], whatever the
    bus holds and whatever the table read for opcode 0xFF yields. *)
Theorem U_set_reachable (s : t) : reachable past_the_end s -> U_set s.
Proof.
  induction 1 as [s|s _ IH|s _ IH|s _ IH].
  - apply U_set_Reset.
  - apply U_set_Tick. exact IH.
  - apply U_set_IRQ. exact IH.
  - apply U_set_NMI.
Qed.

End Unused.

Lemma U_set_reachable_witness :
  let pte := first_ILL_slot in
  let s :=
    CPU.exec CPU.IRQ
      (CPU.exec (CPU.Tick pte) (boot 0x0200 [0x28; 0x00])) in
  CPU.reachable pte s /\ U_set s /\ CPU.m_ProcStatus s = 0x24.
Proof.
  intros pte s.
  assert (H : CPU.reachable pte s).
  { apply CPU.reachable_IRQ, CPU.reachable_Tick. unfold boot.
    apply CPU.reachable_Reset. }
  split; [exact H|]. split; [exact (U_set_reachable pte s H)|].
  vm_compute. reflexivity.
Defined.

(** ** Subtract with carry *)

Section Subtract.
Import CPU.
Local Open Scope cpu_scope.

Lemma Ins_SBC_binary_exec (s : t) (addr : address.t) :
  eval (HasStatusFlag DECIMAL) s = false ->
  let carry := to_word (eval (GetStatusFlag CARRY) s) in
  let acc := to_word (m_Acc s) in
  let val := to_word (eval (FetchData addr) s) in
  let sum := to_word (acc + Z.lxor val 0xFF + carry) in
  let result :=
    if negb (nonzero (Z.land sum 0xFF00)) then to_word (sum + 1) else sum in
  exec (Ins_SBC addr) s
  = exec (set_Acc (to_byte (GET_LOW_BYTE result)))
      (exec (SetStatusFlag NEGATIVE (nonzero (IS_NEGATIVE result)))
         (exec (SetStatusFlag ZERO (GET_LOW_BYTE result =? 0))
            (exec (SetStatusFlag INT_OVERFLOW
                     (nonzero (Z.land (Z.land (Z.lnot (Z.lxor acc val))
                                              (Z.lxor acc result)) 0x0080)))
               (exec (SetStatusFlag CARRY (result <? 0xFF)) s)))).
Proof.
  intros HD. unfold Ins_SBC.
  rewrite exec_bind, exec_HasStatusFlag, HD.
  by_operand_cases s.
Qed.

Lemma Ins_SBC_decimal_exec (s : t) (addr : address.t) :
  eval (HasStatusFlag DECIMAL) s = true ->
  let acc := m_Acc s in
  let acc_i := Z.land acc 0xF + Z.land (Z.shiftr acc 4) 0xF * 10 in
  let val := eval (FetchData addr) s in
  let val_i := Z.land val 0xF + Z.land (Z.shiftr val 4) 0xF * 10 in
  let temp :=
    acc_i - val_i - (if eval (HasStatusFlag CARRY) s then 0 else 1) in
  let temp := if temp <? 0 then temp + 2 else temp in
  let hundreds := Z.abs (Z.quot temp 100) in
  let tens := Z.quot (Z.abs temp - hundreds * 100) 10 in
  let ones := Z.abs temp - hundreds * 100 - tens * 10 in
  let tens := if temp <? 0 then 9 - tens else tens in
  let ones := if temp <? 0 then 9 - ones else ones in
  let result := to_word (Z.lor (Z.shiftl tens 4) ones) in
  exec (Ins_SBC addr) s
  = exec (set_Acc (to_byte (GET_LOW_BYTE result)))
      (exec (SetStatusFlag NEGATIVE (nonzero (IS_NEGATIVE result)))
         (exec (SetStatusFlag ZERO (GET_LOW_BYTE result =? 0))
            (exec (SetStatusFlag CARRY (0 <? temp)) s))).
Proof.
  intros HD. unfold Ins_SBC.
  rewrite exec_bind, exec_HasStatusFlag, HD.
  by_operand_cases s.
Qed.

Lemma m_ProcStatus_set_Acc (v : Z) (s : t) :
  m_ProcStatus (exec (set_Acc v) s) = m_ProcStatus s.
Proof. reflexivity. Qed.

Lemma m_Acc_set_Acc (v : Z) (s : t) : m_Acc (exec (set_Acc v) s) = v.
Proof. reflexivity. Qed.

(** C4.  In decimal mode, with A = 0x21, operand 0x34 and the C flag
    clear, SBC leaves A = 0x87 and the C flag clear. *)
Theorem Ins_SBC_decimal_0x21_0x34 (s : t) (addr : address.t) :
  m_Acc s = 0x21 ->
  eval (FetchData addr) s = 0x34 ->
  eval (HasStatusFlag DECIMAL) s = true ->
  eval (HasStatusFlag CARRY) s = false ->
  let s' := exec (Ins_SBC addr) s in
  m_Acc s' = 0x87 /\ eval (HasStatusFlag CARRY) s' = false.
Proof.
  intros HA HM HD HC s'. subst s'.
  pose proof (Ins_SBC_decimal_exec s addr HD) as E. cbv zeta in E.
  rewrite HA, HM, HC in E. rewrite E. clear E. split.
  - reflexivity.
  - rewrite HasStatusFlag_testbit, m_ProcStatus_set_Acc.
    rewrite !testbit_SetStatusFlag by (simpl; lia).
    reflexivity.
Qed.

(** Exhaustive check of a boolean property over a range. *)
Lemma forall_below (P : Z -> bool) (n : Z) :
  forallb P (seqZ 0 n) = true -> forall z, 0 <= z < n -> P z = true.
Proof.
  intros H z Hz. rewrite forallb_forall in H. apply H.
  apply list_elem_of_In, elem_of_seqZ. lia.
Qed.

Lemma lxor_0xFF (m : Z) : 0 <= m < 256 -> Z.lxor m 0xFF = 255 - m.
Proof.
  intros H. apply Z.eqb_eq.
  apply (forall_below (fun m => Z.lxor m 0xFF =? 255 - m) 256); [|exact H].
  vm_compute. reflexivity.
Qed.

Lemma high_byte_clear (z : Z) :
  0 <= z < 512 -> nonzero (Z.land z 0xFF00) = (255 <? z).
Proof.
  intros H.
  apply (eqb_prop _ _).
  apply (forall_below (fun z => Bool.eqb (nonzero (Z.land z 0xFF00)) (255 <? z)) 512);
    [|exact H].
  vm_compute. reflexivity.
Qed.

(** C3, as amended.  With the D flag clear, SBC forms the 16-bit sum
    [A + (~M) + C], adds one to it when its high byte is zero, writes the
    low byte of the adjusted sum to A and sets the C flag exactly when the
    adjusted sum is below 0xFF. *)
Theorem Ins_SBC_binary_adjusted (s : t) (addr : address.t) :
  let A := m_Acc s in
  let M := eval (FetchData addr) s in
  let C := eval (GetStatusFlag CARRY) s in
  eval (HasStatusFlag DECIMAL) s = false ->
  0 <= A < 256 -> 0 <= M < 256 ->
  let sum := A + Z.lxor M 0xFF + C in
  let adjusted := if sum <=? 0xFF then sum + 1 else sum in
  let s' := exec (Ins_SBC addr) s in
  m_Acc s' = Z.land adjusted 0xFF
  /\ eval (GetStatusFlag CARRY) s' = (if adjusted <? 0xFF then 1 else 0).
Proof.
  intros A M C HD HA HM sum adjusted s'. subst s'.
  rewrite land_0xFF. subst adjusted sum. rewrite (lxor_0xFF M HM).
  set (sum := A + (255 - M) + C).
  set (adjusted := if sum <=? 0xFF then sum + 1 else sum).
  assert (HC : 0 <= C <= 1).
  { subst C. rewrite GetStatusFlag_testbit. destruct (Z.testbit _ _); simpl; lia. }
  pose proof (Ins_SBC_binary_exec s addr HD) as E. cbv zeta in E.
  fold A M C in E.
  rewrite (to_word_small A), (to_word_small M), (to_word_small C) in E by lia.
  rewrite (lxor_0xFF M HM) in E. fold sum in E.
  rewrite (to_word_small sum) in E by (subst sum; lia).
  rewrite (high_byte_clear sum) in E by (subst sum; lia).
  replace (negb (255 <? sum)) with (sum <=? 255) in E
    by (rewrite Z.leb_antisym; reflexivity).
  rewrite (to_word_small (sum + 1)) in E by (subst sum; lia).
  fold adjusted in E. rewrite E. clear E. split.
  - rewrite m_Acc_set_Acc. unfold GET_LOW_BYTE. rewrite land_0xFF.
    unfold to_byte. apply Z.mod_mod. lia.
  - rewrite GetStatusFlag_testbit, m_ProcStatus_set_Acc.
    rewrite !testbit_SetStatusFlag by (simpl; lia).
    simpl. destruct (adjusted <? 255); reflexivity.
Qed.

End Subtract.

Lemma Ins_SBC_decimal_0x21_0x34_witness :
  let s :=
    run first_ILL_slot 3
      (boot 0x0200 [0xF8; 0x18; 0xA9; 0x21; 0xE9; 0x34; 0x00]) in
  let addr := address.of_int 0x0205 in
  CPU.m_Acc s = 0x21
  /\ CPU.eval (CPU.FetchData addr) s = 0x34
  /\ CPU.eval (CPU.HasStatusFlag CPU.DECIMAL) s = true
  /\ CPU.eval (CPU.HasStatusFlag CPU.CARRY) s = false
  /\ CPU.m_Acc (CPU.exec (CPU.Ins_SBC addr) s) = 0x87
  /\ CPU.eval (CPU.HasStatusFlag CPU.CARRY)
       (CPU.exec (CPU.Ins_SBC addr) s) = false.
Proof.
  intros s addr.
  assert (HA : CPU.m_Acc s = 0x21) by (vm_compute; reflexivity).
  assert (HM : CPU.eval (CPU.FetchData addr) s = 0x34)
    by (vm_compute; reflexivity).
  assert (HD : CPU.eval (CPU.HasStatusFlag CPU.DECIMAL) s = true)
    by (vm_compute; reflexivity).
  assert (HC : CPU.eval (CPU.HasStatusFlag CPU.CARRY) s = false)
    by (vm_compute; reflexivity).
  split; [exact HA|]. split; [exact HM|]. split; [exact HD|].
  split; [exact HC|].
  exact (Ins_SBC_decimal_0x21_0x34 s addr HA HM HD HC).
Defined.

Lemma Ins_SBC_binary_adjusted_witness :
  let s :=
    run first_ILL_slot 3
      (boot 0x0200 [0xD8; 0x18; 0xA9; 0x00; 0xE9; 0x01; 0x00]) in
  let addr := address.of_int 0x0205 in
  CPU.eval (CPU.HasStatusFlag CPU.DECIMAL) s = false
  /\ 0 <= CPU.m_Acc s < 256
  /\ 0 <= CPU.eval (CPU.FetchData addr) s < 256
  /\ CPU.m_Acc (CPU.exec (CPU.Ins_SBC addr) s) = 0xFF
  /\ CPU.eval (CPU.GetStatusFlag CPU.CARRY)
       (CPU.exec (CPU.Ins_SBC addr) s) = 0.
Proof.
  intros s addr.
  assert (HD : CPU.eval (CPU.HasStatusFlag CPU.DECIMAL) s = false)
    by (vm_compute; reflexivity).
  assert (HA0 : CPU.m_Acc s = 0) by (vm_compute; reflexivity).
  assert (HA : 0 <= CPU.m_Acc s < 256) by (rewrite HA0; lia).
  assert (HM0 : CPU.eval (CPU.FetchData addr) s = 1)
    by (vm_compute; reflexivity).
  assert (HM : 0 <= CPU.eval (CPU.FetchData addr) s < 256)
    by (rewrite HM0; lia).
  split; [exact HD|]. split; [exact HA|]. split; [exact HM|].
  pose proof (Ins_SBC_binary_adjusted s addr HD HA HM) as H.
  vm_compute in H. vm_compute. exact H.
Defined.

(** C3, as stated, fails on the code.  After [CLD; CLC; LDA #$00] the
    instruction [SBC #$01] leaves A = 0xFF, not the low byte 0xFE of the
    sum; after [CLD; CLC; LDA #$32] the instruction [SBC #$11] leaves the
    C flag clear although bit 8 of the sum 0x120 is set. *)
Lemma SBC_binary_claim_fails :
  let s1 :=
    run first_ILL_slot 3
      (boot 0x0200 [0xD8; 0x18; 0xA9; 0x00; 0xE9; 0x01; 0x00]) in
  let s2 :=
    run first_ILL_slot 3
      (boot 0x0200 [0xD8; 0x18; 0xA9; 0x32; 0xE9; 0x11; 0x00]) in
  let addr := address.of_int 0x0205 in
  (CPU.eval (CPU.HasStatusFlag CPU.DECIMAL) s1 = false
   /\ ~ SBC_binary_claim s1 addr)
  /\ (CPU.eval (CPU.HasStatusFlag CPU.DECIMAL) s2 = false
      /\ ~ SBC_binary_claim s2 addr).
Proof.
  repeat split; try (vm_compute; reflexivity).
  - intros [HA _]. vm_compute in HA. discriminate HA.
  - intros [_ HC]. vm_compute in HC. discriminate HC.
Qed.

(** ** Shifts and rotates *)

Section Shifts.
Import CPU.
Local Open Scope cpu_scope.

Lemma Ins_ASL_exec (s : t) (addr : address.t) :
  let result := to_word (Z.shiftl (to_word (eval (FetchData addr) s)) 1) in
  exec (Ins_ASL addr) s
  = exec (set_Acc (to_byte (Z.land result 0x00FF)))
      (exec (SetStatusFlag NEGATIVE (nonzero (IS_NEGATIVE result)))
         (exec (SetStatusFlag ZERO (GET_LOW_BYTE result =? 0))
            (exec (SetStatusFlag CARRY (0xFF <? result)) s))).
Proof. by_operand_cases s. Qed.

Lemma Ins_LSR_exec (s : t) (addr : address.t) :
  let value := eval (FetchData addr) s in
  let result := to_byte (Z.shiftr value 1) in
  exec (Ins_LSR addr) s
  = exec (set_Acc result)
      (exec (SetStatusFlag NEGATIVE (nonzero (IS_NEGATIVE result)))
         (exec (SetStatusFlag ZERO (result =? 0))
            (exec (SetStatusFlag CARRY (nonzero (Z.land value 0x01))) s))).
Proof. by_operand_cases s. Qed.

Lemma m_Bus_SetStatusFlag (f : StatusFlag) (v : bool) (s : t) :
  m_Bus (exec (SetStatusFlag f v) s) = m_Bus s.
Proof. destruct v; reflexivity. Qed.

(** Neither handler writes to the bus, in any addressing mode. *)
Lemma Ins_ASL_keeps_bus (s : t) (addr : address.t) :
  m_Bus (exec (Ins_ASL addr) s) = m_Bus s.
Proof.
  rewrite Ins_ASL_exec. cbv zeta.
  change (m_Bus (exec (set_Acc ?v) ?s')) with (m_Bus s').
  rewrite !m_Bus_SetStatusFlag. reflexivity.
Qed.

Lemma Ins_LSR_keeps_bus (s : t) (addr : address.t) :
  m_Bus (exec (Ins_LSR addr) s) = m_Bus s.
Proof.
  rewrite Ins_LSR_exec. cbv zeta.
  change (m_Bus (exec (set_Acc ?v) ?s')) with (m_Bus s').
  rewrite !m_Bus_SetStatusFlag. reflexivity.
Qed.

(** The byte [Ins_ROR] produces does not depend on the incoming carry. *)
Lemma ROR_result_ignores_carry (value c : Z) :
  0 <= value < 256 -> 0 <= c <= 1 ->
  to_byte (Z.lor (Z.shiftr value 1) (Z.shiftl c 8)) = Z.shiftr value 1.
Proof.
  intros Hv Hc.
  assert (Hc' : c = 0 \/ c = 1) by lia.
  apply Z.eqb_eq.
  destruct Hc' as [-> | ->].
  - apply (forall_below
             (fun v =>
                to_byte (Z.lor (Z.shiftr v 1) (Z.shiftl 0 8)) =? Z.shiftr v 1)
             256); [vm_compute; reflexivity|exact Hv].
  - apply (forall_below
             (fun v =>
                to_byte (Z.lor (Z.shiftr v 1) (Z.shiftl 1 8)) =? Z.shiftr v 1)
             256); [vm_compute; reflexivity|exact Hv].
Qed.

End Shifts.

(** C2.  [LDA #$81; STA $10; LDA #$00] followed by [ASL $10] leaves the
    byte at 0x0010 as it was and puts the shifted byte 0x02 in A; followed
    by [LSR $10] it leaves the byte as it was and puts 0x40 in A.  The
    same program with [ROL $10] writes the byte back and keeps A. *)
Theorem ASL_LSR_memory_operand_goes_to_A :
  let prefix := [0xA9; 0x81; 0x85; 0x10; 0xA9; 0x00] in
  let asl := run first_ILL_slot 4 (boot 0x0200 (prefix ++ [0x06; 0x10])) in
  let lsr := run first_ILL_slot 4 (boot 0x0200 (prefix ++ [0x46; 0x10])) in
  let rol := run first_ILL_slot 4 (boot 0x0200 (prefix ++ [0x26; 0x10])) in
  (CPU.m_Acc asl = 0x02 /\ peek asl 0x0010 = 0x81)
  /\ (CPU.m_Acc lsr = 0x40 /\ peek lsr 0x0010 = 0x81)
  /\ (CPU.m_Acc rol = 0x00 /\ peek rol 0x0010 = 0x02).
Proof. vm_compute. repeat split. Qed.

(** C6.  [SEC; LDA #$00; ROR A] leaves A = 0x00: the carry is shifted to
    bit 8 and lost, bit 7 of the result is 0.  [ROL A] in its place gives
    0x01, the carry in the vacated bit. *)
Theorem ROR_drops_the_carry :
  let ror := run first_ILL_slot 3 (boot 0x0200 [0x38; 0xA9; 0x00; 0x6A]) in
  let rol := run first_ILL_slot 3 (boot 0x0200 [0x38; 0xA9; 0x00; 0x2A]) in
  CPU.m_Acc ror = 0x00
  /\ Z.testbit (CPU.m_Acc ror) 7 = false
  /\ CPU.m_Acc rol = 0x01.
Proof. vm_compute. repeat split. Qed.

(** ** Branches *)

Section Branches.
Import CPU.
Local Open Scope cpu_scope.

Lemma page_range (a : Z) : 0 <= address.page a < 256.
Proof.
  unfold address.page. rewrite land_0xFF. apply Z.mod_pos_bound. lia.
Qed.

(** [pc & 0xFF00] is the page still shifted left by 8. *)
Lemma land_0xFF00 (pc : Z) :
  0 <= pc < 65536 -> Z.land pc 0xFF00 = 256 * (pc / 256).
Proof.
  intros H.
  assert (Hlow : Z.land pc 0xFF00 mod 256 = 0).
  { rewrite <- land_0xFF, <- Z.land_assoc. apply Z.land_0_r. }
  assert (Hhigh : Z.land pc 0xFF00 / 256 = pc / 256).
  { rewrite <- !shiftr_8, Z.shiftr_land.
    change (Z.shiftr 0xFF00 8) with 0xFF.
    rewrite land_0xFF, shiftr_8. apply Z.mod_small.
    split; [apply Z.div_pos; lia|apply Z.div_lt_upper_bound; lia]. }
  rewrite (Z.div_mod (Z.land pc 0xFF00) 256) by lia.
  rewrite Hlow, Hhigh. lia.
Qed.

(** Outside page 0 a taken branch is charged the page-crossing cost,
    wherever its target lies. *)
Lemma Branch_outside_page_zero (s : t) (addr : address.t) :
  0x0100 <= m_PC s < 0x10000 -> eval (Branch addr) s = 3.
Proof.
  intros Hpc. unfold Branch, eval, bind, get, ret, set_PC. simpl.
  pose proof (page_range (address.of_int (m_PC s + address.value addr)))
    as Hp.
  rewrite land_0xFF00 by lia.
  assert (1 <= m_PC s / 256) by (apply Z.div_le_lower_bound; lia).
  destruct (Z.eqb_spec
              (address.page (address.of_int (m_PC s + address.value addr)))
              (256 * (m_PC s / 256))) as [E|E]; [lia|reflexivity].
Qed.

End Branches.

(** C5.  At 0x0200, [CLC; BCC *+$10] takes the branch from 0x0203 to
    0x0213, on the same page, and is charged 4 cycles, 2 more than the 2
    cycles of the untaken [SEC; BCC *+$10].  [Branch] compares the page
    byte of the target with [m_PC & 0xFF00], which are equal on page 0
    only: there the same program is charged 3 cycles. *)
Theorem taken_branch_same_page_costs_two_extra :
  let taken :=
    CPU.exec (CPU.Tick first_ILL_slot)
      (run first_ILL_slot 1 (boot 0x0200 [0x18; 0x90; 0x10])) in
  let untaken :=
    CPU.exec (CPU.Tick first_ILL_slot)
      (run first_ILL_slot 1 (boot 0x0200 [0x38; 0x90; 0x10])) in
  let taken_page0 :=
    CPU.exec (CPU.Tick first_ILL_slot)
      (run first_ILL_slot 1 (boot 0x0010 [0x18; 0x90; 0x10])) in
  (CPU.m_PC untaken = 0x0203 /\ CPU.m_CyclesRem untaken = 2)
  /\ (CPU.m_PC taken = 0x0213
      /\ address.page (CPU.m_PC taken) = address.page 0x0203
      /\ CPU.m_CyclesRem taken = 2 + 2)
  /\ (CPU.m_PC taken_page0 = 0x0023 /\ CPU.m_CyclesRem taken_page0 = 2 + 1).
Proof. vm_compute. repeat split. Qed.

(** ** Indexed indirect addressing *)

(** The address of the second read of [Addr_INX] is the start of page 0
    or of page 1, whatever the operand and X are. *)
Lemma Addr_INX_second_read (table xword : Z) :
  0 <= table < 256 -> 0 <= xword < 256 ->
  Z.land (table + xword + 1) 0xFF00
  = if table + xword + 1 <? 256 then 0x0000 else 0x0100.
Proof.
  intros Ht Hx. apply Z.eqb_eq.
  apply (forall_below
           (fun z => Z.land z 0xFF00 =? if z <? 256 then 0x0000 else 0x0100)
           512); [vm_compute; reflexivity|lia].
Qed.

(** C7.  With the word 0x1234 stored at 0x0014/0x0015, 0xAA at 0x0000 and
    X = 4, the operand [($10,X)] resolves to 0xAA34: the low byte comes
    from 0x0014, the high byte from [(t + X + 1) & 0xFF00] = 0x0000 and
    not from 0x0015.  [STA ($10,X)] stores to 0xAA34 and leaves 0x1234
    untouched. *)
Theorem Addr_INX_high_byte_from_page_start :
  let program :=
    [0xA9; 0x34; 0x85; 0x14; 0xA9; 0x12; 0x85; 0x15; 0xA9; 0xAA; 0x85; 0x00;
     0xA2; 0x04; 0xA9; 0x77; 0x81; 0x10] in
  let before := run first_ILL_slot 8 (boot 0x0200 program) in
  let after := run first_ILL_slot 9 (boot 0x0200 program) in
  (peek before 0x0014 = 0x34 /\ peek before 0x0015 = 0x12
   /\ peek before 0x0000 = 0xAA /\ CPU.m_X before = 0x04)
  /\ CPU.eval (CPU.ExecuteAddressing AddressMode.INX 0)
       (CPU.exec CPU.PC_increment before) = (0xAA34, 5)
  /\ (peek after 0xAA34 = 0x77 /\ peek after 0x1234 = 0x00).
Proof. vm_compute. repeat split. Qed.

(** ** The assembler's branch specialisation *)

(** The window test and the emitted displacement use the distance from
    the instruction to [startingPCOffset]; the operand is not consulted. *)
Lemma branchOptimization_ignores_operand
  (instruction : Instruction.t) (instrPC : Z)
  (addressing addressing' : AddressMode.t) (value value' : Z) :
  Program.is_branch instruction = true ->
  -126 <= Program.startingPCOffset - instrPC <= 129 ->
  Program.branchOptimization instruction instrPC addressing value
  = Program.branchOptimization instruction instrPC addressing' value'.
Proof.
  intros Hb Hw. unfold Program.branchOptimization. rewrite Hb.
  destruct (-126 <=? _) eqn:E1; [|lia].
  destruct (_ <=? 129) eqn:E2; [|lia].
  reflexivity.
Qed.

(** C8.  For [NOP] at 0x0200 followed by [BNE $0210] at 0x0201, the target
    is 15 bytes ahead, inside the window, and the operand should be
    15 - 2 = 0x0D.  The assembler emits D0 FD: the displacement from
    0x0201 to 0x0200, minus 2.  Placed first, at 0x0200, the same branch is
    emitted with the 16-bit operand 0xFFFE, in three bytes; at 0x0300, out
    of reach of 0x0200 but 16 bytes from its target, it is not specialised
    and nothing is emitted. *)
Theorem branch_operand_measured_from_start :
  let after_nop :=
    Program.parseInstruction 2 Instruction.NOP 0x0200 AddressMode.IMP 0
      Program.new in
  Program.branchOptimization Instruction.BNE 0x0201 AddressMode.ABS 0x0210
  = (AddressMode.REL, 0xFD)
  /\ to_word (0x0210 - 0x0201 - 2) = 0x0D
  /\ Program.m_ByteCode
       (Program.parseInstruction 3 Instruction.BNE 0x0201 AddressMode.ABS
          0x0210 after_nop)
     = [0xEA; 0xD0; 0xFD]
  /\ Program.m_ByteCode
       (Program.parseInstruction 2 Instruction.BNE 0x0200 AddressMode.ABS
          0x0210 Program.new)
     = [0xD0; 0xFE; 0xFF]
  /\ Program.m_ByteCode
       (Program.parseInstruction 2 Instruction.BNE 0x0300 AddressMode.ABS
          0x0310 Program.new)
     = [].
Proof. vm_compute. repeat split. Qed.

(** ** The end-to-end scenarios of the test program

    Each program is loaded at 0x0200 and run from reset, one [E] command
    per instruction; the registers are read before the closing [BRK]. *)

Example scenario_1_binary_subtract :
  let s :=
    run first_ILL_slot 4
      (boot 0x0200 [0xD8; 0x18; 0xA9; 0x32; 0xE9; 0x11; 0x00]) in
  CPU.m_Acc s = 0x20 /\ CPU.eval (CPU.GetStatusFlag CPU.CARRY) s = 0.
Proof. vm_compute. split; reflexivity. Qed.

Example scenario_2_underflow :
  let s :=
    run first_ILL_slot 4
      (boot 0x0200 [0xD8; 0x18; 0xA9; 0x00; 0xE9; 0x01; 0x00]) in
  CPU.m_Acc s = 0xFF /\ CPU.eval (CPU.GetStatusFlag CPU.CARRY) s = 0.
Proof. vm_compute. split; reflexivity. Qed.

Example scenario_3_decimal_borrow_in :
  let s :=
    run first_ILL_slot 4
      (boot 0x0200 [0xF8; 0x18; 0xA9; 0x32; 0xE9; 0x02; 0x00]) in
  CPU.m_Acc s = 0x29 /\ CPU.eval (CPU.GetStatusFlag CPU.CARRY) s = 1.
Proof. vm_compute. split; reflexivity. Qed.

Example scenario_4_decimal_no_borrow :
  let s :=
    run first_ILL_slot 4
      (boot 0x0200 [0xF8; 0x38; 0xA9; 0x40; 0xE9; 0x13; 0x00]) in
  CPU.m_Acc s = 0x27 /\ CPU.eval (CPU.GetStatusFlag CPU.CARRY) s = 1.
Proof. vm_compute. split; reflexivity. Qed.

Example scenario_5_decimal_wrap :
  let s :=
    run first_ILL_slot 4
      (boot 0x0200 [0xF8; 0x18; 0xA9; 0x21; 0xE9; 0x34; 0x00]) in
  CPU.m_Acc s = 0x87 /\ CPU.eval (CPU.GetStatusFlag CPU.CARRY) s = 0.
Proof. vm_compute. split; reflexivity. Qed.

Example scenario_6_stack_round_trip :
  let s :=
    run first_ILL_slot 4
      (boot 0x0200 [0xA9; 0xAA; 0x48; 0xA9; 0x00; 0x68; 0x00]) in
  CPU.m_Acc s = 0xAA /\ CPU.m_SP s = 0xFD.
Proof. vm_compute. split; reflexivity. Qed.

(** * Further properties of the code *)

(** ** Memory: reads over writes *)

Section MemoryWrites.

Lemma cell_insert (m : Memory.t) (a b v : Z) :
  Memory.cell (Memory.mk (Memory.m_Size m) (<[a := v]> (Memory.m_Data m))) b
  = if b =? a then v else Memory.cell m b.
Proof.
  unfold Memory.cell. simpl.
  destruct (Z.eqb_spec b a) as [->|Hne].
  - rewrite lookup_insert_eq. reflexivity.
  - rewrite lookup_insert_ne by congruence. reflexivity.
Qed.

Lemma m_Size_WriteByte (m : Memory.t) (a v : Z) :
  Memory.m_Size (Memory.WriteByte m a v) = Memory.m_Size m.
Proof. unfold Memory.WriteByte. destruct (_ <? _); reflexivity. Qed.

(** Reading a memory after a byte write. *)
Lemma ReadByte_WriteByte (m : Memory.t) (a b data : Z) :
  Memory.ReadByte (Memory.WriteByte m a data) b
  = if (b =? a) && (a <? Memory.m_Size m) then to_byte data
    else Memory.ReadByte m b.
Proof.
  unfold Memory.ReadByte, address.value. rewrite m_Size_WriteByte.
  unfold Memory.WriteByte, address.value.
  destruct (a <? Memory.m_Size m) eqn:Ea.
  - rewrite cell_insert. destruct (Z.eqb_spec b a) as [->|Hne]; simpl.
    + rewrite Ea. reflexivity.
    + reflexivity.
  - rewrite andb_false_r. reflexivity.
Qed.

(** X1.  [Memory::WriteByte] keeps the size of the memory; a later
    [ReadByte] yields the written byte, truncated to eight bits, at the
    written address when that address is inside the memory, and what the
    memory held before at every other address.  A write outside the
    memory is dropped without a trace. *)
Theorem WriteByte_then_ReadByte (m : Memory.t) (a data : Z) :
  Memory.m_Size (Memory.WriteByte m a data) = Memory.m_Size m
  /\ forall b,
       Memory.ReadByte (Memory.WriteByte m a data) b
       = if (b =? a) && (a <? Memory.m_Size m) then data mod 256
         else Memory.ReadByte m b.
Proof.
  split; [apply m_Size_WriteByte|].
  intros b. rewrite ReadByte_WriteByte. reflexivity.
Qed.

Lemma m_Size_WriteWord (m : Memory.t) (a w : Z) :
  Memory.m_Size (Memory.WriteWord m a w) = Memory.m_Size m.
Proof.
  unfold Memory.WriteWord.
  destruct (address.value a <? Memory.m_Size m); simpl;
    destruct (_ <? _); reflexivity.
Qed.

(** [WriteWord] is the two byte writes, the second one guarded without
    wrap-around. *)
Lemma WriteWord_as_bytes (m : Memory.t) (a w : Z) :
  Memory.WriteWord m a w
  = let m1 := Memory.WriteByte m a (GET_LOW_BYTE (to_word w)) in
    if a + 1 <? Memory.m_Size m
    then Memory.mk (Memory.m_Size m1)
           (<[a + 1 := to_byte (GET_HIGH_BYTE (to_word w))]> (Memory.m_Data m1))
    else m1.
Proof.
  unfold Memory.WriteWord, Memory.WriteByte, address.value. cbv zeta.
  destruct (a <? Memory.m_Size m); reflexivity.
Qed.

Lemma GET_LOW_BYTE_range (z : Z) : 0 <= GET_LOW_BYTE z < 256.
Proof. unfold GET_LOW_BYTE. rewrite land_0xFF. apply Z.mod_pos_bound. lia. Qed.

Lemma GET_HIGH_BYTE_range (z : Z) : 0 <= GET_HIGH_BYTE z < 256.
Proof. unfold GET_HIGH_BYTE. rewrite land_0xFF. apply Z.mod_pos_bound. lia. Qed.

(** A word is made of its two bytes. *)
Lemma MAKE_WORD_GET (w : Z) :
  0 <= w < 65536 -> MAKE_WORD (GET_LOW_BYTE w) (GET_HIGH_BYTE w) = w.
Proof.
  intros Hw.
  rewrite MAKE_WORD_bytes by (apply GET_LOW_BYTE_range || apply GET_HIGH_BYTE_range).
  unfold GET_LOW_BYTE, GET_HIGH_BYTE. rewrite !land_0xFF, shiftr_8.
  rewrite (Z.mod_small (w / 256)).
  - rewrite (Z.div_mod w 256) at 3 by lia. lia.
  - split; [apply Z.div_pos; lia|apply Z.div_lt_upper_bound; lia].
Qed.

(** A word written inside the memory is read back. *)
Lemma ReadWord_WriteWord (m : Memory.t) (a w : Z) :
  0 <= a -> a + 1 < Memory.m_Size m -> a + 1 < 65536 ->
  Memory.ReadWord (Memory.WriteWord m (address.of_int a) w) (address.of_int a)
  = to_word w.
Proof.
  intros Ha Hs Hw.
  assert (Haddr : address.of_int a = a) by (apply to_word_small; lia).
  assert (Haddr1 : address.of_int (a + 1) = a + 1) by (apply to_word_small; lia).
  rewrite Haddr. unfold Memory.ReadWord, address.value. rewrite Haddr1.
  rewrite WriteWord_as_bytes. cbv zeta.
  destruct (a + 1 <? Memory.m_Size m) eqn:E; [|lia].
  unfold Memory.ReadByte, address.value. simpl.
  rewrite m_Size_WriteByte.
  destruct (a <? Memory.m_Size m) eqn:E0; [|lia]. rewrite E.
  pose proof (cell_insert (Memory.WriteByte m a (GET_LOW_BYTE (to_word w)))
                (a + 1) a (to_byte (GET_HIGH_BYTE (to_word w)))) as Hc.
  rewrite m_Size_WriteByte in Hc. rewrite Hc. clear Hc.
  pose proof (cell_insert (Memory.WriteByte m a (GET_LOW_BYTE (to_word w)))
                (a + 1) (a + 1) (to_byte (GET_HIGH_BYTE (to_word w)))) as Hc.
  rewrite m_Size_WriteByte in Hc. rewrite Hc. clear Hc.
  destruct (Z.eqb_spec a (a + 1)); [lia|]. rewrite Z.eqb_refl.
  pose proof (ReadByte_WriteByte m a a (GET_LOW_BYTE (to_word w))) as Hr.
  unfold Memory.ReadByte, address.value in Hr.
  rewrite m_Size_WriteByte, E0, Z.eqb_refl in Hr. simpl in Hr. rewrite Hr.
  rewrite !to_byte_small by (apply GET_LOW_BYTE_range || apply GET_HIGH_BYTE_range).
  rewrite MAKE_WORD_GET by (unfold to_word; apply Z.mod_pos_bound; lia).
  unfold to_word. apply Z.mod_mod. lia.
Qed.


Lemma ReadByte_range (m : Memory.t) (a : Z) :
  Memory.wf m -> 0 <= Memory.ReadByte m a < 256.
Proof.
  intros Hwf. unfold Memory.ReadByte.
  destruct (_ <? _); [apply cell_range; exact Hwf|lia].
Qed.

(** On a well-formed memory a word read is little-endian. *)
Lemma ReadWord_little_endian (m : Memory.t) (a : Z) :
  Memory.wf m ->
  Memory.ReadWord m a
  = Memory.ReadByte m a
    + 256 * Memory.ReadByte m (address.of_int (address.value a + 1)).
Proof.
  intros Hwf. unfold Memory.ReadWord.
  pose proof (ReadByte_range m a Hwf).
  pose proof (ReadByte_range m (address.of_int (address.value a + 1)) Hwf).
  rewrite MAKE_WORD_bytes by assumption. apply to_word_small. lia.
Qed.

(** X2.  A word written at the last address of a 64 KiB memory loses
    its high byte: [WriteWord] guards the second store with
    [addr.value + 1 < m_Size], computed without wrap-around, so only the
    low byte lands (at 0xFFFF) and cell 0 is untouched, while [ReadWord]
    at 0xFFFF takes its high byte from cell 0. *)
Theorem WriteWord_top_drops_high_byte (m : Memory.t) (w : Z) :
  Memory.m_Size m = MAKE_KB 64 ->
  Memory.wf m ->
  let m' := Memory.WriteWord m (address.of_int 0xFFFF) w in
  Memory.cell m' 0xFFFF = GET_LOW_BYTE (to_word w)
  /\ Memory.cell m' 0x0000 = Memory.cell m 0x0000
  /\ Memory.ReadWord m' (address.of_int 0xFFFF)
     = GET_LOW_BYTE (to_word w) + 256 * Memory.cell m 0x0000.
Proof.
  intros Hsize Hwf m'.
  assert (Hm' : m' = Memory.WriteByte m 0xFFFF (GET_LOW_BYTE (to_word w))).
  { subst m'. change (address.of_int 0xFFFF) with 0xFFFF.
    rewrite WriteWord_as_bytes. cbv zeta. rewrite Hsize. reflexivity. }
  assert (Hlo : Memory.cell m' 0xFFFF = GET_LOW_BYTE (to_word w)).
  { rewrite Hm'. unfold Memory.WriteByte, address.value. rewrite Hsize.
    change (0xFFFF <? MAKE_KB 64) with true. cbv iota.
    pose proof (cell_insert m 0xFFFF 0xFFFF (to_byte (GET_LOW_BYTE (to_word w)))) as Hc.
    rewrite Hsize in Hc. rewrite Hc. rewrite Z.eqb_refl.
    apply to_byte_small, GET_LOW_BYTE_range. }
  assert (Hhi : Memory.cell m' 0x0000 = Memory.cell m 0x0000).
  { rewrite Hm'. unfold Memory.WriteByte, address.value. rewrite Hsize.
    change (0xFFFF <? MAKE_KB 64) with true. cbv iota.
    pose proof (cell_insert m 0xFFFF 0 (to_byte (GET_LOW_BYTE (to_word w)))) as Hc.
    rewrite Hsize in Hc. rewrite Hc. reflexivity. }
  split; [exact Hlo|]. split; [exact Hhi|].
  assert (Hs' : Memory.m_Size m' = MAKE_KB 64).
  { rewrite Hm', m_Size_WriteByte. exact Hsize. }
  assert (Hwf' : Memory.wf m').
  { rewrite Hm'. apply wf_WriteByte; [lia|exact Hwf]. }
  rewrite (ReadWord_little_endian m' _ Hwf').
  change (address.of_int (address.value (address.of_int 0xFFFF) + 1)) with 0.
  unfold Memory.ReadByte, address.value. rewrite Hs'.
  change (address.of_int 65535 <? MAKE_KB 64) with true.
  change (0 <? MAKE_KB 64) with true. cbv iota.
  change (address.of_int 65535) with 65535. rewrite Hlo, Hhi. reflexivity.
Qed.


Local Abbreviation store_byte offset :=
  (fun (data : gmap Z Z) (ib : nat * Z) =>
     <[address.value offset + Z.of_nat (fst ib) := to_byte (snd ib)]> data).

Lemma imap_shift (k : nat) (l : list Z) :
  imap ((fun i b => (k + i, b)%nat) ∘ S) l
  = imap (fun i b => (S k + i, b)%nat) l.
Proof. apply imap_ext. intros i x _. simpl. f_equal. lia. Qed.

(** The copy loop: cell [offset + k + i] receives byte [i] of the list,
    every other cell keeps its value. *)
Lemma fold_store_lookup (offset : Z) (l : list Z) :
  forall (k : nat) (data : gmap Z Z) (j : Z),
    fold_left (store_byte offset) (imap (fun i b => (k + i, b)%nat) l) data !! j
    = if (offset + Z.of_nat k <=? j)
         && (j <? offset + Z.of_nat k + Z.of_nat (length l))
      then to_byte <$> l !! Z.to_nat (j - offset - Z.of_nat k)
      else data !! j.
Proof.
  unfold address.value.
  induction l as [|x l IH]; intros k data j.
  - cbn [imap fold_left length].
    destruct (Z.leb_spec (offset + Z.of_nat k) j);
      destruct (Z.ltb_spec j (offset + Z.of_nat k + Z.of_nat 0));
      cbn [andb]; try lia; reflexivity.
  - cbn [imap fold_left length]. rewrite imap_shift, IH. cbn [fst snd].
    replace (k + 0)%nat with k by lia.
    destruct (Z.leb_spec (offset + Z.of_nat (S k)) j) as [H1|H1];
      destruct (Z.ltb_spec j (offset + Z.of_nat (S k) + Z.of_nat (length l))) as [H2|H2];
      destruct (Z.leb_spec (offset + Z.of_nat k) j) as [H3|H3];
      destruct (Z.ltb_spec j (offset + Z.of_nat k + Z.of_nat (S (length l)))) as [H4|H4];
      cbn [andb]; try lia.
    all: first
      [ apply lookup_insert_ne; lia
      | assert (j = offset + Z.of_nat k) as -> by lia;
        replace (Z.to_nat (offset + Z.of_nat k - offset - Z.of_nat k))
          with 0%nat by lia;
        apply lookup_insert_eq
      | replace (Z.to_nat (j - offset - Z.of_nat k))
          with (S (Z.to_nat (j - offset - Z.of_nat (S k)))) by lia;
        reflexivity ].
Qed.

Lemma WriteBytes_lookup (m : Memory.t) (offset : Z) (bytes : list Z) (j : Z) :
  Memory.m_Data (Memory.WriteBytes m offset bytes) !! j
  = if (offset <=? j) && (j <? offset + Z.of_nat (length bytes))
       && (j <? Memory.m_Size m)
    then to_byte <$> bytes !! Z.to_nat (j - offset)
    else Memory.m_Data m !! j.
Proof.
  unfold Memory.WriteBytes, address.value.
  destruct (Z.leb_spec offset (Memory.m_Size m)) as [Hoff|Hoff].
  - cbn [Memory.m_Data].
    set (maxlen := Z.min (Z.of_nat (length bytes)) (Memory.m_Size m - offset)).
    pose proof (fold_store_lookup offset (take (Z.to_nat maxlen) bytes) 0
                  (Memory.m_Data m) j) as H.
    unfold address.value in H. cbn [Nat.add] in H. rewrite H. clear H.
    rewrite length_take.
    replace (offset + Z.of_nat 0) with offset by lia.
    replace (j - offset - Z.of_nat 0) with (j - offset) by lia.
    destruct (Z.leb_spec offset j) as [H1|H1]; cbn [andb]; [|reflexivity].
    destruct (Z.ltb_spec j (offset + Z.of_nat (length bytes))) as [H2|H2];
      destruct (Z.ltb_spec j (Memory.m_Size m)) as [H3|H3];
      destruct (Z.ltb_spec j
                  (offset + Z.of_nat (Z.to_nat maxlen `min` length bytes)))
        as [H4|H4];
      cbn [andb]; try (subst maxlen; lia); try reflexivity.
    rewrite lookup_take_lt by (subst maxlen; lia). reflexivity.
  - destruct (Z.leb_spec offset j); destruct (Z.ltb_spec j (Memory.m_Size m));
      cbn [andb]; try lia; try reflexivity.
    rewrite andb_false_r. reflexivity.
Qed.

Lemma m_Size_WriteBytes (m : Memory.t) (offset : Z) (bytes : list Z) :
  Memory.m_Size (Memory.WriteBytes m offset bytes) = Memory.m_Size m.
Proof. unfold Memory.WriteBytes. destruct (_ <=? _); reflexivity. Qed.

(** Reading a memory after a block write. *)
Lemma ReadByte_WriteBytes (m : Memory.t) (offset : Z) (bytes : list Z) (j : Z) :
  Memory.ReadByte (Memory.WriteBytes m offset bytes) j
  = if (offset <=? j) && (j <? offset + Z.of_nat (length bytes))
       && (j <? Memory.m_Size m)
    then to_byte (default 0 (bytes !! Z.to_nat (j - offset)))
    else Memory.ReadByte m j.
Proof.
  unfold Memory.ReadByte, Memory.cell, address.value.
  rewrite m_Size_WriteBytes, WriteBytes_lookup.
  destruct (Z.leb_spec offset j) as [H1|H1];
    destruct (Z.ltb_spec j (offset + Z.of_nat (length bytes))) as [H2|H2];
    destruct (Z.ltb_spec j (Memory.m_Size m)) as [H3|H3];
    cbn [andb]; try reflexivity.
  destruct (bytes !! Z.to_nat (j - offset)) as [b|] eqn:E; [reflexivity|].
  apply lookup_ge_None in E. lia.
Qed.



End MemoryWrites.

Lemma WriteWord_top_drops_high_byte_witness :
  let m := Memory.WriteByte (Memory.Make (MAKE_KB 64)) 0x0000 0xAA in
  let m' := Memory.WriteWord m (address.of_int 0xFFFF) 0x1234 in
  Memory.m_Size m = MAKE_KB 64
  /\ Memory.wf m
  /\ Memory.cell m' 0xFFFF = 0x34
  /\ Memory.cell m' 0x0000 = 0xAA
  /\ Memory.ReadWord m' (address.of_int 0xFFFF) = 0xAA34.
Proof.
  intros m m'.
  assert (Hsize : Memory.m_Size m = MAKE_KB 64) by reflexivity.
  assert (Hwf : Memory.wf m) by (apply wf_WriteByte; [lia|apply wf_new]).
  split; [exact Hsize|]. split; [exact Hwf|].
  pose proof (WriteWord_top_drops_high_byte m 0x1234 Hsize Hwf) as H.
  vm_compute in H. vm_compute. exact H.
Defined.


(** ** Buses *)

Section Devices.

Lemma ReadByte_backing (d : IODevice) (addr : Z) :
  IODevice.ReadByte d addr
  = match backing d with Some mem => Memory.ReadByte mem addr | None => 0 end.
Proof.
  revert d. fix IH 1. intros [mem|[m|]]; [reflexivity|exact (IH m)|reflexivity].
Qed.

Lemma ReadWord_backing (d : IODevice) (addr : Z) :
  IODevice.ReadWord d addr
  = match backing d with Some mem => Memory.ReadWord mem addr | None => 0 end.
Proof.
  revert d. fix IH 1. intros [mem|[m|]]; [reflexivity|exact (IH m)|reflexivity].
Qed.

Lemma backing_WriteByte (d : IODevice) (addr data : Z) :
  backing (IODevice.WriteByte d addr data)
  = (fun mem => Memory.WriteByte mem addr data) <$> backing d.
Proof.
  revert d. fix IH 1. intros [mem|[m|]]; [reflexivity|exact (IH m)|reflexivity].
Qed.

Lemma backing_WriteWord (d : IODevice) (addr data : Z) :
  backing (IODevice.WriteWord d addr data)
  = (fun mem => Memory.WriteWord mem addr data) <$> backing d.
Proof.
  revert d. fix IH 1. intros [mem|[m|]]; [reflexivity|exact (IH m)|reflexivity].
Qed.

Lemma backing_WriteBytes (d : IODevice) (addr : Z) (bytes : list Z) :
  backing (IODevice.WriteBytes d addr bytes)
  = (fun mem => Memory.WriteBytes mem addr bytes) <$> backing d.
Proof.
  revert d. fix IH 1. intros [mem|[m|]]; [reflexivity|exact (IH m)|reflexivity].
Qed.

Lemma device_size_WriteByte (d : IODevice) (addr data : Z) :
  device_size (IODevice.WriteByte d addr data) = device_size d.
Proof.
  unfold device_size. rewrite backing_WriteByte.
  destruct (backing d); simpl; [apply m_Size_WriteByte|reflexivity].
Qed.

(** Reading a device after a byte write. *)
Lemma device_ReadByte_WriteByte (d : IODevice) (a b data : Z) :
  0 <= a ->
  IODevice.ReadByte (IODevice.WriteByte d a data) b
  = if (b =? a) && (a <? device_size d) then to_byte data
    else IODevice.ReadByte d b.
Proof.
  intros Ha.
  rewrite !ReadByte_backing, backing_WriteByte. unfold device_size.
  destruct (backing d) as [mem|]; simpl.
  - apply ReadByte_WriteByte.
  - destruct (b =? a); simpl; [|reflexivity].
    destruct (Z.ltb_spec a 0); [lia|reflexivity].
Qed.

(** X5.  A word written through any chain of buses is read back through
    it, truncated to sixteen bits, when both of its bytes lie inside the
    memory behind the chain. *)
Theorem WriteWord_then_ReadWord (d : IODevice) (a w : Z) :
  0 <= a -> a + 1 < device_size d -> a + 1 < 65536 ->
  IODevice.ReadWord (IODevice.WriteWord d (address.of_int a) w)
    (address.of_int a)
  = w mod 65536.
Proof.
  intros Ha Hsize Hw. unfold device_size in Hsize.
  rewrite ReadWord_backing, backing_WriteWord.
  destruct (backing d) as [mem|]; [|lia]. cbn [fmap option_fmap option_map].
  apply ReadWord_WriteWord; assumption.
Qed.

(** X6.  A [Bus] adds nothing of its own: reads through a chain of
    buses are the reads of the memory at its end (0 when the chain ends
    in an unattached bus), and writes through it are the writes of that
    memory. *)
Theorem bus_is_transparent (d : IODevice) (addr data : Z) (bytes : list Z) :
  IODevice.ReadByte d addr
  = match backing d with Some mem => Memory.ReadByte mem addr | None => 0 end
  /\ IODevice.ReadWord d addr
     = match backing d with Some mem => Memory.ReadWord mem addr | None => 0 end
  /\ backing (IODevice.WriteByte d addr data)
     = (fun mem => Memory.WriteByte mem addr data) <$> backing d
  /\ backing (IODevice.WriteWord d addr data)
     = (fun mem => Memory.WriteWord mem addr data) <$> backing d
  /\ backing (IODevice.WriteBytes d addr bytes)
     = (fun mem => Memory.WriteBytes mem addr bytes) <$> backing d.
Proof.
  split; [apply ReadByte_backing|]. split; [apply ReadWord_backing|].
  split; [apply backing_WriteByte|]. split; [apply backing_WriteWord|].
  apply backing_WriteBytes.
Qed.

End Devices.

Lemma WriteWord_then_ReadWord_witness :
  let d :=
    Bus.Make (Some (Bus.Make (Some (IOMemory (Memory.Make (MAKE_KB 64)))))) in
  0 <= 0x1000
  /\ 0x1000 + 1 < device_size d
  /\ 0x1000 + 1 < 65536
  /\ IODevice.ReadWord (IODevice.WriteWord d (address.of_int 0x1000) 0x1BEEF)
       (address.of_int 0x1000) = 0xBEEF.
Proof.
  intros d.
  assert (Ha : 0 <= 0x1000) by lia.
  assert (Esize : device_size d = 65536) by reflexivity.
  assert (Hsize : 0x1000 + 1 < device_size d) by (rewrite Esize; lia).
  assert (Hw : 0x1000 + 1 < 65536) by lia.
  split; [exact Ha|]. split; [exact Hsize|]. split; [exact Hw|].
  pose proof (WriteWord_then_ReadWord d 0x1000 0x1BEEF Ha Hsize Hw) as H.
  vm_compute in H. vm_compute. exact H.
Defined.

(** Runs the monadic plumbing of a handler on a state given as a record
    and leaves bus accesses, flag updates and arithmetic folded. *)
Ltac cpu_run :=
  cbv beta iota zeta delta
    [CPU.exec CPU.eval CPU.bind CPU.get CPU.ret fst snd
     CPU.set_PC CPU.set_SP CPU.set_Acc CPU.set_X CPU.set_Y
     CPU.set_ProcStatus CPU.set_Bus CPU.set_CyclesRem CPU.set_CyclesExecuted
     CPU.ClearSupplied CPU.SetSupplied CPU.PC_increment
     CPU.ReadByte CPU.ReadWord CPU.WriteByte CPU.FetchData
     CPU.PushToStack CPU.PullFromStack
     CPU.m_PC CPU.m_SP CPU.m_Acc CPU.m_X CPU.m_Y CPU.m_ProcStatus CPU.m_Bus
     CPU.m_CyclesRem CPU.m_CyclesExecuted CPU.m_WasSupplied
     CPU.m_SuppliedValue].

(** ** The stack *)

Section StackLemmas.
Import CPU.
Local Open Scope cpu_scope.

Lemma stack_slot (sp : Z) :
  0 <= sp < 256 -> address.of_int (ADDRESS_STACK + sp) = 0x100 + sp.
Proof. intros H. unfold address.of_int, ADDRESS_STACK. apply to_word_small. lia. Qed.

Lemma sp_down_up (sp : Z) : 0 <= sp < 256 -> to_byte (to_byte (sp - 1) + 1) = sp.
Proof.
  intros H. unfold to_byte.
  destruct (Z.eq_dec sp 0) as [->|Hne]; [reflexivity|].
  rewrite (Z.mod_small (sp - 1)) by lia.
  replace (sp - 1 + 1) with sp by lia. apply Z.mod_small. lia.
Qed.

Lemma SetStatusFlag_run (f : StatusFlag) (v : bool) (s : t) :
  SetStatusFlag f v s
  = (tt, mk (m_PC s) (m_SP s) (m_Acc s) (m_X s) (m_Y s)
            (status_with (m_ProcStatus s) f v) (m_Bus s) (m_CyclesRem s)
            (m_CyclesExecuted s) (m_WasSupplied s) (m_SuppliedValue s)).
Proof. destruct v; reflexivity. Qed.

Lemma testbit_status_with (p : Z) (f : StatusFlag) (v : bool) (n : Z) :
  0 <= n < 8 ->
  Z.testbit (status_with p f v) n
  = if n =? flag_bit f then v else Z.testbit p n.
Proof.
  intros Hn.
  pose proof (testbit_SetStatusFlag f v (mk 0 0 0 0 0 p None 0 0 false 0) n Hn)
    as H.
  cbn [m_ProcStatus] in H. rewrite <- H. destruct v; reflexivity.
Qed.

Lemma status_with_range (p : Z) (f : StatusFlag) (v : bool) :
  0 <= status_with p f v < 256.
Proof. destruct v; apply to_byte_range. Qed.

(** Two bytes with the same eight bits are equal. *)
Lemma byte_eq_bits (a b : Z) :
  0 <= a < 256 -> 0 <= b < 256 ->
  (forall n, 0 <= n < 8 -> Z.testbit a n = Z.testbit b n) -> a = b.
Proof.
  intros Ha Hb H.
  rewrite <- (Z.mod_small a 256), <- (Z.mod_small b 256) by assumption.
  change 256 with (2 ^ 8). apply Z.bits_inj'. intros n Hn.
  destruct (Z.lt_ge_cases n 8) as [Hlt|Hge].
  - rewrite !Z.mod_pow2_bits_low by lia. apply H. lia.
  - rewrite !Z.mod_pow2_bits_high by lia. reflexivity.
Qed.

End StackLemmas.

Ltac stack_arith :=
  unfold address.of_int, address.value, ADDRESS_STACK, to_byte, to_word in *;
  Z.div_mod_to_equations; lia.

(** Decides the address comparisons left by reads over stack writes. *)
Ltac decide_slots :=
  rewrite ?sp_down_up by (assumption || apply to_byte_range);
  rewrite ?Z.eqb_refl;
  repeat match goal with
  | |- context [Z.eqb (address.of_int ?a) (address.of_int ?b)] =>
      destruct (Z.eqb_spec (address.of_int a) (address.of_int b));
      [exfalso; stack_arith|]
  | |- context [Z.ltb (address.of_int ?a) (device_size ?d)] =>
      destruct (Z.ltb_spec (address.of_int a) (device_size d));
      [|exfalso; stack_arith]
  end;
  cbn [andb].

(** [cpu_run] through the flag updates too. *)
Ltac cpu_steps :=
  repeat (progress (cpu_run; rewrite ?SetStatusFlag_run)).

Section Stack.
Import CPU.
Local Open Scope cpu_scope.

(** X7.  What [PushToStack] stores, [PullFromStack] returns: with the
    stack slot [0x0100 + SP] inside the memory behind the bus, a pull
    right after a push yields the pushed byte (truncated to eight bits)
    and puts the stack pointer back; the push itself lowers the stack
    pointer by one, wrapping from 0x00 to 0xFF. *)
Theorem Pull_after_Push (s : t) (data : Z) :
  0 <= m_SP s < 256 ->
  0x100 + m_SP s < bus_size s ->
  let s' := exec (PushToStack data) s in
  eval PullFromStack s' = to_byte data
  /\ m_SP (exec PullFromStack s') = m_SP s
  /\ m_SP s' = to_byte (m_SP s - 1).
Proof.
  intros Hsp Hsize s'. subst s'.
  destruct s as [pc sp a x y p bus rem ce ws sv].
  cbn [m_SP] in Hsp. unfold bus_size in Hsize. cbn [m_Bus m_SP] in Hsize.
  destruct bus as [d|]; [|lia].
  cpu_run.
  rewrite sp_down_up, stack_slot by exact Hsp.
  rewrite device_ReadByte_WriteByte, Z.eqb_refl by lia.
  destruct (Z.ltb_spec (0x100 + sp) (device_size d)); [|lia].
  repeat split.
Qed.


Lemma testbit_7_IS_NEGATIVE (v : Z) :
  nonzero (IS_NEGATIVE v) = Z.testbit v 7.
Proof. exact (nonzero_land_flag v NEGATIVE). Qed.

(** Bit 7 of a byte is set from 0x80 on. *)
Lemma testbit_7_byte (v : Z) : 0 <= v < 256 -> Z.testbit v 7 = (0x80 <=? v).
Proof.
  intros H. apply (eqb_prop _ _).
  apply (forall_below (fun v => Bool.eqb (Z.testbit v 7) (0x80 <=? v)) 256);
    [vm_compute; reflexivity|exact H].
Qed.

(** X9.  PLA undoes PHA: after PHA then PLA the accumulator and the
    stack pointer are what they were, and PLA has set the Z flag exactly
    when the accumulator is zero and the N flag exactly when its bit 7
    is set. *)
Theorem PLA_after_PHA (s : t) (addr addr' : address.t) :
  0 <= m_SP s < 256 ->
  0 <= m_Acc s < 256 ->
  0x100 + m_SP s < bus_size s ->
  let s' := exec (Ins_PLA addr') (exec (Ins_PHA addr) s) in
  m_Acc s' = m_Acc s
  /\ m_SP s' = m_SP s
  /\ eval (HasStatusFlag ZERO) s' = (m_Acc s =? 0)
  /\ eval (HasStatusFlag NEGATIVE) s' = (0x80 <=? m_Acc s).
Proof.
  intros Hsp Ha Hsize s'. subst s'.
  rewrite !HasStatusFlag_testbit.
  destruct s as [pc sp a x y p bus rem ce ws sv].
  cbn [m_SP m_Acc] in *. unfold bus_size in Hsize. cbn [m_Bus] in Hsize.
  destruct bus as [d|]; [|lia].
  unfold Ins_PHA, Ins_PLA. cpu_steps.
  rewrite !device_ReadByte_WriteByte by stack_arith.
  decide_slots.
  rewrite !testbit_status_with by (simpl; lia). cbn [flag_bit Z.eqb].
  rewrite testbit_7_IS_NEGATIVE.
  rewrite !(to_byte_small a) by exact Ha.
  split; [reflexivity|]. split; [stack_arith|]. split; [reflexivity|].
  apply testbit_7_byte. exact Ha.
Qed.

(** X10.  PLP after PHP restores the stack pointer and the status
    byte with bit 5 (unused) forced to 1; a status byte that already has
    bit 5 set comes back unchanged. *)
Theorem PLP_after_PHP (s : t) (addr addr' : address.t) :
  0 <= m_SP s < 256 ->
  0 <= m_ProcStatus s < 256 ->
  0x100 + m_SP s < bus_size s ->
  let s' := exec (Ins_PLP addr') (exec (Ins_PHP addr) s) in
  m_ProcStatus s' = Z.lor (m_ProcStatus s) 0x20
  /\ m_SP s' = m_SP s
  /\ (Z.testbit (m_ProcStatus s) 5 = true -> m_ProcStatus s' = m_ProcStatus s).
Proof.
  intros Hsp Hp Hsize s'. subst s'.
  destruct s as [pc sp a x y p bus rem ce ws sv].
  cbn [m_SP m_ProcStatus] in *. unfold bus_size in Hsize. cbn [m_Bus] in Hsize.
  destruct bus as [d|]; [|lia].
  unfold Ins_PHP, Ins_PLP. cpu_steps.
  rewrite !device_ReadByte_WriteByte by stack_arith.
  decide_slots.
  rewrite !(to_byte_small p) by exact Hp.
  assert (Hlor : status_with p UNUSED true = Z.lor p 0x20).
  { unfold status_with. apply Z.eqb_eq.
    apply (forall_below (fun p => to_byte (Z.lor p (flag_value UNUSED)) =? Z.lor p 0x20)
             256); [vm_compute; reflexivity|exact Hp]. }
  rewrite Hlor. split; [reflexivity|]. split; [stack_arith|].
  intros HU. apply byte_eq_bits; [rewrite <- Hlor; apply status_with_range|exact Hp|].
  intros n Hn. rewrite Z.lor_spec.
  destruct (Z.eq_dec n 5) as [->|Hne].
  - rewrite HU. reflexivity.
  - replace (Z.testbit 32 n) with false; [apply orb_false_r|].
    change 32 with (2 ^ 5). rewrite Z.pow2_bits_eqb by lia.
    symmetry. apply Z.eqb_neq. lia.
Qed.

(** X11.  RTI after NMI restores the program counter and the stack
    pointer.  The status byte is not the interrupted one: NMI pushes it
    after clearing B and setting I and U, so RTI returns with bit 4
    clear, bits 2 and 5 set, and the other five bits as they were. *)
Theorem RTI_after_NMI (s : t) (addr : address.t) :
  0 <= m_SP s < 256 ->
  0 <= m_PC s < 65536 ->
  0x200 <= bus_size s ->
  let s' := exec (Ins_RTI addr) (exec NMI s) in
  m_PC s' = m_PC s
  /\ m_SP s' = m_SP s
  /\ forall n, 0 <= n < 8 ->
       Z.testbit (m_ProcStatus s') n
       = if n =? 4 then false
         else if (n =? 2) || (n =? 5) then true
         else Z.testbit (m_ProcStatus s) n.
Proof.
  intros Hsp Hpc Hsize s'. subst s'.
  destruct s as [pc sp a x y p bus rem ce ws sv].
  cbn [m_SP m_PC m_ProcStatus] in *. unfold bus_size in Hsize. cbn [m_Bus] in Hsize.
  destruct bus as [d|]; [|lia].
  unfold Ins_RTI, NMI. cpu_steps.
  rewrite !device_ReadByte_WriteByte, !device_size_WriteByte by stack_arith.
  decide_slots.
  rewrite !to_byte_small
    by (apply GET_LOW_BYTE_range || apply GET_HIGH_BYTE_range
        || apply status_with_range || apply to_byte_range).
  rewrite MAKE_WORD_GET by exact Hpc.
  split; [apply to_word_small; exact Hpc|]. split; [stack_arith|].
  intros k Hk. rewrite !testbit_status_with by exact Hk. cbn [flag_bit].
  destruct (Z.eqb_spec k 5) as [->|H5]; [reflexivity|].
  destruct (Z.eqb_spec k 2) as [->|H2]; [reflexivity|].
  destruct (Z.eqb_spec k 4) as [->|H4]; reflexivity.
Qed.

End Stack.

Lemma Pull_after_Push_witness :
  let s := boot 0x0200 [0xEA] in
  let s' := CPU.exec (CPU.PushToStack 0x1234) s in
  0 <= CPU.m_SP s < 256
  /\ 0x100 + CPU.m_SP s < bus_size s
  /\ CPU.eval CPU.PullFromStack s' = 0x34
  /\ CPU.m_SP (CPU.exec CPU.PullFromStack s') = 0xFD
  /\ CPU.m_SP s' = 0xFC.
Proof.
  intros s s'.
  assert (Esp : CPU.m_SP s = 0xFD) by (vm_compute; reflexivity).
  assert (Esize : bus_size s = 65536) by (vm_compute; reflexivity).
  assert (Hsp : 0 <= CPU.m_SP s < 256) by (rewrite Esp; lia).
  assert (Hsize : 0x100 + CPU.m_SP s < bus_size s)
    by (rewrite Esp, Esize; lia).
  split; [exact Hsp|]. split; [exact Hsize|].
  pose proof (Pull_after_Push s 0x1234 Hsp Hsize) as H.
  vm_compute in H. vm_compute. exact H.
Defined.


Lemma PLA_after_PHA_witness :
  let s := run first_ILL_slot 1 (boot 0x0200 [0xA9; 0x80; 0x00]) in
  let addr := address.of_int 0 in
  let s' := CPU.exec (CPU.Ins_PLA addr) (CPU.exec (CPU.Ins_PHA addr) s) in
  0 <= CPU.m_SP s < 256
  /\ 0 <= CPU.m_Acc s < 256
  /\ 0x100 + CPU.m_SP s < bus_size s
  /\ CPU.m_Acc s' = 0x80
  /\ CPU.m_SP s' = 0xFD
  /\ CPU.eval (CPU.HasStatusFlag CPU.ZERO) s' = false
  /\ CPU.eval (CPU.HasStatusFlag CPU.NEGATIVE) s' = true.
Proof.
  intros s addr s'.
  assert (Esp : CPU.m_SP s = 0xFD) by (vm_compute; reflexivity).
  assert (Ea : CPU.m_Acc s = 0x80) by (vm_compute; reflexivity).
  assert (Esize : bus_size s = 65536) by (vm_compute; reflexivity).
  assert (Hsp : 0 <= CPU.m_SP s < 256) by (rewrite Esp; lia).
  assert (Ha : 0 <= CPU.m_Acc s < 256) by (rewrite Ea; lia).
  assert (Hsize : 0x100 + CPU.m_SP s < bus_size s)
    by (rewrite Esp, Esize; lia).
  split; [exact Hsp|]. split; [exact Ha|]. split; [exact Hsize|].
  pose proof (PLA_after_PHA s addr addr Hsp Ha Hsize) as H.
  vm_compute in H. vm_compute. exact H.
Defined.

Lemma PLP_after_PHP_witness :
  let s := run first_ILL_slot 1 (boot 0x0200 [0x38; 0x00]) in
  let addr := address.of_int 0 in
  let s' := CPU.exec (CPU.Ins_PLP addr) (CPU.exec (CPU.Ins_PHP addr) s) in
  0 <= CPU.m_SP s < 256
  /\ 0 <= CPU.m_ProcStatus s < 256
  /\ 0x100 + CPU.m_SP s < bus_size s
  /\ CPU.m_ProcStatus s' = 0x21
  /\ CPU.m_SP s' = 0xFD.
Proof.
  intros s addr s'.
  assert (Esp : CPU.m_SP s = 0xFD) by (vm_compute; reflexivity).
  assert (Ep : CPU.m_ProcStatus s = 0x21) by (vm_compute; reflexivity).
  assert (Esize : bus_size s = 65536) by (vm_compute; reflexivity).
  assert (Hsp : 0 <= CPU.m_SP s < 256) by (rewrite Esp; lia).
  assert (Hp : 0 <= CPU.m_ProcStatus s < 256) by (rewrite Ep; lia).
  assert (Hsize : 0x100 + CPU.m_SP s < bus_size s)
    by (rewrite Esp, Esize; lia).
  split; [exact Hsp|]. split; [exact Hp|]. split; [exact Hsize|].
  destruct (PLP_after_PHP s addr addr Hsp Hp Hsize) as (H1 & H2 & _).
  vm_compute in H1, H2. split; vm_compute; assumption.
Defined.

Lemma RTI_after_NMI_witness :
  let s := boot 0x0200 [0xEA] in
  let addr := address.of_int 0 in
  let s' := CPU.exec (CPU.Ins_RTI addr) (CPU.exec CPU.NMI s) in
  0 <= CPU.m_SP s < 256
  /\ 0 <= CPU.m_PC s < 65536
  /\ 0x200 <= bus_size s
  /\ CPU.m_PC s' = 0x0200
  /\ CPU.m_SP s' = 0xFD
  /\ Z.testbit (CPU.m_ProcStatus s') 2 = true.
Proof.
  intros s addr s'.
  assert (Esp : CPU.m_SP s = 0xFD) by (vm_compute; reflexivity).
  assert (Epc : CPU.m_PC s = 0x0200) by (vm_compute; reflexivity).
  assert (Esize : bus_size s = 65536) by (vm_compute; reflexivity).
  assert (Hsp : 0 <= CPU.m_SP s < 256) by (rewrite Esp; lia).
  assert (Hpc : 0 <= CPU.m_PC s < 65536) by (rewrite Epc; lia).
  assert (Hsize : 0x200 <= bus_size s) by (rewrite Esize; lia).
  split; [exact Hsp|]. split; [exact Hpc|]. split; [exact Hsize|].
  destruct (RTI_after_NMI s addr Hsp Hpc Hsize) as (H1 & H2 & H3).
  pose proof (H3 2 ltac:(lia)) as H4. clear H3.
  vm_compute in H1, H2, H4.
  split; [|split]; vm_compute; assumption.
Defined.

(** ** Interrupt requests *)

Section Interrupts.
Import CPU.
Local Open Scope cpu_scope.

Lemma IRQ_masked (s : t) :
  eval (HasStatusFlag INTERRUPT) s = true -> exec IRQ s = s.
Proof.
  intros H. unfold IRQ. rewrite exec_bind, H. reflexivity.
Qed.

Lemma IRQ_sets_INTERRUPT (s : t) :
  eval (HasStatusFlag INTERRUPT) s = false ->
  eval (HasStatusFlag INTERRUPT) (exec IRQ s) = true.
Proof.
  intros H. rewrite HasStatusFlag_testbit.
  unfold IRQ. rewrite exec_bind, H. cbn [Bool.eqb].
  rewrite exec_HasStatusFlag.
  destruct s as [pc sp a x y p bus rem ce ws sv].
  destruct bus as [d|]; cpu_steps;
    rewrite !testbit_status_with by (simpl; lia); reflexivity.
Qed.

(** X12.  IRQ is idempotent: the first call either finds the I flag
    set and does nothing, or sets it, so that a second call right after
    the first changes nothing. *)
Theorem IRQ_idempotent (s : t) :
  exec IRQ (exec IRQ s) = exec IRQ s.
Proof.
  destruct (eval (HasStatusFlag INTERRUPT) s) eqn:E.
  - rewrite !(IRQ_masked s E). reflexivity.
  - apply IRQ_masked, IRQ_sets_INTERRUPT, E.
Qed.

End Interrupts.

(** ** The clock *)

Section ClockTicks.
Import CPU.
Local Open Scope cpu_scope.
Variable past_the_end : InstructionDetail.

(** A tick of a busy CPU only moves the two counters. *)
Lemma Tick_busy (s : t) :
  0 < m_CyclesRem s ->
  Tick past_the_end s
  = (0 <? to_byte (m_CyclesRem s - 1),
     mk (m_PC s) (m_SP s) (m_Acc s) (m_X s) (m_Y s) (m_ProcStatus s) (m_Bus s)
        (to_byte (m_CyclesRem s - 1)) ((m_CyclesExecuted s + 1) mod 2 ^ 32)
        (m_WasSupplied s) (m_SuppliedValue s)).
Proof.
  intros H. destruct s as [pc sp a x y p bus rem ce ws sv].
  cbn [m_CyclesRem] in H. unfold Tick. cpu_run.
  destruct (Z.ltb_spec 0 rem); [reflexivity|lia].
Qed.

(** The value [Tick] returns is whether cycles remain, and the counter
    it leaves is a byte. *)
Lemma Tick_result (s : t) :
  0 <= m_CyclesRem s < 256 ->
  eval (Tick past_the_end) s = (0 <? m_CyclesRem (exec (Tick past_the_end) s))
  /\ 0 <= m_CyclesRem (exec (Tick past_the_end) s) < 256.
Proof.
  intros Hrem.
  destruct (Z.ltb_spec 0 (m_CyclesRem s)) as [Hbusy|Hidle].
  - unfold eval, exec. rewrite (Tick_busy s Hbusy). cbn [fst snd m_CyclesRem].
    split; [reflexivity|apply to_byte_range].
  - unfold Tick. rewrite !eval_bind, !exec_bind.
    rewrite !exec_get, !eval_get.
    change (m_CyclesRem (exec (set_CyclesExecuted ?v) s)) with (m_CyclesRem s).
    destruct (Z.ltb_spec 0 (m_CyclesRem s)) as [?|_]; [lia|].
    rewrite !eval_bind, !exec_bind, !exec_get, !eval_get, eval_ret, exec_ret.
    match goal with
    | |- context [exec (SetStatusFlag UNUSED true) (exec (set_CyclesRem ?v) ?s')] =>
        change (m_CyclesRem (exec (SetStatusFlag UNUSED true)
                               (exec (set_CyclesRem v) s')))
          with v
    end.
    split; [reflexivity|apply to_byte_range].
Qed.


Lemma Execute_busy (fuel : nat) :
  forall s : t,
  0 < m_CyclesRem s < 256 ->
  m_CyclesRem s <= Z.of_nat fuel ->
  Execute past_the_end fuel s
  = mk (m_PC s) (m_SP s) (m_Acc s) (m_X s) (m_Y s) (m_ProcStatus s) (m_Bus s)
       0 ((m_CyclesExecuted s + m_CyclesRem s) mod 2 ^ 32)
       (m_WasSupplied s) (m_SuppliedValue s).
Proof.
  induction fuel as [|fuel IH]; intros s Hrem Hfuel; [lia|].
  cbn [Execute]. rewrite (Tick_busy s) by lia. cbn [fst snd].
  rewrite (to_byte_small (m_CyclesRem s - 1)) by lia.
  destruct (Z.ltb_spec 0 (m_CyclesRem s - 1)) as [Hmore|Hlast].
  - rewrite IH by (cbn [m_CyclesRem]; lia).
    cbn [m_PC m_SP m_Acc m_X m_Y m_ProcStatus m_Bus m_CyclesRem
         m_CyclesExecuted m_WasSupplied m_SuppliedValue].
    f_equal. rewrite Zplus_mod_idemp_l. f_equal. lia.
  - replace (m_CyclesRem s) with 1 by lia. reflexivity.
Qed.

(** X13.  The shell's [E] command, [while (cpu.Tick()) {}], stops
    within 256 ticks with no cycle left on the counter.  On a CPU that
    is still paying for an instruction it runs exactly the remaining
    cycles: registers, status and bus are untouched and the executed-cycle
    count grows by the cycles that remained (modulo 2^32). *)
Theorem Execute_finishes_the_instruction (s : t) :
  0 <= m_CyclesRem s < 256 ->
  let s' := Execute past_the_end 256 s in
  m_CyclesRem s' = 0
  /\ (0 < m_CyclesRem s ->
      m_PC s' = m_PC s /\ m_SP s' = m_SP s /\ m_Acc s' = m_Acc s
      /\ m_X s' = m_X s /\ m_Y s' = m_Y s
      /\ m_ProcStatus s' = m_ProcStatus s /\ m_Bus s' = m_Bus s
      /\ m_CyclesExecuted s'
         = (m_CyclesExecuted s + m_CyclesRem s) mod 2 ^ 32).
Proof.
  intros Hrem s'. subst s'. split.
  - destruct (Z.ltb_spec 0 (m_CyclesRem s)) as [Hbusy|Hidle].
    + rewrite Execute_busy by (change (Z.of_nat 256) with 256; lia).
      reflexivity.
    + change (Execute past_the_end 256 s)
        with (if fst (Tick past_the_end s)
              then Execute past_the_end 255 (snd (Tick past_the_end s))
              else snd (Tick past_the_end s)).
      destruct (Tick_result s Hrem) as [Hret Hbyte].
      unfold eval in Hret. unfold exec in Hret, Hbyte. rewrite Hret.
      destruct (Z.ltb_spec 0 (m_CyclesRem (snd (Tick past_the_end s))))
        as [Hmore|Hdone].
      * rewrite Execute_busy by (change (Z.of_nat 255) with 255; lia).
        reflexivity.
      * lia.
  - intros Hbusy.
    rewrite Execute_busy by (change (Z.of_nat 256) with 256; lia).
    repeat split.
Qed.

End ClockTicks.

Lemma Execute_finishes_the_instruction_witness :
  let pte := first_ILL_slot in
  let s := CPU.exec (CPU.Tick pte) (boot 0x0200 [0xA9; 0x42; 0x00]) in
  let s' := CPU.Execute pte 256 s in
  0 <= CPU.m_CyclesRem s < 256
  /\ 0 < CPU.m_CyclesRem s
  /\ CPU.m_CyclesRem s' = 0
  /\ CPU.m_PC s' = 0x0202
  /\ CPU.m_Acc s' = 0x42
  /\ CPU.m_CyclesExecuted s' = 3.
Proof.
  intros pte s s'.
  assert (Erem : CPU.m_CyclesRem s = 2) by (vm_compute; reflexivity).
  assert (Hrem : 0 <= CPU.m_CyclesRem s < 256) by (rewrite Erem; lia).
  assert (Hbusy : 0 < CPU.m_CyclesRem s) by (rewrite Erem; lia).
  split; [exact Hrem|]. split; [exact Hbusy|].
  destruct (Execute_finishes_the_instruction pte s Hrem) as [H0 H].
  destruct (H Hbusy) as (H1 & _ & H3 & _ & _ & _ & _ & H8).
  vm_compute in H0, H1, H3, H8.
  split; [|split; [|split]]; vm_compute; assumption.
Defined.

(** ** Addressing modes *)

Section Addressing.
Import CPU.
Local Open Scope cpu_scope.

Lemma to_word_succ (z : Z) : to_word (to_word z + 1) = to_word (z + 1).
Proof. unfold to_word. apply Zplus_mod_idemp_l. Qed.

(** The program counter after each addressing routine. *)
Lemma m_PC_ExecuteAddressing (mode : AddressMode.t) (c : Z) (s : t) :
  m_PC (exec (ExecuteAddressing mode c) s)
  = match mode with
    | AddressMode.ABS | AddressMode.ABX | AddressMode.ABY | AddressMode.IND =>
        to_word (m_PC s + 2)
    | AddressMode.ACC | AddressMode.IMP | AddressMode.ILL => m_PC s
    | _ => to_word (m_PC s + 1)
    end.
Proof.
  destruct s as [pc sp a x y p bus rem ce ws sv].
  destruct mode; unfold ExecuteAddressing;
    unfold Addr_ABS, Addr_ABX, Addr_ABY, Addr_ACC, Addr_IMM, Addr_IMP,
      Addr_IND, Addr_INX, Addr_INY, Addr_REL, Addr_ZPG, Addr_ZPX, Addr_ZPY;
    cpu_run;
    repeat match goal with
    | |- context [if ?b then _ else _] => destruct b
    end;
    cbn [m_PC]; rewrite ?to_word_succ;
    try reflexivity; rewrite <- Z.add_assoc; reflexivity.
Qed.

Lemma In_InstructionDetails_check (P : InstructionDetail -> bool)
  (d : InstructionDetail) :
  forallb P InstructionDetails = true -> In d InstructionDetails -> P d = true.
Proof. intros H Hd. rewrite forallb_forall in H. exact (H d Hd). Qed.

(** X14.  The opcode table and the addressing routines agree on
    instruction length: for every row of [InstructionDetails], running
    [ExecuteAddressing] on the row's addressing mode advances the program
    counter by the row's [bytesUsed] less the opcode byte (modulo
    2^16). *)
Theorem ExecuteAddressing_consumes_the_operand
  (d : InstructionDetail) (c : Z) (s : t) :
  In d InstructionDetails ->
  0 <= m_PC s < 65536 ->
  m_PC (exec (ExecuteAddressing (addressing d) c) s)
  = to_word (m_PC s + (bytesUsed d - 1)).
Proof.
  intros Hd Hpc. rewrite m_PC_ExecuteAddressing.
  pose proof (In_InstructionDetails_check
    (fun d => bytesUsed d =?
       match addressing d with
       | AddressMode.ABS | AddressMode.ABX | AddressMode.ABY
       | AddressMode.IND => 3
       | AddressMode.ACC | AddressMode.IMP | AddressMode.ILL => 1
       | _ => 2
       end) d) as H.
  cbv beta in H. apply Z.eqb_eq in H; [|vm_compute; reflexivity|exact Hd].
  rewrite H.
  destruct (addressing d); cbn [Z.sub Z.add Z.opp Z.pos_sub Pos.pred_double];
    rewrite ?Z.add_0_r, ?to_word_small by lia; reflexivity.
Qed.

(** X15.  Zero-page indexed addressing wraps inside page zero: the
    address [Addr_ZPX] ([Addr_ZPY]) returns is the operand byte plus X
    (plus Y) modulo 256, so its page is 0 whatever the register holds. *)
Theorem zero_page_indexed_wraps (s : t) :
  let operand := eval (ReadByte (address.of_int (m_PC s))) s in
  fst (eval Addr_ZPX s) = (operand + m_X s) mod 256
  /\ fst (eval Addr_ZPY s) = (operand + m_Y s) mod 256
  /\ address.page (fst (eval Addr_ZPX s)) = 0
  /\ address.page (fst (eval Addr_ZPY s)) = 0.
Proof.
  intros operand.
  assert (H : forall z, address.of_int (Z.land z 0x00FF) = z mod 256
                        /\ address.page (address.of_int (Z.land z 0x00FF)) = 0).
  { intros z. rewrite land_0xFF.
    pose proof (Z.mod_pos_bound z 256 ltac:(lia)) as Hz.
    unfold address.of_int. rewrite to_word_small by lia. split; [reflexivity|].
    unfold address.page, GET_HIGH_BYTE. rewrite shiftr_8.
    rewrite Z.div_small by lia. reflexivity. }
  subst operand. destruct s as [pc sp a x y p bus rem ce ws sv].
  unfold Addr_ZPX, Addr_ZPY. cpu_run.
  repeat split; apply H.
Qed.

End Addressing.

Lemma ExecuteAddressing_consumes_the_operand_witness :
  let d := row 0xAD Instruction.LDA AddressMode.ABS 3 4 false in
  let s := boot 0x0200 [0x34; 0x12] in
  In d InstructionDetails
  /\ 0 <= CPU.m_PC s < 65536
  /\ CPU.m_PC (CPU.exec (CPU.ExecuteAddressing (addressing d) 0) s) = 0x0202.
Proof.
  intros d s.
  assert (Hd : In d InstructionDetails).
  { apply list_elem_of_In, (list_elem_of_lookup_2 _ 173%nat). reflexivity. }
  assert (Epc : CPU.m_PC s = 0x0200) by (vm_compute; reflexivity).
  assert (Hpc : 0 <= CPU.m_PC s < 65536) by (rewrite Epc; lia).
  split; [exact Hd|]. split; [exact Hpc|].
  pose proof (ExecuteAddressing_consumes_the_operand d 0 s Hd Hpc) as H.
  vm_compute in H. vm_compute. exact H.
Defined.

(** Reads a flag of a state written as flag updates over [s]. *)
Ltac read_flag :=
  rewrite ?HasStatusFlag_testbit, ?GetStatusFlag_testbit,
    ?m_ProcStatus_set_Acc;
  rewrite !testbit_SetStatusFlag by (simpl; lia);
  cbn [CPU.flag_bit Z.eqb Pos.eqb].

(** ** Add with carry *)

Section Add.
Import CPU.
Local Open Scope cpu_scope.

Lemma Ins_ADC_binary_exec (s : t) (addr : address.t) :
  eval (HasStatusFlag DECIMAL) s = false ->
  let carry := to_word (eval (GetStatusFlag CARRY) s) in
  let acc := to_word (m_Acc s) in
  let val := to_word (eval (FetchData addr) s) in
  let result := to_word (acc + val + carry) in
  exec (Ins_ADC addr) s
  = exec (set_Acc (to_byte (GET_LOW_BYTE result)))
      (exec (SetStatusFlag NEGATIVE (nonzero (IS_NEGATIVE result)))
         (exec (SetStatusFlag ZERO (GET_LOW_BYTE result =? 0))
            (exec (SetStatusFlag INT_OVERFLOW
                     (nonzero (Z.land (Z.land (Z.lnot (Z.lxor acc val))
                                              (Z.lxor acc result)) 0x0080)))
               (exec (SetStatusFlag CARRY (0xFF <? result)) s)))).
Proof.
  intros HD. unfold Ins_ADC.
  rewrite exec_bind, exec_HasStatusFlag, HD.
  by_operand_cases s.
Qed.

Lemma Ins_ADC_decimal_exec (s : t) (addr : address.t) :
  eval (HasStatusFlag DECIMAL) s = true ->
  let acc := m_Acc s in
  let acc_i := Z.land acc 0xF + Z.land (Z.shiftr acc 4) 0xF * 10 in
  let val := eval (FetchData addr) s in
  let val_i := Z.land val 0xF + Z.land (Z.shiftr val 4) 0xF * 10 in
  let temp := acc_i + val_i + eval (GetStatusFlag CARRY) s in
  let hundreds := Z.quot temp 100 in
  let tens := Z.quot (temp - hundreds * 100) 10 in
  let ones := temp - hundreds * 100 - tens * 10 in
  let result := to_word (Z.lor (Z.shiftl tens 4) ones) in
  exec (Ins_ADC addr) s
  = exec (set_Acc (to_byte (GET_LOW_BYTE result)))
      (exec (SetStatusFlag NEGATIVE (nonzero (IS_NEGATIVE result)))
         (exec (SetStatusFlag ZERO (GET_LOW_BYTE result =? 0))
            (exec (SetStatusFlag CARRY (0x99 <? result)) s))).
Proof.
  intros HD. unfold Ins_ADC.
  rewrite exec_bind, exec_HasStatusFlag, HD.
  by_operand_cases s.
Qed.

Lemma carry_bit (s : t) : 0 <= eval (GetStatusFlag CARRY) s <= 1.
Proof. rewrite GetStatusFlag_testbit. destruct (Z.testbit _ _); simpl; lia. Qed.

(** Exhaustive check of a boolean property of two bytes and a bit. *)
Lemma forall_bytes_bit (P : Z -> Z -> Z -> bool) :
  forallb (fun a => forallb (fun m => P a m 0 && P a m 1) (seqZ 0 256))
    (seqZ 0 256) = true ->
  forall a m c, 0 <= a < 256 -> 0 <= m < 256 -> 0 <= c <= 1 -> P a m c = true.
Proof.
  intros H a m c Ha Hm Hc.
  pose proof (forall_below _ 256 H a Ha) as H1. cbv beta in H1.
  pose proof (forall_below _ 256 H1 m Hm) as H2. cbv beta in H2.
  apply andb_true_iff in H2. destruct H2 as [H0 H1'].
  assert (Hc' : c = 0 \/ c = 1) by lia.
  destruct Hc' as [->| ->]; assumption.
Qed.

(** X16.  With the D flag clear, ADC adds: for A and the operand
    bytes, A becomes the low byte of [A + M + C], the C flag is set
    exactly when the sum exceeds 255, Z when the low byte is zero, N when
    its bit 7 is set, and V exactly when the sum of A and M read as
    signed bytes, plus C, falls outside -128..127. *)
Theorem Ins_ADC_binary_adds (s : t) (addr : address.t) :
  let A := m_Acc s in
  let M := eval (FetchData addr) s in
  let C := eval (GetStatusFlag CARRY) s in
  eval (HasStatusFlag DECIMAL) s = false ->
  0 <= A < 256 -> 0 <= M < 256 ->
  let signed := fun v : Z => if v <? 128 then v else v - 256 in
  let s' := exec (Ins_ADC addr) s in
  m_Acc s' = (A + M + C) mod 256
  /\ eval (HasStatusFlag CARRY) s' = (255 <? A + M + C)
  /\ eval (HasStatusFlag ZERO) s' = ((A + M + C) mod 256 =? 0)
  /\ eval (HasStatusFlag NEGATIVE) s' = (128 <=? (A + M + C) mod 256)
  /\ eval (HasStatusFlag INT_OVERFLOW) s'
     = negb ((-128 <=? signed A + signed M + C)
             && (signed A + signed M + C <=? 127)).
Proof.
  intros A M C HD HA HM signed s'. subst s'.
  pose proof (carry_bit s) as HC. fold C in HC.
  pose proof (Ins_ADC_binary_exec s addr HD) as E. cbv zeta in E.
  fold A M C in E.
  rewrite (to_word_small A), (to_word_small M), (to_word_small C) in E by lia.
  rewrite (to_word_small (A + M + C)) in E by lia.
  rewrite E. clear E.
  split; [|split; [|split; [|split]]].
  - rewrite m_Acc_set_Acc. unfold GET_LOW_BYTE. rewrite land_0xFF.
    unfold to_byte. apply Z.mod_mod. lia.
  - read_flag. reflexivity.
  - read_flag. unfold GET_LOW_BYTE. rewrite land_0xFF. reflexivity.
  - read_flag. apply (eqb_prop _ _).
    apply (forall_below
             (fun z => Bool.eqb (nonzero (IS_NEGATIVE z)) (128 <=? z mod 256))
             512); [vm_compute; reflexivity|lia].
  - read_flag. apply (eqb_prop _ _). subst signed.
    apply (forall_bytes_bit
             (fun a m c =>
                Bool.eqb
                  (nonzero (Z.land (Z.land (Z.lnot (Z.lxor a m))
                                           (Z.lxor a (a + m + c))) 0x0080))
                  (negb ((-128 <=? (if a <? 128 then a else a - 256)
                                   + (if m <? 128 then m else m - 256) + c)
                         && ((if a <? 128 then a else a - 256)
                             + (if m <? 128 then m else m - 256) + c
                             <=? 127)))));
      [vm_compute; reflexivity|lia..].
Qed.


Lemma land_0xF_range (z : Z) : 0 <= Z.land z 0xF <= 15.
Proof.
  change (Z.land z 0xF) with (Z.land z (Z.ones 4)).
  rewrite Z.land_ones by lia.
  change (2 ^ 4) with 16. pose proof (Z.mod_pos_bound z 16). lia.
Qed.

(** X17.  With the D flag set, ADC never sets the C flag, whatever A,
    the operand and the carry are: the result it tests against 0x99 is
    built from two decimal digits.  When A and the operand are the BCD
    codes of [a] and [m], A becomes the BCD code of [(a + m + C) mod 100]
    (the hundreds digit is dropped, not carried). *)
Theorem Ins_ADC_decimal_adds (s : t) (addr : address.t) :
  eval (HasStatusFlag DECIMAL) s = true ->
  let bcd := fun n : Z => 16 * (n / 10) + n mod 10 in
  let C := eval (GetStatusFlag CARRY) s in
  let s' := exec (Ins_ADC addr) s in
  eval (HasStatusFlag CARRY) s' = false
  /\ forall a m : Z,
       0 <= a < 100 -> 0 <= m < 100 ->
       m_Acc s = bcd a -> eval (FetchData addr) s = bcd m ->
       m_Acc s' = bcd ((a + m + C) mod 100).
Proof.
  intros HD bcd C s'. subst s'.
  pose proof (carry_bit s) as HC. fold C in HC.
  pose proof (Ins_ADC_decimal_exec s addr HD) as E. cbv zeta in E.
  fold C in E. rewrite E. clear E. split.
  - read_flag.
    pose proof (land_0xF_range (m_Acc s)).
    pose proof (land_0xF_range (Z.shiftr (m_Acc s) 4)).
    pose proof (land_0xF_range (eval (FetchData addr) s)).
    pose proof (land_0xF_range (Z.shiftr (eval (FetchData addr) s) 4)).
    set (temp := _ + _ + C).
    assert (Ht : 0 <= temp < 332) by (subst temp; lia).
    apply negb_true_iff.
    apply (forall_below
             (fun temp =>
                negb (0x99 <? to_word
                        (Z.lor (Z.shiftl
                                  (Z.quot (temp - Z.quot temp 100 * 100) 10) 4)
                               (temp - Z.quot temp 100 * 100
                                - Z.quot (temp - Z.quot temp 100 * 100) 10
                                  * 10))))
             332); [vm_compute; reflexivity|exact Ht].
  - intros a m Ha Hm HA HM. rewrite m_Acc_set_Acc, HA, HM.
    assert (Hdec : forall n, 0 <= n < 100 ->
              Z.land (bcd n) 0xF + Z.land (Z.shiftr (bcd n) 4) 0xF * 10 = n).
    { intros n Hn. apply Z.eqb_eq. subst bcd.
      apply (forall_below
               (fun n => Z.land (16 * (n / 10) + n mod 10) 0xF
                         + Z.land (Z.shiftr (16 * (n / 10) + n mod 10) 4) 0xF
                           * 10 =? n) 100); [vm_compute; reflexivity|exact Hn]. }
    rewrite !Hdec by assumption.
    assert (Ht : 0 <= a + m + C < 200) by lia.
    apply Z.eqb_eq. subst bcd.
    apply (forall_below
             (fun temp =>
                to_byte (GET_LOW_BYTE (to_word
                  (Z.lor (Z.shiftl
                            (Z.quot (temp - Z.quot temp 100 * 100) 10) 4)
                         (temp - Z.quot temp 100 * 100
                          - Z.quot (temp - Z.quot temp 100 * 100) 10 * 10))))
                =? 16 * (temp mod 100 / 10) + (temp mod 100) mod 10)
             200); [vm_compute; reflexivity|exact Ht].
Qed.

End Add.

Lemma Ins_ADC_binary_adds_witness :
  let s :=
    run first_ILL_slot 3
      (boot 0x0200 [0xD8; 0x18; 0xA9; 0x7F; 0x69; 0x01; 0x00]) in
  let addr := address.of_int 0x0205 in
  let s' := CPU.exec (CPU.Ins_ADC addr) s in
  CPU.eval (CPU.HasStatusFlag CPU.DECIMAL) s = false
  /\ 0 <= CPU.m_Acc s < 256
  /\ 0 <= CPU.eval (CPU.FetchData addr) s < 256
  /\ CPU.m_Acc s' = 0x80
  /\ CPU.eval (CPU.HasStatusFlag CPU.CARRY) s' = false
  /\ CPU.eval (CPU.HasStatusFlag CPU.ZERO) s' = false
  /\ CPU.eval (CPU.HasStatusFlag CPU.NEGATIVE) s' = true
  /\ CPU.eval (CPU.HasStatusFlag CPU.INT_OVERFLOW) s' = true.
Proof.
  intros s addr s'.
  assert (HD : CPU.eval (CPU.HasStatusFlag CPU.DECIMAL) s = false)
    by (vm_compute; reflexivity).
  assert (EA : CPU.m_Acc s = 0x7F) by (vm_compute; reflexivity).
  assert (HA : 0 <= CPU.m_Acc s < 256) by (rewrite EA; lia).
  assert (EM : CPU.eval (CPU.FetchData addr) s = 1)
    by (vm_compute; reflexivity).
  assert (HM : 0 <= CPU.eval (CPU.FetchData addr) s < 256)
    by (rewrite EM; lia).
  split; [exact HD|]. split; [exact HA|]. split; [exact HM|].
  pose proof (Ins_ADC_binary_adds s addr HD HA HM) as H.
  vm_compute in H. vm_compute. exact H.
Defined.

Lemma Ins_ADC_decimal_adds_witness :
  let s :=
    run first_ILL_slot 3
      (boot 0x0200 [0xF8; 0x18; 0xA9; 0x99; 0x69; 0x01; 0x00]) in
  let addr := address.of_int 0x0205 in
  let s' := CPU.exec (CPU.Ins_ADC addr) s in
  CPU.eval (CPU.HasStatusFlag CPU.DECIMAL) s = true
  /\ CPU.eval (CPU.HasStatusFlag CPU.CARRY) s' = false
  /\ CPU.m_Acc s' = 0x00.
Proof.
  intros s addr s'.
  assert (HD : CPU.eval (CPU.HasStatusFlag CPU.DECIMAL) s = true)
    by (vm_compute; reflexivity).
  split; [exact HD|].
  destruct (Ins_ADC_decimal_adds s addr HD) as [Hc Hbcd].
  assert (HA : CPU.m_Acc s = 16 * (99 / 10) + 99 mod 10)
    by (vm_compute; reflexivity).
  assert (HM : CPU.eval (CPU.FetchData addr) s = 16 * (1 / 10) + 1 mod 10)
    by (vm_compute; reflexivity).
  pose proof (Hbcd 99 1 ltac:(lia) ltac:(lia) HA HM) as H.
  vm_compute in Hc, H. split; vm_compute; assumption.
Defined.

(** ** Relative branches *)

Section RelativeBranch.
Import CPU.
Local Open Scope cpu_scope.

(** The byte that [rel |= 0xFF00] leaves in [rel] is [rel] itself. *)
Lemma rel_sign_extension_is_lost (rel : Z) :
  0 <= rel < 256 ->
  (if nonzero (Z.land rel 0x80) then to_byte (Z.lor rel 0xFF00) else rel) = rel.
Proof.
  intros H. apply Z.eqb_eq.
  apply (forall_below
           (fun rel => (if nonzero (Z.land rel 0x80)
                        then to_byte (Z.lor rel 0xFF00) else rel) =? rel) 256);
    [vm_compute; reflexivity|exact H].
Qed.

(** X18.  The operand of a relative branch is never negative:
    [Addr_REL] ors 0xFF00 into a [byte] variable, which leaves the byte
    as it was, so it returns the operand byte as an address in 0..255 and
    [Branch] moves the program counter forward by that many bytes (modulo
    2^16); an operand of 0x80 or more does not branch backwards. *)
Theorem relative_operand_is_unsigned (s : t) :
  let operand := eval (ReadByte (address.of_int (m_PC s))) s in
  0 <= operand < 256 ->
  eval Addr_REL s = (operand, 1)
  /\ m_PC (exec (a <- Addr_REL ;; Branch (fst a)) s)
     = to_word (m_PC s + 1 + operand).
Proof.
  intros operand. subst operand.
  destruct s as [pc sp a x y p bus rem ce ws sv].
  unfold Addr_REL, Branch. cpu_run. intros H.
  rewrite (rel_sign_extension_is_lost _ H).
  set (operand := match bus with Some _ => _ | None => _ end) in *.
  unfold address.of_int, address.value.
  rewrite (to_word_small operand) by lia.
  split; [reflexivity|].
  unfold to_word. rewrite Zplus_mod_idemp_l. reflexivity.
Qed.

End RelativeBranch.

Lemma relative_operand_is_unsigned_witness :
  let s := boot 0x0200 [0xFE; 0x00] in
  0 <= CPU.eval (CPU.ReadByte (address.of_int (CPU.m_PC s))) s < 256
  /\ CPU.eval CPU.Addr_REL s = (0xFE, 1)
  /\ CPU.m_PC
       (CPU.exec (CPU.bind CPU.Addr_REL (fun a => CPU.Branch (fst a))) s)
     = 0x02FF.
Proof.
  intros s.
  assert (E : CPU.eval (CPU.ReadByte (address.of_int (CPU.m_PC s))) s = 0xFE)
    by (vm_compute; reflexivity).
  assert (Hop :
    0 <= CPU.eval (CPU.ReadByte (address.of_int (CPU.m_PC s))) s < 256)
    by (rewrite E; lia).
  split; [exact Hop|].
  pose proof (relative_operand_is_unsigned s Hop) as H.
  vm_compute in H. vm_compute. exact H.
Defined.

(** ** Comparisons *)

Section Compare.
Import CPU.
Local Open Scope cpu_scope.

Lemma Ins_CMP_exec (s : t) (addr : address.t) :
  let value := eval (FetchData addr) s in
  let result := to_byte (m_Acc s - value) in
  exec (Ins_CMP addr) s
  = exec (SetStatusFlag NEGATIVE (nonzero (IS_NEGATIVE result)))
      (exec (SetStatusFlag ZERO (result =? 0))
         (exec (SetStatusFlag CARRY (value <=? m_Acc s)) s)).
Proof. by_operand_cases s. Qed.

Lemma Ins_CPX_exec (s : t) (addr : address.t) :
  let value := eval (FetchData addr) s in
  let result := to_byte (m_X s - value) in
  exec (Ins_CPX addr) s
  = exec (SetStatusFlag NEGATIVE (nonzero (IS_NEGATIVE result)))
      (exec (SetStatusFlag ZERO (result =? 0))
         (exec (SetStatusFlag CARRY (value <=? m_X s)) s)).
Proof. by_operand_cases s. Qed.

Lemma Ins_CPY_exec (s : t) (addr : address.t) :
  let value := eval (FetchData addr) s in
  let result := to_byte (m_Y s - value) in
  exec (Ins_CPY addr) s
  = exec (SetStatusFlag NEGATIVE (nonzero (IS_NEGATIVE result)))
      (exec (SetStatusFlag ZERO (result =? 0))
         (exec (SetStatusFlag CARRY (value <=? m_Y s)) s)).
Proof. by_operand_cases s. Qed.

(** What the three flag updates of a comparison leave behind. *)
Lemma compare_flags (r v : Z) (s : t) :
  0 <= r < 256 -> 0 <= v < 256 ->
  let s' :=
    exec (SetStatusFlag NEGATIVE (nonzero (IS_NEGATIVE (to_byte (r - v)))))
      (exec (SetStatusFlag ZERO (to_byte (r - v) =? 0))
         (exec (SetStatusFlag CARRY (v <=? r)) s)) in
  eval (HasStatusFlag CARRY) s' = (v <=? r)
  /\ eval (HasStatusFlag ZERO) s' = (r =? v)
  /\ eval (HasStatusFlag NEGATIVE) s' = (128 <=? (r - v) mod 256)
  /\ m_Acc s' = m_Acc s /\ m_X s' = m_X s /\ m_Y s' = m_Y s
  /\ m_Bus s' = m_Bus s.
Proof.
  intros Hr Hv s'. subst s'.
  split; [|split; [|split]].
  - read_flag. reflexivity.
  - read_flag. unfold to_byte.
    destruct (Z.eqb_spec r v) as [->|Hne].
    + rewrite Z.sub_diag. reflexivity.
    + apply Z.eqb_neq. intros H0.
      apply Z.mod_divide in H0; [|lia]. destruct H0 as [k Hk]. lia.
  - read_flag. fold (to_byte (r - v)).
    pose proof (to_byte_range (r - v)) as Hb.
    rewrite <- (to_byte_small (to_byte (r - v)) Hb) at 2.
    unfold to_byte at 3.
    apply (eqb_prop _ _).
    apply (forall_below
             (fun z => Bool.eqb (nonzero (IS_NEGATIVE z)) (128 <=? z mod 256))
             512); [vm_compute; reflexivity|lia].
  - destruct (v <=? r), (to_byte (r - v) =? 0),
      (nonzero (IS_NEGATIVE (to_byte (r - v)))); repeat split.
Qed.

(** X19.  CMP, CPX and CPY order the register against the operand:
    for byte values, C is set exactly when the operand is at most the
    register, Z exactly when they are equal, N is bit 7 of their
    difference modulo 256; the registers and the bus are left alone. *)
Theorem compare_orders_register_and_operand (s : t) (addr : address.t) :
  let M := eval (FetchData addr) s in
  0 <= M < 256 ->
  0 <= m_Acc s < 256 -> 0 <= m_X s < 256 -> 0 <= m_Y s < 256 ->
  let outcome := fun (r : Z) (s' : t) =>
    eval (HasStatusFlag CARRY) s' = (M <=? r)
    /\ eval (HasStatusFlag ZERO) s' = (r =? M)
    /\ eval (HasStatusFlag NEGATIVE) s' = (128 <=? (r - M) mod 256)
    /\ m_Acc s' = m_Acc s /\ m_X s' = m_X s /\ m_Y s' = m_Y s
    /\ m_Bus s' = m_Bus s in
  outcome (m_Acc s) (exec (Ins_CMP addr) s)
  /\ outcome (m_X s) (exec (Ins_CPX addr) s)
  /\ outcome (m_Y s) (exec (Ins_CPY addr) s).
Proof.
  intros M HM HA HX HY outcome. subst outcome. cbv beta.
  rewrite Ins_CMP_exec, Ins_CPX_exec, Ins_CPY_exec. cbv zeta. fold M.
  split; [|split]; apply compare_flags; assumption.
Qed.

End Compare.

Lemma compare_orders_register_and_operand_witness :
  let s :=
    run first_ILL_slot 3
      (boot 0x0200 [0xA9; 0x10; 0xA2; 0x20; 0xA0; 0x05; 0xC9; 0x10; 0x00]) in
  let addr := address.of_int 0x0207 in
  let flags := fun s' =>
    (CPU.eval (CPU.HasStatusFlag CPU.CARRY) s',
     CPU.eval (CPU.HasStatusFlag CPU.ZERO) s',
     CPU.eval (CPU.HasStatusFlag CPU.NEGATIVE) s') in
  0 <= CPU.eval (CPU.FetchData addr) s < 256
  /\ 0 <= CPU.m_Acc s < 256
  /\ 0 <= CPU.m_X s < 256
  /\ 0 <= CPU.m_Y s < 256
  /\ flags (CPU.exec (CPU.Ins_CMP addr) s) = (true, true, false)
  /\ flags (CPU.exec (CPU.Ins_CPX addr) s) = (true, false, false)
  /\ flags (CPU.exec (CPU.Ins_CPY addr) s) = (false, false, true).
Proof.
  intros s addr flags.
  assert (EM : CPU.eval (CPU.FetchData addr) s = 0x10)
    by (vm_compute; reflexivity).
  assert (EA : CPU.m_Acc s = 0x10) by (vm_compute; reflexivity).
  assert (EX : CPU.m_X s = 0x20) by (vm_compute; reflexivity).
  assert (EY : CPU.m_Y s = 0x05) by (vm_compute; reflexivity).
  assert (HM : 0 <= CPU.eval (CPU.FetchData addr) s < 256)
    by (rewrite EM; lia).
  assert (HA : 0 <= CPU.m_Acc s < 256) by (rewrite EA; lia).
  assert (HX : 0 <= CPU.m_X s < 256) by (rewrite EX; lia).
  assert (HY : 0 <= CPU.m_Y s < 256) by (rewrite EY; lia).
  split; [exact HM|]. split; [exact HA|]. split; [exact HX|].
  split; [exact HY|].
  pose proof (compare_orders_register_and_operand s addr HM HA HX HY) as H.
  cbv beta zeta in H. rewrite EM, EA, EX, EY in H.
  destruct H as ((H1 & H2 & H3 & _) & (H4 & H5 & H6 & _) & (H7 & H8 & H9 & _)).
  subst flags. cbv beta.
  rewrite H1, H2, H3, H4, H5, H6, H7, H8, H9.
  repeat split.
Defined.

(** ** Stores, loads, increments *)

Section Stores.
Import CPU.
Local Open Scope cpu_scope.

(** X20.  What a store instruction writes, a load from the same
    address reads back: with a memory operand inside the memory behind
    the bus, LDA after STA, LDX after STX and LDY after STY leave the
    register with its own value (truncated to a byte), and LDX after STA
    copies A to X. *)
Theorem load_after_store (s : t) (addr : address.t) :
  m_WasSupplied s = false ->
  0 <= address.value addr < bus_size s ->
  m_Acc (exec (Ins_LDA addr) (exec (Ins_STA addr) s)) = to_byte (m_Acc s)
  /\ m_X (exec (Ins_LDX addr) (exec (Ins_STX addr) s)) = to_byte (m_X s)
  /\ m_Y (exec (Ins_LDY addr) (exec (Ins_STY addr) s)) = to_byte (m_Y s)
  /\ m_X (exec (Ins_LDX addr) (exec (Ins_STA addr) s)) = to_byte (m_Acc s).
Proof.
  intros Hws Haddr.
  destruct s as [pc sp a x y p bus rem ce ws sv].
  cbn [m_WasSupplied] in Hws. subst ws.
  unfold bus_size in Haddr. cbn [m_Bus] in Haddr. unfold address.value in *.
  destruct bus as [d|]; [|lia].
  unfold Ins_STA, Ins_STX, Ins_STY, Ins_LDA, Ins_LDX, Ins_LDY. cpu_steps.
  rewrite !device_ReadByte_WriteByte, Z.eqb_refl by lia.
  destruct (Z.ltb_spec addr (device_size d)); [|lia]. cbn [andb].
  repeat split; apply to_byte_small, to_byte_range.
Qed.

(** X21.  INC writes the operand plus one (modulo 256) back to its
    memory cell, setting Z exactly when it wrapped to zero; DEC right
    after it restores the cell, sets Z exactly when the original byte was
    zero, and neither touches the accumulator. *)
Theorem DEC_undoes_INC (s : t) (addr : address.t) :
  let v := eval (ReadByte addr) s in
  m_WasSupplied s = false ->
  0 <= address.value addr < bus_size s ->
  0 <= v < 256 ->
  let s1 := exec (Ins_INC addr) s in
  let s2 := exec (Ins_DEC addr) s1 in
  eval (ReadByte addr) s1 = (v + 1) mod 256
  /\ eval (HasStatusFlag ZERO) s1 = (v =? 255)
  /\ eval (ReadByte addr) s2 = v
  /\ eval (HasStatusFlag ZERO) s2 = (v =? 0)
  /\ m_Acc s2 = m_Acc s.
Proof.
  intros v Hws Haddr Hv s1 s2. subst s1 s2 v.
  destruct s as [pc sp a x y p bus rem ce ws sv].
  cbn [m_WasSupplied] in Hws. subst ws.
  unfold bus_size in Haddr. cbn [m_Bus] in Haddr. unfold address.value in *.
  destruct bus as [d|]; [|lia].
  rewrite !HasStatusFlag_testbit.
  revert Hv. unfold Ins_INC, Ins_DEC. cpu_steps. intros Hv.
  rewrite !device_ReadByte_WriteByte, ?device_size_WriteByte, ?Z.eqb_refl
    by lia.
  destruct (Z.ltb_spec addr (device_size d)); [|lia]. cbn [andb].
  set (v := IODevice.ReadByte d addr) in *.
  rewrite !testbit_status_with by (simpl; lia).
  cbn [flag_bit Z.eqb Pos.eqb].
  rewrite !(to_byte_small (to_byte _)) by apply to_byte_range.
  assert (Hback : to_byte (to_byte (v + 1) - 1) = v).
  { unfold to_byte. destruct (Z.eq_dec v 255) as [->|Hne]; [reflexivity|].
    rewrite (Z.mod_small (v + 1)) by lia.
    replace (v + 1 - 1) with v by lia. apply Z.mod_small. lia. }
  rewrite Hback.
  repeat split.
  unfold to_byte. destruct (Z.eqb_spec v 255) as [->|Hne]; [reflexivity|].
  rewrite Z.mod_small by lia. apply Z.eqb_neq. lia.
Qed.

End Stores.

Lemma load_after_store_witness :
  let s := run first_ILL_slot 2 (boot 0x0200 [0xA9; 0x42; 0xA2; 0x17; 0x00]) in
  let addr := address.of_int 0x0010 in
  CPU.m_WasSupplied s = false
  /\ 0 <= address.value addr < bus_size s
  /\ CPU.m_Acc (CPU.exec (CPU.Ins_LDA addr) (CPU.exec (CPU.Ins_STA addr) s))
     = 0x42
  /\ CPU.m_X (CPU.exec (CPU.Ins_LDX addr) (CPU.exec (CPU.Ins_STX addr) s))
     = 0x17
  /\ CPU.m_Y (CPU.exec (CPU.Ins_LDY addr) (CPU.exec (CPU.Ins_STY addr) s))
     = 0x00
  /\ CPU.m_X (CPU.exec (CPU.Ins_LDX addr) (CPU.exec (CPU.Ins_STA addr) s))
     = 0x42.
Proof.
  intros s addr.
  assert (Hws : CPU.m_WasSupplied s = false) by (vm_compute; reflexivity).
  assert (Esize : bus_size s = 65536) by (vm_compute; reflexivity).
  assert (Haddr : 0 <= address.value addr < bus_size s).
  { rewrite Esize. change (address.value addr) with 0x0010. lia. }
  split; [exact Hws|]. split; [exact Haddr|].
  pose proof (load_after_store s addr Hws Haddr) as H.
  vm_compute in H. vm_compute. exact H.
Defined.

Lemma DEC_undoes_INC_witness :
  let s := boot 0x0200 [0xFF; 0x00] in
  let addr := address.of_int 0x0200 in
  let s1 := CPU.exec (CPU.Ins_INC addr) s in
  let s2 := CPU.exec (CPU.Ins_DEC addr) s1 in
  CPU.m_WasSupplied s = false
  /\ 0 <= address.value addr < bus_size s
  /\ 0 <= CPU.eval (CPU.ReadByte addr) s < 256
  /\ CPU.eval (CPU.ReadByte addr) s1 = 0x00
  /\ CPU.eval (CPU.HasStatusFlag CPU.ZERO) s1 = true
  /\ CPU.eval (CPU.ReadByte addr) s2 = 0xFF
  /\ CPU.eval (CPU.HasStatusFlag CPU.ZERO) s2 = false
  /\ CPU.m_Acc s2 = 0.
Proof.
  intros s addr s1 s2.
  assert (Hws : CPU.m_WasSupplied s = false) by (vm_compute; reflexivity).
  assert (Esize : bus_size s = 65536) by (vm_compute; reflexivity).
  assert (Haddr : 0 <= address.value addr < bus_size s).
  { rewrite Esize. change (address.value addr) with 0x0200. lia. }
  assert (Ev : CPU.eval (CPU.ReadByte addr) s = 0xFF)
    by (vm_compute; reflexivity).
  assert (Hv : 0 <= CPU.eval (CPU.ReadByte addr) s < 256)
    by (rewrite Ev; lia).
  split; [exact Hws|]. split; [exact Haddr|]. split; [exact Hv|].
  pose proof (DEC_undoes_INC s addr Hws Haddr Hv) as H.
  vm_compute in H. vm_compute. exact H.
Defined.

(** ** The set-up of the machine *)

Section Boot.

(** A byte outside the two cells of a word write keeps its value. *)
Lemma ReadByte_WriteWord_other (m : Memory.t) (a w b : Z) :
  b <> a -> b <> a + 1 ->
  Memory.ReadByte (Memory.WriteWord m a w) b = Memory.ReadByte m b.
Proof.
  intros H0 H1. rewrite WriteWord_as_bytes. cbv zeta.
  destruct (a + 1 <? Memory.m_Size m).
  - unfold Memory.ReadByte at 1. unfold address.value. cbn [Memory.m_Size].
    rewrite cell_insert.
    destruct (Z.eqb_spec b (a + 1)); [contradiction|].
    change (Memory.ReadByte (Memory.WriteByte m a (GET_LOW_BYTE (to_word w))) b
            = Memory.ReadByte m b).
    rewrite ReadByte_WriteByte.
    destruct (Z.eqb_spec b a); [contradiction|reflexivity].
  - rewrite ReadByte_WriteByte.
    destruct (Z.eqb_spec b a); [contradiction|reflexivity].
Qed.

(** X22.  The set-up of [main]: after the byte code is written at the
    starting offset, the reset vector at 0xFFFC is pointed to it and the
    CPU is reset, the program counter is the starting offset, the stack
    pointer is 0xFD, the status byte is 0x20, and every byte of the code
    that lies below the reset vector can be read back through the CPU's
    bus. *)
Theorem boot_loads_the_program (off : Z) (code : list Z) :
  0 <= off < 65536 ->
  let s := boot off code in
  CPU.m_PC s = off /\ CPU.m_SP s = 0xFD /\ CPU.m_ProcStatus s = 0x20
  /\ forall (i : nat) (b : Z),
       code !! i = Some b -> off + Z.of_nat i < 0xFFFC ->
       peek s (off + Z.of_nat i) = to_byte b.
Proof.
  intros Hoff s. subst s. unfold boot, peek. cbv zeta.
  set (mem1 := Memory.WriteBytes _ _ code).
  unfold CPU.Reset, CPU.new, Bus.Make. cpu_run.
  change (IODevice.ReadWord (IOBus (Some (IOMemory ?m))) ?a)
    with (Memory.ReadWord m a).
  assert (Hsize : Memory.m_Size mem1 = 65536).
  { subst mem1. rewrite m_Size_WriteBytes. reflexivity. }
  split; [|split; [reflexivity|split; [reflexivity|]]].
  - unfold ADDRESS_RESET_VECTOR.
    rewrite (ReadWord_WriteWord mem1 0xFFFC off) by (rewrite ?Hsize; lia).
    rewrite !to_word_small by (rewrite ?to_word_small; lia). reflexivity.
  - intros i b Hi Hlt.
    change (IODevice.ReadByte (IOBus (Some (IOMemory ?m))) ?a)
      with (Memory.ReadByte m a).
    pose proof (lookup_lt_Some _ _ _ Hi) as Hlen.
    unfold address.of_int.
    rewrite (to_word_small (off + Z.of_nat i)) by lia.
    unfold ADDRESS_RESET_VECTOR.
    rewrite (to_word_small 0xFFFC) by lia.
    rewrite ReadByte_WriteWord_other by lia.
    subst mem1. unfold address.of_int.
    rewrite (to_word_small off) by lia.
    rewrite ReadByte_WriteBytes.
    change (Memory.m_Size (Memory.Make (MAKE_KB 64))) with 65536.
    destruct (Z.leb_spec off (off + Z.of_nat i)); [|lia].
    destruct (Z.ltb_spec (off + Z.of_nat i) (off + Z.of_nat (length code)));
      [|lia].
    destruct (Z.ltb_spec (off + Z.of_nat i) 65536); [|lia].
    cbn [andb].
    replace (Z.to_nat (off + Z.of_nat i - off)) with i by lia.
    rewrite Hi. reflexivity.
Qed.

End Boot.

Lemma boot_loads_the_program_witness :
  let s := boot 0x0200 [0xA9; 0x42; 0x00] in
  0 <= 0x0200 < 65536
  /\ CPU.m_PC s = 0x0200
  /\ CPU.m_SP s = 0xFD
  /\ CPU.m_ProcStatus s = 0x20
  /\ peek s 0x0201 = 0x42.
Proof.
  intros s.
  assert (Hoff : 0 <= 0x0200 < 65536) by lia.
  split; [exact Hoff|].
  destruct (boot_loads_the_program 0x0200 [0xA9; 0x42; 0x00] Hoff)
    as (H1 & H2 & H3 & H4).
  pose proof (H4 1%nat 0x42 eq_refl ltac:(simpl; lia)) as H5. clear H4.
  vm_compute in H1, H2, H3, H5.
  split; [|split; [|split]]; vm_compute; assumption.
Defined.

(** ** The opcode table and the emitter *)

Section Table.

(** X23.  [FindInstructionDetail] finds the row it is asked for: for
    every row of the table that is not an ILL slot, other than the row
    of opcode 0x70, the look-up by the row's instruction and addressing
    mode returns that row.  (Row 0x70 repeats the BVC/REL pair of row
    0x50, which the search meets first.) *)
Theorem FindInstructionDetail_finds_the_row (d : InstructionDetail) :
  In d InstructionDetails ->
  instruction d <> Instruction.ILL ->
  opCode d <> 0x70 ->
  FindInstructionDetail (instruction d) (addressing d) = d.
Proof.
  intros Hd Hill H70.
  assert (H : Forall (fun d => instruction d = Instruction.ILL
                               \/ opCode d = 0x70
                               \/ FindInstructionDetail (instruction d)
                                    (addressing d) = d)
                InstructionDetails).
  { unfold InstructionDetails.
    repeat (apply Forall_cons; split;
            [first [ left; reflexivity
                   | right; left; reflexivity
                   | right; right; vm_compute; reflexivity ]|]).
    apply Forall_nil. exact I. }
  rewrite Forall_forall in H.
  destruct (H d (proj2 (list_elem_of_In _ _) Hd)) as [H0|[H0|H0]];
    [contradiction|contradiction|exact H0].
Qed.

Lemma FindInstructionDetail_BVS (addr : AddressMode.t) :
  FindInstructionDetail Instruction.BVS addr = first_ILL_slot.
Proof. destruct addr; vm_compute; reflexivity. Qed.

(** X24.  BVS has no opcode: no row of the table carries it, so
    [FindInstructionDetail] answers with the ILL slot for BVS in every
    addressing mode, and the assembler emits nothing for a BVS line:
    neither a byte of code nor a source line. *)
Theorem BVS_has_no_opcode :
  (forall d, In d InstructionDetails -> instruction d <> Instruction.BVS)
  /\ (forall addr,
        instruction (FindInstructionDetail Instruction.BVS addr)
        = Instruction.ILL)
  /\ (forall lineNumber pcOffset addressing value prog,
        let prog' :=
          Program.parseInstruction lineNumber Instruction.BVS pcOffset
            addressing value prog in
        Program.m_ByteCode prog' = Program.m_ByteCode prog
        /\ Program.m_SourceCode prog' = Program.m_SourceCode prog).
Proof.
  split; [|split].
  - intros d Hd HBVS.
    pose proof (In_InstructionDetails_check
      (fun d => negb (Instruction.eqb (instruction d) Instruction.BVS)) d
      ltac:(vm_compute; reflexivity) Hd) as H.
    cbv beta in H. rewrite HBVS in H. discriminate H.
  - intros addr. rewrite FindInstructionDetail_BVS. reflexivity.
  - intros ln pc addr v prog prog'. subst prog'.
    unfold Program.parseInstruction. cbv zeta.
    rewrite FindInstructionDetail_BVS.
    destruct (Program.setStartingPC prog); split; reflexivity.
Qed.



End Table.

Lemma FindInstructionDetail_finds_the_row_witness :
  let d := row 0xA9 Instruction.LDA AddressMode.IMM 2 2 false in
  In d InstructionDetails
  /\ instruction d <> Instruction.ILL
  /\ opCode d <> 0x70
  /\ FindInstructionDetail Instruction.LDA AddressMode.IMM = d.
Proof.
  intros d.
  assert (Hd : In d InstructionDetails).
  { apply list_elem_of_In, (list_elem_of_lookup_2 _ 169%nat). reflexivity. }
  assert (Hill : instruction d <> Instruction.ILL) by discriminate.
  assert (H70 : opCode d <> 0x70) by discriminate.
  split; [exact Hd|]. split; [exact Hill|]. split; [exact H70|].
  exact (FindInstructionDetail_finds_the_row d Hd Hill H70).
Defined.


(** ** Mnemonics *)

Section Mnemonics.

(** X26.  The mnemonic table is in the order of the [Instruction]
    enumeration and has no duplicate: looking up the mnemonic of an
    instruction gives the instruction back, and
    [HasInstructionMnmuemonic] accepts the mnemonic of every instruction
    but ILL. *)
Theorem MnmuemonicToInstruction_GetInstructionMnmuemonic
  (inst : Instruction.t) :
  MnmuemonicToInstruction (GetInstructionMnmuemonic inst) = inst
  /\ HasInstructionMnmuemonic (GetInstructionMnmuemonic inst)
     = negb (Instruction.eqb inst Instruction.ILL).
Proof. destruct inst; split; vm_compute; reflexivity. Qed.

Lemma find_mnmuemonic_found (str : String.string) (entries : list String.string) :
  forall i k,
  find_mnmuemonic str i entries = Some k ->
  i <= k < i + Z.of_nat (length entries)
  /\ nth (Z.to_nat (k - i)) entries String.EmptyString = str.
Proof.
  induction entries as [|entry entries IH]; intros i k H; [discriminate H|].
  cbn [find_mnmuemonic] in H.
  destruct (String.eqb_spec str entry) as [->|Hne].
  - injection H as <-. rewrite Z.sub_diag. cbn [length]. split; [lia|reflexivity].
  - destruct (IH _ _ H) as [Hk Hnth]. cbn [length]. split; [lia|].
    replace (Z.to_nat (k - i)) with (S (Z.to_nat (k - (i + 1)))) by lia.
    exact Hnth.
Qed.

(** X27.  [MnmuemonicToInstruction] returns an instruction other than
    ILL exactly for that instruction's own mnemonic. *)
Theorem MnmuemonicToInstruction_names_the_instruction
  (str : String.string) (inst : Instruction.t) :
  inst <> Instruction.ILL ->
  MnmuemonicToInstruction str = inst <-> str = GetInstructionMnmuemonic inst.
Proof.
  intros Hill. split.
  - unfold MnmuemonicToInstruction.
    destruct (negb (Nat.eqb (String.length str) 3) || String.eqb str "ILL"%string);
      [intros <-; contradiction|].
    destruct (find_mnmuemonic str 1 (tail InstructionMnmuemonics)) as [k|] eqn:E;
      [|intros <-; contradiction].
    destruct (find_mnmuemonic_found _ _ _ _ E) as [Hk Hnth].
    change (Z.of_nat (length (tail InstructionMnmuemonics))) with 56 in Hk.
    intros <-. rewrite <- Hnth.
    assert (Hall : forallb
              (fun k => String.eqb
                 (nth (Z.to_nat (k + 1 - 1)) (tail InstructionMnmuemonics)
                    String.EmptyString)
                 (GetInstructionMnmuemonic (Instruction_of_int (k + 1))))
              (seqZ 0 56) = true) by (vm_compute; reflexivity).
    pose proof (forall_below _ 56 Hall (k - 1) ltac:(lia)) as Hk'.
    cbv beta in Hk'. replace (k - 1 + 1) with k in Hk' by lia.
    apply String.eqb_eq in Hk'. exact Hk'.
  - intros ->. destruct inst; vm_compute; reflexivity.
Qed.

End Mnemonics.

Lemma MnmuemonicToInstruction_names_the_instruction_witness :
  Instruction.LDA <> Instruction.ILL
  /\ (MnmuemonicToInstruction "LDA" = Instruction.LDA
      <-> "LDA"%string = GetInstructionMnmuemonic Instruction.LDA).
Proof.
  assert (Hill : Instruction.LDA <> Instruction.ILL) by discriminate.
  split; [exact Hill|].
  exact (MnmuemonicToInstruction_names_the_instruction "LDA" Instruction.LDA
           Hill).
Defined.

(** ** The string helpers *)

Section Trim.
Variable ws : string.

(** Every character of [str] occurs in [ws]. *)
Local Abbreviation blank str :=
  (forallb (fun c => occurs c ws) (String.list_ascii_of_string str) = true).

Lemma append_empty (y : string) : EmptyString +:+ y = y.
Proof. reflexivity. Qed.

Lemma append_String (c : Ascii.ascii) (x y : string) :
  String c x +:+ y = String c (x +:+ y).
Proof. reflexivity. Qed.

Lemma find_first_not_of_blank (pre : string) :
  blank pre -> find_first_not_of pre ws = None.
Proof.
  induction pre as [|c pre IH]; intros H; [reflexivity|].
  cbn [String.list_ascii_of_string forallb] in H.
  apply andb_true_iff in H. destruct H as [Hc Hpre].
  cbn [find_first_not_of]. rewrite Hc, (IH Hpre). reflexivity.
Qed.

Lemma find_first_not_of_app (pre rest : string) (a : Ascii.ascii) :
  blank pre -> occurs a ws = false ->
  find_first_not_of (pre +:+ String a rest) ws = Some (String.length pre).
Proof.
  intros Hpre Ha. induction pre as [|c pre IH].
  - rewrite ?append_empty, ?append_String; cbn [find_first_not_of String.length].
    rewrite Ha. reflexivity.
  - cbn [String.list_ascii_of_string forallb] in Hpre.
    apply andb_true_iff in Hpre. destruct Hpre as [Hc Hpre].
    rewrite ?append_empty, ?append_String; cbn [find_first_not_of String.length].
    rewrite Hc, (IH Hpre). reflexivity.
Qed.

Lemma find_last_not_of_blank (post : string) :
  blank post -> find_last_not_of post ws = None.
Proof.
  induction post as [|c post IH]; intros H; [reflexivity|].
  cbn [String.list_ascii_of_string forallb] in H.
  apply andb_true_iff in H. destruct H as [Hc Hpost].
  cbn [find_last_not_of]. rewrite (IH Hpost), Hc. reflexivity.
Qed.

Lemma find_last_not_of_app (s post : string) (b : Ascii.ascii) :
  blank post -> occurs b ws = false ->
  find_last_not_of (s +:+ String b post) ws = Some (String.length s).
Proof.
  intros Hpost Hb. induction s as [|c s IH].
  - rewrite ?append_empty, ?append_String; cbn [find_last_not_of String.length].
    rewrite (find_last_not_of_blank post Hpost), Hb. reflexivity.
  - rewrite ?append_empty, ?append_String; cbn [find_last_not_of String.length].
    rewrite IH. reflexivity.
Qed.

Lemma substring_skip (pre x : string) (n : nat) :
  String.substring (String.length pre) n (pre +:+ x) = String.substring 0 n x.
Proof.
  induction pre as [|c pre IH]; [reflexivity|].
  rewrite ?append_empty, ?append_String; cbn [String.length String.substring]. exact IH.
Qed.

Lemma substring_prefix (x y : string) :
  String.substring 0 (String.length x) (x +:+ y) = x.
Proof.
  induction x as [|c x IH]; [destruct y; reflexivity|].
  rewrite ?append_empty, ?append_String; cbn [String.length String.substring]. rewrite IH. reflexivity.
Qed.

Lemma substring_all (x : string) :
  String.substring 0 (String.length x) x = x.
Proof.
  induction x as [|c x IH]; [reflexivity|].
  cbn [String.length String.substring]. rewrite IH. reflexivity.
Qed.

Lemma length_append (x y : string) :
  String.length (x +:+ y) = (String.length x + String.length y)%nat.
Proof.
  induction x as [|c x IH]; [reflexivity|].
  rewrite ?append_empty, ?append_String; cbn [String.length]. rewrite IH. reflexivity.
Qed.

Lemma append_assoc (x y z : string) : (x +:+ y) +:+ z = x +:+ (y +:+ z).
Proof.
  induction x as [|c x IH]; [reflexivity|].
  rewrite ?append_empty, ?append_String. rewrite IH. reflexivity.
Qed.

(** X28.  [TrimSpace] returns the text between the first and the last
    character that is not in [ws], both included, and the empty string
    when every character is in [ws]. *)
Theorem TrimSpace_keeps_the_core (pre mid post : string) (a b : Ascii.ascii) :
  blank pre -> blank post -> occurs a ws = false -> occurs b ws = false ->
  TrimSpace (pre +:+ String a (mid +:+ String b post)) ws
  = String a (mid +:+ String b EmptyString)
  /\ TrimSpace (pre +:+ String a post) ws = String a EmptyString
  /\ TrimSpace pre ws = EmptyString.
Proof.
  intros Hpre Hpost Ha Hb. split; [|split].
  - unfold TrimSpace. rewrite find_first_not_of_app by assumption.
    replace (pre +:+ String a (mid +:+ String b post))
      with ((pre +:+ String a mid) +:+ String b post)
      by (rewrite append_assoc; reflexivity).
    rewrite find_last_not_of_app by assumption.
    rewrite append_assoc. rewrite ?append_empty, ?append_String.
    unfold substr. rewrite substring_skip.
    rewrite length_append. cbn [String.length].
    replace (String.length pre + S (String.length mid) - String.length pre + 1)%nat
      with (String.length (String a (mid +:+ String b EmptyString))).
    + replace (String a (mid +:+ String b post))
        with (String a (mid +:+ String b EmptyString) +:+ post).
      * apply substring_prefix.
      * rewrite ?append_empty, ?append_String. rewrite append_assoc. reflexivity.
    + cbn [String.length]. rewrite length_append. cbn [String.length]. lia.
  - unfold TrimSpace. rewrite find_first_not_of_app by assumption.
    rewrite find_last_not_of_app by assumption.
    unfold substr. rewrite substring_skip.
    replace (String.length pre - String.length pre + 1)%nat with 1%nat by lia.
    cbn [String.substring]. destruct post; reflexivity.
  - unfold TrimSpace. rewrite find_first_not_of_blank by assumption.
    reflexivity.
Qed.

(** X29.  [TrimStart] drops the leading characters that are in [ws].
    [TrimEnd] drops the trailing ones and, with them, the last character
    that is not in [ws]: it keeps [loc] characters, where [loc] is the
    index of that character.  Both return a string made only of [ws]
    characters as it is. *)
Theorem TrimEnd_drops_the_last_character
  (pre s rest post : string) (a b : Ascii.ascii) :
  blank pre -> blank post -> occurs a ws = false -> occurs b ws = false ->
  TrimStart (pre +:+ String a rest) ws = String a rest
  /\ TrimEnd (s +:+ String b post) ws = s
  /\ TrimStart pre ws = pre
  /\ TrimEnd post ws = post.
Proof.
  intros Hpre Hpost Ha Hb. split; [|split; [|split]].
  - unfold TrimStart. rewrite find_first_not_of_app by assumption.
    unfold substr_from. rewrite substring_skip, length_append.
    replace (String.length pre + String.length (String a rest)
             - String.length pre)%nat
      with (String.length (String a rest)) by lia.
    apply substring_all.
  - unfold TrimEnd. rewrite find_last_not_of_app by assumption.
    unfold substr. apply substring_prefix.
  - unfold TrimStart. rewrite find_first_not_of_blank by assumption.
    reflexivity.
  - unfold TrimEnd. rewrite find_last_not_of_blank by assumption.
    reflexivity.
Qed.

End Trim.

Lemma TrimSpace_keeps_the_core_witness :
  let blank := fun str : string =>
    forallb (fun c => occurs c default_ws) (String.list_ascii_of_string str)
    = true in
  let L := Ascii.ascii_of_nat 76 in
  let zero := Ascii.ascii_of_nat 48 in
  blank "  "%string /\ blank " "%string
  /\ occurs L default_ws = false /\ occurs zero default_ws = false
  /\ TrimSpace "  LDA #$10 "%string default_ws = "LDA #$10"%string
  /\ TrimSpace "  L "%string default_ws = "L"%string
  /\ TrimSpace "  "%string default_ws = ""%string.
Proof.
  intros blank L zero.
  assert (Hpre : blank "  "%string) by reflexivity.
  assert (Hpost : blank " "%string) by reflexivity.
  assert (Ha : occurs L default_ws = false) by reflexivity.
  assert (Hb : occurs zero default_ws = false) by reflexivity.
  split; [exact Hpre|]. split; [exact Hpost|]. split; [exact Ha|].
  split; [exact Hb|].
  exact (TrimSpace_keeps_the_core default_ws "  " "DA #$1" " " L zero
           Hpre Hpost Ha Hb).
Defined.

Lemma TrimEnd_drops_the_last_character_witness :
  let blank := fun str : string =>
    forallb (fun c => occurs c default_ws) (String.list_ascii_of_string str)
    = true in
  let L := Ascii.ascii_of_nat 76 in
  let A := Ascii.ascii_of_nat 65 in
  blank "  "%string /\ blank " "%string
  /\ occurs L default_ws = false /\ occurs A default_ws = false
  /\ TrimStart "  LDA"%string default_ws = "LDA"%string
  /\ TrimEnd "LDA "%string default_ws = "LD"%string
  /\ TrimStart "  "%string default_ws = "  "%string
  /\ TrimEnd " "%string default_ws = " "%string.
Proof.
  intros blank L A.
  assert (Hpre : blank "  "%string) by reflexivity.
  assert (Hpost : blank " "%string) by reflexivity.
  assert (Ha : occurs L default_ws = false) by reflexivity.
  assert (Hb : occurs A default_ws = false) by reflexivity.
  split; [exact Hpre|]. split; [exact Hpost|]. split; [exact Ha|].
  split; [exact Hb|].
  exact (TrimEnd_drops_the_last_character default_ws "  " "LD" "DA" " " L A
           Hpre Hpost Ha Hb).
Defined.

(** ** Rotate left *)

Section Rotate.
Import CPU.
Local Open Scope cpu_scope.

Lemma ROL_byte (v c : Z) :
  0 <= v < 256 -> 0 <= c <= 1 ->
  to_byte (Z.lor (Z.shiftl v 1) c) = (2 * v + c) mod 256
  /\ nonzero (Z.land v 0x80) = (128 <=? v).
Proof.
  intros Hv Hc.
  pose proof (forall_bytes_bit
    (fun v _ c => (to_byte (Z.lor (Z.shiftl v 1) c) =? (2 * v + c) mod 256)
                  && Bool.eqb (nonzero (Z.land v 0x80)) (128 <=? v))
    ltac:(vm_compute; reflexivity) v 0 c Hv ltac:(lia) Hc) as H.
  cbv beta in H. apply andb_true_iff in H. destruct H as [H1 H2].
  split; [apply Z.eqb_eq, H1|apply eqb_prop, H2].
Qed.

(** X30.  ROL rotates left through the carry: the result is twice the
    operand plus the old C flag, modulo 256, and the new C flag is the
    operand's bit 7.  With an accumulator operand the result goes to A
    and the bus is untouched; with a memory operand inside the memory it
    is written back to the operand's address and A is untouched. *)
Theorem ROL_rotates_through_carry (s : t) (addr : address.t) :
  let v := eval (FetchData addr) s in
  let C := eval (GetStatusFlag CARRY) s in
  0 <= v < 256 ->
  0 <= address.value addr < bus_size s ->
  let s' := exec (Ins_ROL addr) s in
  eval (HasStatusFlag CARRY) s' = (128 <=? v)
  /\ (if m_WasSupplied s
      then m_Acc s' = (2 * v + C) mod 256 /\ m_Bus s' = m_Bus s
      else eval (ReadByte addr) s' = (2 * v + C) mod 256
           /\ m_Acc s' = m_Acc s).
Proof.
  intros v C Hv Haddr s'. subst s'.
  pose proof (carry_bit s) as HC. fold C in HC.
  destruct (ROL_byte v C Hv HC) as [Hrot Hcarry].
  rewrite HasStatusFlag_testbit.
  subst v C. revert Hv Hrot Hcarry.
  destruct s as [pc sp a x y p bus rem ce ws sv].
  unfold bus_size in Haddr. cbn [m_Bus] in Haddr. unfold address.value in *.
  destruct bus as [d|]; [|lia].
  unfold Ins_ROL, GetStatusFlag.
  destruct ws; cpu_steps; intros Hv Hrot Hcarry;
    rewrite !testbit_status_with by (simpl; lia);
    cbn [flag_bit Z.eqb Pos.eqb]; (split; [exact Hcarry|]).
  - split; [exact Hrot|reflexivity].
  - rewrite device_ReadByte_WriteByte, Z.eqb_refl by lia.
    destruct (Z.ltb_spec addr (device_size d)); [|lia]. cbn [andb].
    rewrite to_byte_small by apply to_byte_range.
    split; [exact Hrot|reflexivity].
Qed.

End Rotate.

Lemma ROL_rotates_through_carry_witness :
  let s := run first_ILL_slot 2 (boot 0x0200 [0x38; 0xA9; 0x00; 0x81]) in
  let addr := address.of_int 0x0203 in
  let s' := CPU.exec (CPU.Ins_ROL addr) s in
  0 <= CPU.eval (CPU.FetchData addr) s < 256
  /\ 0 <= address.value addr < bus_size s
  /\ CPU.eval (CPU.HasStatusFlag CPU.CARRY) s' = true
  /\ CPU.eval (CPU.ReadByte addr) s' = 0x03
  /\ CPU.m_Acc s' = 0x00.
Proof.
  intros s addr s'.
  assert (Ev : CPU.eval (CPU.FetchData addr) s = 0x81)
    by (vm_compute; reflexivity).
  assert (Hv : 0 <= CPU.eval (CPU.FetchData addr) s < 256)
    by (rewrite Ev; lia).
  assert (Esize : bus_size s = 65536) by (vm_compute; reflexivity).
  assert (Haddr : 0 <= address.value addr < bus_size s).
  { rewrite Esize. change (address.value addr) with 0x0203. lia. }
  split; [exact Hv|]. split; [exact Haddr|].
  pose proof (ROL_rotates_through_carry s addr Hv Haddr) as H.
  vm_compute in H. vm_compute. exact H.
Defined.
